(** * GDPR checker: the audit engine of server.js, embedded and verified

    The development follows the class [GDPRChecker] of server.js: the rule
    tables, the six detectors, the scorer, the recommendation engine, the
    retrying orchestrator [checkUrl] and [close], and the handler of
    POST /api/check that calls them.  Everything the engine obtains from
    puppeteer, cheerio, the TLS stack and the clock is an input of the model
    (records [Dom], [Attempt], [World]); everything the engine computes is a
    Rocq function that evaluates.

    Conventions.
    - A JavaScript string is a sequence of UTF-16 code units, carried as a
      Rocq [string] that holds the UTF-8 bytes of its code points.  Length,
      search, [substring], [replace] and [trim] work on the code units and
      [toLowerCase] on the code points, with the case tables of Unicode.
    - A JavaScript number is an IEEE 754 binary64 value, [spec_float] with
      53 bits of precision.  Array lengths, status codes and millisecond
      counts are integers far below 2^53, where double arithmetic is exact;
      they are computed in [Z] or [nat] and injected with [num_of_Z] where the
      source stores them in a [score].
    - An exception is the message of the thrown [Error]. *)

From Stdlib Require Import ZArith List String Ascii Bool Lia.
From Stdlib Require Import Floats.SpecFloat.
From Stdlib Require Import Sorting.Sorted.
From Stdlib Require Import QArith Qround Qpower.
From stdpp Require Import gmap strings pretty.

Close Scope Q_scope.

Local Open Scope string_scope.
Local Open Scope Z_scope.

(* ===================================================================== *)
(** * Strings *)
(* ===================================================================== *)

Module JsString.

(** ** The representation

    A JavaScript string is a sequence of UTF-16 code units.  The model
    carries it as a Rocq [string]: the UTF-8 bytes of its code points, a
    surrogate that has no partner being written as the three bytes of its
    value.  [codeUnits] reads the code units of a string and [fromCodeUnits]
    writes them back; every operation of the language is defined on the code
    units (or on the code points they form) as ECMA-262 describes it. *)

Definition byte (c : ascii) : Z := Z.of_N (N_of_ascii c).
Definition char (b : Z) : ascii := ascii_of_N (Z.to_N b).

(** The code points of a byte sequence.  A byte that cannot start a
    character, or a character cut short by the end of the string, reads as
    U+FFFD; no string of the model has one. *)
Fixpoint points (s : string) : list Z :=
  match s with
  | EmptyString => []
  | String c1 s1 =>
      let b1 := byte c1 in
      if b1 <? 128 then b1 :: points s1
      else if b1 <? 192 then 65533 :: points s1
      else
        match s1 with
        | EmptyString => [65533]
        | String c2 s2 =>
            if b1 <? 224 then (b1 mod 32 * 64 + byte c2 mod 64) :: points s2
            else
              match s2 with
              | EmptyString => [65533]
              | String c3 s3 =>
                  if b1 <? 240
                  then (b1 mod 16 * 4096 + byte c2 mod 64 * 64 + byte c3 mod 64)
                       :: points s3
                  else
                    match s3 with
                    | EmptyString => [65533]
                    | String c4 s4 =>
                        (b1 mod 8 * 262144 + byte c2 mod 64 * 4096
                         + byte c3 mod 64 * 64 + byte c4 mod 64) :: points s4
                    end
              end
        end
  end.

(** The code units of a code point: itself, or a surrogate pair. *)
Definition unitsOf (cp : Z) : list Z :=
  if cp <? 65536 then [cp]
  else [55296 + (cp - 65536) / 1024; 56320 + (cp - 65536) mod 1024].

Definition codeUnits (s : string) : list Z := flat_map unitsOf (points s).

Definition isHighSurrogate (u : Z) : bool := (55296 <=? u) && (u <=? 56319).
Definition isLowSurrogate (u : Z) : bool := (56320 <=? u) && (u <=? 57343).

(** [StringToCodePoints]: a high surrogate followed by a low surrogate is
    one code point, any other code unit is a code point of its own. *)
Fixpoint codePoints (units : list Z) : list Z :=
  match units with
  | [] => []
  | u :: rest =>
      match rest with
      | u' :: rest' =>
          if isHighSurrogate u && isLowSurrogate u'
          then (65536 + (u - 55296) * 1024 + (u' - 56320)) :: codePoints rest'
          else u :: codePoints rest
      | [] => [u]
      end
  end.

(** The bytes of a code point. *)
Definition bytesOf (cp : Z) : string :=
  if cp <? 128 then String (char cp) EmptyString
  else if cp <? 2048
  then String (char (192 + cp / 64)) (String (char (128 + cp mod 64)) EmptyString)
  else if cp <? 65536
  then String (char (224 + cp / 4096))
         (String (char (128 + cp / 64 mod 64))
            (String (char (128 + cp mod 64)) EmptyString))
  else String (char (240 + cp / 262144))
         (String (char (128 + cp / 4096 mod 64))
            (String (char (128 + cp / 64 mod 64))
               (String (char (128 + cp mod 64)) EmptyString))).

(** [CodePointsToString] *)
Definition ofPoints (ps : list Z) : string :=
  fold_right (fun cp s => bytesOf cp +:+ s) EmptyString ps.

Definition fromCodeUnits (units : list Z) : string := ofPoints (codePoints units).

(** ** Length, substring, search *)

(** [s.length]: the number of code units. *)
Definition length (s : string) : Z := Z.of_nat (List.length (codeUnits s)).

(** [s.substring(0, n)]: the first [n] code units. *)
Definition substring0 (n : nat) (s : string) : string :=
  fromCodeUnits (firstn n (codeUnits s)).

Fixpoint unitsPrefix (p l : list Z) : bool :=
  match p, l with
  | [], _ => true
  | _ :: _, [] => false
  | a :: p', b :: l' => (a =? b) && unitsPrefix p' l'
  end.

Fixpoint unitsOccur (p l : list Z) : bool :=
  unitsPrefix p l ||
  match l with
  | [] => false
  | _ :: l' => unitsOccur p l'
  end.

(** [s.startsWith(p)] *)
Definition startsWith (s p : string) : bool := unitsPrefix (codeUnits p) (codeUnits s).

(** [s.includes(p)]: the code units of [p] occur in those of [s] at some
    offset. *)
Definition includes (s p : string) : bool := unitsOccur (codeUnits p) (codeUnits s).

Fixpoint unitsRemove (p l : list Z) : list Z :=
  if unitsPrefix p l then skipn (List.length p) l
  else match l with
       | [] => []
       | u :: l' => u :: unitsRemove p l'
       end.

(** [s.replace(p, '')] for a string [p]: the first occurrence of [p] is
    removed. *)
Definition removeFirst (s p : string) : string :=
  fromCodeUnits (unitsRemove (codeUnits p) (codeUnits s)).

(** ** White space *)

(** The code points [trim] removes, WhiteSpace and LineTerminator of
    ECMA-262: TAB, LF, VT, FF, CR, the space separators (space, U+00A0,
    U+1680, U+2000 to U+200A, U+202F, U+205F, U+3000), U+2028, U+2029 and
    U+FEFF. *)
Definition isWhiteSpace (u : Z) : bool :=
  existsb (Z.eqb u)
    [9; 10; 11; 12; 13; 32; 160; 5760; 8232; 8233; 8239; 8287; 12288; 65279]
  || ((8192 <=? u) && (u <=? 8202)).

Fixpoint trimStartUnits (l : list Z) : list Z :=
  match l with
  | [] => []
  | u :: l' => if isWhiteSpace u then trimStartUnits l' else l
  end.

Definition trimUnits (l : list Z) : list Z :=
  rev (trimStartUnits (rev (trimStartUnits l))).

(** [s.trim()] *)
Definition trim (s : string) : string := fromCodeUnits (trimUnits (codeUnits s)).

(** ** Lower case

    [toLowerCase] maps the code points of the string through the Unicode
    default case conversion: the lowercase mapping of UnicodeData.txt, the
    one unconditional entry of SpecialCasing.txt (U+0130) and its one
    condition that does not depend on the language (Final_Sigma).  The
    tables are those of Unicode 14.0. *)

(** The lowercase mappings: the code points [lo], [lo + step], ..., up to
    [hi] map to themselves plus [delta]. *)
Definition lowerTable : list (Z * Z * Z * Z) :=
  [
    (65, 90, 1, 32); (192, 214, 1, 32); (216, 222, 1, 32); (256, 302, 2, 1);
     (306, 310, 2, 1); (313, 327, 2, 1); (330, 374, 2, 1); (376, 376, 1, -121);
     (377, 381, 2, 1); (385, 385, 1, 210); (386, 388, 2, 1); (390, 390, 1, 206);
     (391, 391, 1, 1); (393, 394, 1, 205); (395, 395, 1, 1); (398, 398, 1, 79);
     (399, 399, 1, 202); (400, 400, 1, 203); (401, 401, 1, 1); (403, 403, 1, 205);
     (404, 404, 1, 207); (406, 406, 1, 211); (407, 407, 1, 209); (408, 408, 1, 1);
     (412, 412, 1, 211); (413, 413, 1, 213); (415, 415, 1, 214); (416, 420, 2, 1);
     (422, 422, 1, 218); (423, 423, 1, 1); (425, 425, 1, 218); (428, 428, 1, 1);
     (430, 430, 1, 218); (431, 431, 1, 1); (433, 434, 1, 217); (435, 437, 2, 1);
     (439, 439, 1, 219); (440, 440, 1, 1); (444, 444, 1, 1); (452, 452, 1, 2);
     (453, 453, 1, 1); (455, 455, 1, 2); (456, 456, 1, 1); (458, 458, 1, 2);
     (459, 475, 2, 1); (478, 494, 2, 1); (497, 497, 1, 2); (498, 500, 2, 1);
     (502, 502, 1, -97); (503, 503, 1, -56); (504, 542, 2, 1); (544, 544, 1, -130);
     (546, 562, 2, 1); (570, 570, 1, 10795); (571, 571, 1, 1); (573, 573, 1, -163);
     (574, 574, 1, 10792); (577, 577, 1, 1); (579, 579, 1, -195); (580, 580, 1, 69);
     (581, 581, 1, 71); (582, 590, 2, 1); (880, 882, 2, 1); (886, 886, 1, 1);
     (895, 895, 1, 116); (902, 902, 1, 38); (904, 906, 1, 37); (908, 908, 1, 64);
     (910, 911, 1, 63); (913, 929, 1, 32); (931, 939, 1, 32); (975, 975, 1, 8);
     (984, 1006, 2, 1); (1012, 1012, 1, -60); (1015, 1015, 1, 1); (1017, 1017, 1, -7);
     (1018, 1018, 1, 1); (1021, 1023, 1, -130); (1024, 1039, 1, 80);
     (1040, 1071, 1, 32); (1120, 1152, 2, 1); (1162, 1214, 2, 1); (1216, 1216, 1, 15);
     (1217, 1229, 2, 1); (1232, 1326, 2, 1); (1329, 1366, 1, 48); (4256, 4293, 1, 7264);
     (4295, 4295, 1, 7264); (4301, 4301, 1, 7264); (5024, 5103, 1, 38864);
     (5104, 5109, 1, 8); (7312, 7354, 1, -3008); (7357, 7359, 1, -3008);
     (7680, 7828, 2, 1); (7838, 7838, 1, -7615); (7840, 7934, 2, 1);
     (7944, 7951, 1, -8); (7960, 7965, 1, -8); (7976, 7983, 1, -8); (7992, 7999, 1, -8);
     (8008, 8013, 1, -8); (8025, 8031, 2, -8); (8040, 8047, 1, -8); (8072, 8079, 1, -8);
     (8088, 8095, 1, -8); (8104, 8111, 1, -8); (8120, 8121, 1, -8);
     (8122, 8123, 1, -74); (8124, 8124, 1, -9); (8136, 8139, 1, -86);
     (8140, 8140, 1, -9); (8152, 8153, 1, -8); (8154, 8155, 1, -100);
     (8168, 8169, 1, -8); (8170, 8171, 1, -112); (8172, 8172, 1, -7);
     (8184, 8185, 1, -128); (8186, 8187, 1, -126); (8188, 8188, 1, -9);
     (8486, 8486, 1, -7517); (8490, 8490, 1, -8383); (8491, 8491, 1, -8262);
     (8498, 8498, 1, 28); (8544, 8559, 1, 16); (8579, 8579, 1, 1); (9398, 9423, 1, 26);
     (11264, 11311, 1, 48); (11360, 11360, 1, 1); (11362, 11362, 1, -10743);
     (11363, 11363, 1, -3814); (11364, 11364, 1, -10727); (11367, 11371, 2, 1);
     (11373, 11373, 1, -10780); (11374, 11374, 1, -10749); (11375, 11375, 1, -10783);
     (11376, 11376, 1, -10782); (11378, 11378, 1, 1); (11381, 11381, 1, 1);
     (11390, 11391, 1, -10815); (11392, 11490, 2, 1); (11499, 11501, 2, 1);
     (11506, 11506, 1, 1); (42560, 42604, 2, 1); (42624, 42650, 2, 1);
     (42786, 42798, 2, 1); (42802, 42862, 2, 1); (42873, 42875, 2, 1);
     (42877, 42877, 1, -35332); (42878, 42886, 2, 1); (42891, 42891, 1, 1);
     (42893, 42893, 1, -42280); (42896, 42898, 2, 1); (42902, 42920, 2, 1);
     (42922, 42922, 1, -42308); (42923, 42923, 1, -42319); (42924, 42924, 1, -42315);
     (42925, 42925, 1, -42305); (42926, 42926, 1, -42308); (42928, 42928, 1, -42258);
     (42929, 42929, 1, -42282); (42930, 42930, 1, -42261); (42931, 42931, 1, 928);
     (42932, 42946, 2, 1); (42948, 42948, 1, -48); (42949, 42949, 1, -42307);
     (42950, 42950, 1, -35384); (42951, 42953, 2, 1); (42960, 42960, 1, 1);
     (42966, 42968, 2, 1); (42997, 42997, 1, 1); (65313, 65338, 1, 32);
     (66560, 66599, 1, 40); (66736, 66771, 1, 40); (66928, 66938, 1, 39);
     (66940, 66954, 1, 39); (66956, 66962, 1, 39); (66964, 66965, 1, 39);
     (68736, 68786, 1, 64); (71840, 71871, 1, 32); (93760, 93791, 1, 32);
     (125184, 125217, 1, 34)
  ].

(** The code points with the property Case_Ignorable. *)
Definition caseIgnorableRanges : list (Z * Z) :=
  [
    (39, 39); (46, 46); (58, 58); (94, 94); (96, 96); (168, 168); (173, 173);
     (175, 175); (180, 180); (183, 184); (688, 879); (884, 885); (890, 890); (900, 901);
     (903, 903); (1155, 1161); (1369, 1369); (1375, 1375); (1425, 1469); (1471, 1471);
     (1473, 1474); (1476, 1477); (1479, 1479); (1524, 1524); (1536, 1541); (1552, 1562);
     (1564, 1564); (1600, 1600); (1611, 1631); (1648, 1648); (1750, 1757); (1759, 1768);
     (1770, 1773); (1807, 1807); (1809, 1809); (1840, 1866); (1958, 1968); (2027, 2037);
     (2042, 2042); (2045, 2045); (2070, 2093); (2137, 2139); (2184, 2184); (2192, 2193);
     (2200, 2207); (2249, 2306); (2362, 2362); (2364, 2364); (2369, 2376); (2381, 2381);
     (2385, 2391); (2402, 2403); (2417, 2417); (2433, 2433); (2492, 2492); (2497, 2500);
     (2509, 2509); (2530, 2531); (2558, 2558); (2561, 2562); (2620, 2620); (2625, 2626);
     (2631, 2632); (2635, 2637); (2641, 2641); (2672, 2673); (2677, 2677); (2689, 2690);
     (2748, 2748); (2753, 2757); (2759, 2760); (2765, 2765); (2786, 2787); (2810, 2815);
     (2817, 2817); (2876, 2876); (2879, 2879); (2881, 2884); (2893, 2893); (2901, 2902);
     (2914, 2915); (2946, 2946); (3008, 3008); (3021, 3021); (3072, 3072); (3076, 3076);
     (3132, 3132); (3134, 3136); (3142, 3144); (3146, 3149); (3157, 3158); (3170, 3171);
     (3201, 3201); (3260, 3260); (3263, 3263); (3270, 3270); (3276, 3277); (3298, 3299);
     (3328, 3329); (3387, 3388); (3393, 3396); (3405, 3405); (3426, 3427); (3457, 3457);
     (3530, 3530); (3538, 3540); (3542, 3542); (3633, 3633); (3636, 3642); (3654, 3662);
     (3761, 3761); (3764, 3772); (3782, 3782); (3784, 3789); (3864, 3865); (3893, 3893);
     (3895, 3895); (3897, 3897); (3953, 3966); (3968, 3972); (3974, 3975); (3981, 3991);
     (3993, 4028); (4038, 4038); (4141, 4144); (4146, 4151); (4153, 4154); (4157, 4158);
     (4184, 4185); (4190, 4192); (4209, 4212); (4226, 4226); (4229, 4230); (4237, 4237);
     (4253, 4253); (4348, 4348); (4957, 4959); (5906, 5908); (5938, 5939); (5970, 5971);
     (6002, 6003); (6068, 6069); (6071, 6077); (6086, 6086); (6089, 6099); (6103, 6103);
     (6109, 6109); (6155, 6159); (6211, 6211); (6277, 6278); (6313, 6313); (6432, 6434);
     (6439, 6440); (6450, 6450); (6457, 6459); (6679, 6680); (6683, 6683); (6742, 6742);
     (6744, 6750); (6752, 6752); (6754, 6754); (6757, 6764); (6771, 6780); (6783, 6783);
     (6823, 6823); (6832, 6862); (6912, 6915); (6964, 6964); (6966, 6970); (6972, 6972);
     (6978, 6978); (7019, 7027); (7040, 7041); (7074, 7077); (7080, 7081); (7083, 7085);
     (7142, 7142); (7144, 7145); (7149, 7149); (7151, 7153); (7212, 7219); (7222, 7223);
     (7288, 7293); (7376, 7378); (7380, 7392); (7394, 7400); (7405, 7405); (7412, 7412);
     (7416, 7417); (7468, 7530); (7544, 7544); (7579, 7679); (8125, 8125); (8127, 8129);
     (8141, 8143); (8157, 8159); (8173, 8175); (8189, 8190); (8203, 8207); (8216, 8217);
     (8228, 8228); (8231, 8231); (8234, 8238); (8288, 8292); (8294, 8303); (8305, 8305);
     (8319, 8319); (8336, 8348); (8400, 8432); (11388, 11389); (11503, 11505);
     (11631, 11631); (11647, 11647); (11744, 11775); (11823, 11823); (12293, 12293);
     (12330, 12333); (12337, 12341); (12347, 12347); (12441, 12446); (12540, 12542);
     (40981, 40981); (42232, 42237); (42508, 42508); (42607, 42610); (42612, 42621);
     (42623, 42623); (42652, 42655); (42736, 42737); (42752, 42785); (42864, 42864);
     (42888, 42890); (42994, 42996); (43000, 43001); (43010, 43010); (43014, 43014);
     (43019, 43019); (43045, 43046); (43052, 43052); (43204, 43205); (43232, 43249);
     (43263, 43263); (43302, 43309); (43335, 43345); (43392, 43394); (43443, 43443);
     (43446, 43449); (43452, 43453); (43471, 43471); (43493, 43494); (43561, 43566);
     (43569, 43570); (43573, 43574); (43587, 43587); (43596, 43596); (43632, 43632);
     (43644, 43644); (43696, 43696); (43698, 43700); (43703, 43704); (43710, 43711);
     (43713, 43713); (43741, 43741); (43756, 43757); (43763, 43764); (43766, 43766);
     (43867, 43871); (43881, 43883); (44005, 44005); (44008, 44008); (44013, 44013);
     (64286, 64286); (64434, 64450); (65024, 65039); (65043, 65043); (65056, 65071);
     (65106, 65106); (65109, 65109); (65279, 65279); (65287, 65287); (65294, 65294);
     (65306, 65306); (65342, 65342); (65344, 65344); (65392, 65392); (65438, 65439);
     (65507, 65507); (65529, 65531); (66045, 66045); (66272, 66272); (66422, 66426);
     (67456, 67461); (67463, 67504); (67506, 67514); (68097, 68099); (68101, 68102);
     (68108, 68111); (68152, 68154); (68159, 68159); (68325, 68326); (68900, 68903);
     (69291, 69292); (69446, 69456); (69506, 69509); (69633, 69633); (69688, 69702);
     (69744, 69744); (69747, 69748); (69759, 69761); (69811, 69814); (69817, 69818);
     (69821, 69821); (69826, 69826); (69837, 69837); (69888, 69890); (69927, 69931);
     (69933, 69940); (70003, 70003); (70016, 70017); (70070, 70078); (70089, 70092);
     (70095, 70095); (70191, 70193); (70196, 70196); (70198, 70199); (70206, 70206);
     (70367, 70367); (70371, 70378); (70400, 70401); (70459, 70460); (70464, 70464);
     (70502, 70508); (70512, 70516); (70712, 70719); (70722, 70724); (70726, 70726);
     (70750, 70750); (70835, 70840); (70842, 70842); (70847, 70848); (70850, 70851);
     (71090, 71093); (71100, 71101); (71103, 71104); (71132, 71133); (71219, 71226);
     (71229, 71229); (71231, 71232); (71339, 71339); (71341, 71341); (71344, 71349);
     (71351, 71351); (71453, 71455); (71458, 71461); (71463, 71467); (71727, 71735);
     (71737, 71738); (71995, 71996); (71998, 71998); (72003, 72003); (72148, 72151);
     (72154, 72155); (72160, 72160); (72193, 72202); (72243, 72248); (72251, 72254);
     (72263, 72263); (72273, 72278); (72281, 72283); (72330, 72342); (72344, 72345);
     (72752, 72758); (72760, 72765); (72767, 72767); (72850, 72871); (72874, 72880);
     (72882, 72883); (72885, 72886); (73009, 73014); (73018, 73018); (73020, 73021);
     (73023, 73029); (73031, 73031); (73104, 73105); (73109, 73109); (73111, 73111);
     (73459, 73460); (78896, 78904); (92912, 92916); (92976, 92982); (92992, 92995);
     (94031, 94031); (94095, 94111); (94176, 94177); (94179, 94180); (110576, 110579);
     (110581, 110587); (110589, 110590); (113821, 113822); (113824, 113827);
     (118528, 118573); (118576, 118598); (119143, 119145); (119155, 119170);
     (119173, 119179); (119210, 119213); (119362, 119364); (121344, 121398);
     (121403, 121452); (121461, 121461); (121476, 121476); (121499, 121503);
     (121505, 121519); (122880, 122886); (122888, 122904); (122907, 122913);
     (122915, 122916); (122918, 122922); (123184, 123197); (123566, 123566);
     (123628, 123631); (125136, 125142); (125252, 125259); (127995, 127999);
     (917505, 917505); (917536, 917631); (917760, 917999)
  ].

(** The code points with the property Cased that are not Case_Ignorable. *)
Definition casedRanges : list (Z * Z) :=
  [
    (65, 90); (97, 122); (170, 170); (181, 181); (186, 186); (192, 214); (216, 246);
     (248, 442); (444, 447); (452, 659); (661, 687); (880, 883); (886, 887); (891, 893);
     (895, 895); (902, 902); (904, 906); (908, 908); (910, 929); (931, 1013);
     (1015, 1153); (1162, 1327); (1329, 1366); (1376, 1416); (4256, 4293); (4295, 4295);
     (4301, 4301); (4304, 4346); (4349, 4351); (5024, 5109); (5112, 5117); (7296, 7304);
     (7312, 7354); (7357, 7359); (7424, 7467); (7531, 7543); (7545, 7578); (7680, 7957);
     (7960, 7965); (7968, 8005); (8008, 8013); (8016, 8023); (8025, 8025); (8027, 8027);
     (8029, 8029); (8031, 8061); (8064, 8116); (8118, 8124); (8126, 8126); (8130, 8132);
     (8134, 8140); (8144, 8147); (8150, 8155); (8160, 8172); (8178, 8180); (8182, 8188);
     (8450, 8450); (8455, 8455); (8458, 8467); (8469, 8469); (8473, 8477); (8484, 8484);
     (8486, 8486); (8488, 8488); (8490, 8493); (8495, 8500); (8505, 8505); (8508, 8511);
     (8517, 8521); (8526, 8526); (8544, 8575); (8579, 8580); (9398, 9449);
     (11264, 11387); (11390, 11492); (11499, 11502); (11506, 11507); (11520, 11557);
     (11559, 11559); (11565, 11565); (42560, 42605); (42624, 42651); (42786, 42863);
     (42865, 42887); (42891, 42894); (42896, 42954); (42960, 42961); (42963, 42963);
     (42965, 42969); (42997, 42998); (43002, 43002); (43824, 43866); (43872, 43880);
     (43888, 43967); (64256, 64262); (64275, 64279); (65313, 65338); (65345, 65370);
     (66560, 66639); (66736, 66771); (66776, 66811); (66928, 66938); (66940, 66954);
     (66956, 66962); (66964, 66965); (66967, 66977); (66979, 66993); (66995, 67001);
     (67003, 67004); (68736, 68786); (68800, 68850); (71840, 71903); (93760, 93823);
     (119808, 119892); (119894, 119964); (119966, 119967); (119970, 119970);
     (119973, 119974); (119977, 119980); (119982, 119993); (119995, 119995);
     (119997, 120003); (120005, 120069); (120071, 120074); (120077, 120084);
     (120086, 120092); (120094, 120121); (120123, 120126); (120128, 120132);
     (120134, 120134); (120138, 120144); (120146, 120485); (120488, 120512);
     (120514, 120538); (120540, 120570); (120572, 120596); (120598, 120628);
     (120630, 120654); (120656, 120686); (120688, 120712); (120714, 120744);
     (120746, 120770); (120772, 120779); (122624, 122633); (122635, 122654);
     (125184, 125251); (127280, 127305); (127312, 127337); (127344, 127369)
  ].

Fixpoint lowerIn (table : list (Z * Z * Z * Z)) (cp : Z) : Z :=
  match table with
  | [] => cp
  | (lo, hi, step, delta) :: rest =>
      if cp <? lo then cp
      else if (cp <=? hi) && ((cp - lo) mod step =? 0) then cp + delta
      else lowerIn rest cp
  end.

Fixpoint inRanges (ranges : list (Z * Z)) (cp : Z) : bool :=
  match ranges with
  | [] => false
  | (lo, hi) :: rest =>
      if cp <? lo then false
      else if cp <=? hi then true
      else inRanges rest cp
  end.

Definition caseIgnorable (cp : Z) : bool := inRanges caseIgnorableRanges cp.
Definition cased (cp : Z) : bool := inRanges casedRanges cp.

(** The rest of the string starts, after case-ignorable code points, with
    a cased letter. *)
Fixpoint followedByCased (ps : list Z) : bool :=
  match ps with
  | [] => false
  | p :: rest => if caseIgnorable p then followedByCased rest else cased p
  end.

(** [afterCased]: the code points read so far end, before case-ignorable
    ones, with a cased letter.  A capital sigma in that position that no
    cased letter follows becomes the final sigma. *)
Fixpoint lowerPoints (afterCased : bool) (ps : list Z) : list Z :=
  match ps with
  | [] => []
  | p :: rest =>
      (if p =? 931
       then [if afterCased && negb (followedByCased rest) then 962 else 963]
       else if p =? 304 then [105; 775]
       else [lowerIn lowerTable p])
      ++ lowerPoints (if caseIgnorable p then afterCased else cased p) rest
  end.

(** [s.toLowerCase()] *)
Definition toLowerCase (s : string) : string :=
  ofPoints (lowerPoints false (codePoints (codeUnits s))).

End JsString.

Arguments JsString.codeUnits : simpl never.
Arguments JsString.fromCodeUnits : simpl never.
Arguments JsString.toLowerCase : simpl never.
Arguments JsString.includes : simpl never.
Arguments JsString.startsWith : simpl never.
Arguments JsString.length : simpl never.
Arguments JsString.substring0 : simpl never.
Arguments JsString.removeFirst : simpl never.
Arguments JsString.trim : simpl never.

(* ===================================================================== *)
(** * Numbers *)
(* ===================================================================== *)

Module JsNumber.

Definition number := spec_float.

Definition prec : Z := 53.
Definition emax : Z := 1024.

(** The double that holds the integer [n] (exact for |n| <= 2^53). *)
Definition num_of_Z (n : Z) : number := binary_normalize prec emax n 0 false.

Definition add : number -> number -> number := SFadd prec emax.
Definition mul : number -> number -> number := SFmul prec emax.
Definition leb : number -> number -> bool := SFleb.

(** The value every double of the language has: a canonical mantissa and
    an exponent in range. *)
Definition is_double (x : number) : bool := valid_binary prec emax x.

(** The integer nearest to the finite value (-1)^s * m * 2^e, a tie going
    towards +infinity: the floor of the value plus one half. *)
Definition nearestInteger (s : bool) (m : positive) (e : Z) : Z :=
  if 0 <=? e then cond_Zopp s (Zpos m) * 2 ^ e
  else (cond_Zopp s (Zpos m) + 2 ^ (- e - 1)) / 2 ^ (- e).

(** [Math.round(x)]: NaN, the infinities and the zeros are returned as they
    are; a finite [x] gives the double of its nearest integer, which is -0
    for a negative [x] that rounds to zero. *)
Definition Math_round (x : number) : number :=
  match x with
  | S754_finite s m e => binary_normalize prec emax (nearestInteger s m e) 0 s
  | _ => x
  end.

(** [Math.min(a, b)] *)
Definition Math_min (a b : number) : number :=
  match a, b with
  | S754_nan, _ | _, S754_nan => S754_nan
  | S754_zero sa, S754_zero sb => S754_zero (sa || sb)
  | _, _ => if SFleb a b then a else b
  end.

(** [typeof v === 'number' && v is truthy]: neither a zero nor NaN. *)
Definition truthy (x : number) : bool :=
  match x with
  | S754_zero _ | S754_nan => false
  | _ => true
  end.

End JsNumber.

Export JsNumber.

(* ===================================================================== *)
(** * Values, exceptions and the two monads of the engine *)
(* ===================================================================== *)

(** A property read from an object that the browser library handed over:
    the source guards some of them ([cookie.name || ''], [c.secure || false])
    and calls string methods on others ([request.url.toLowerCase()]). *)
Inductive jsval :=
| JUndefined
| JNull
| JBool (b : bool)
| JNum (x : number)
| JStr (s : string).

Definition js_truthy (v : jsval) : bool :=
  match v with
  | JUndefined | JNull => false
  | JBool b => b
  | JNum x => JsNumber.truthy x
  | JStr s => negb (String.eqb s "")
  end.

(** [v || d] *)
Definition js_or (v d : jsval) : jsval := if js_truthy v then v else d.

(** The message of a thrown [Error]. *)
Definition exn := string.

(** A computation that returns or throws. *)
Definition Try (A : Type) : Type := exn + A.

#[global] Instance Try_ret : MRet (sum exn) := fun A x => inr x.
#[global] Instance Try_bind : MBind (sum exn) := fun A B f m =>
  match m with
  | inl e => inl e
  | inr x => f x
  end.

Definition throw {A} (e : exn) : Try A := inl e.

(** [v.toLowerCase()] on a value that need not be a string. *)
Definition call_toLowerCase (v : jsval) : Try string :=
  match v with
  | JStr s => mret (JsString.toLowerCase s)
  | JUndefined => throw "Cannot read properties of undefined (reading 'toLowerCase')"
  | JNull => throw "Cannot read properties of null (reading 'toLowerCase')"
  | JBool _ | JNum _ => throw "toLowerCase is not a function"
  end.

(** [l.push(x)] *)
Definition push {A} (l : list A) (x : A) : list A := (l ++ [x])%list.

(** [l.some(f)] when the callback may throw. *)
Fixpoint some_try {A} (f : A -> Try bool) (l : list A) : Try bool :=
  match l with
  | [] => mret false
  | x :: l' => b ← f x; if b : bool then mret true else some_try f l'
  end.

(** [l.filter(f)] when the callback may throw. *)
Fixpoint filter_try {A} (f : A -> Try bool) (l : list A) : Try (list A) :=
  match l with
  | [] => mret []
  | x :: l' => b ← f x; r ← filter_try f l'; mret (if b : bool then x :: r else r)
  end.

(** [l.forEach(f)] (or a [for ... of] loop) whose body updates an object that
    outlives the loop: on a throw the updates made so far are kept. *)
Fixpoint forEach_try {S A} (f : A -> S -> S * option exn) (l : list A) (s : S)
  : S * option exn :=
  match l with
  | [] => (s, None)
  | x :: l' =>
      match f x s with
      | (s', None) => forEach_try f l' s'
      | (s', Some e) => (s', Some e)
      end
  end.

(* ===================================================================== *)
(** * Rule tables *)
(* ===================================================================== *)

(** An attribute selector with its quoted operand: [attr "id" "*=" "cookie"]
    is the text [[id*="cookie"]]. *)
Definition dquote : string := String (ascii_of_N 34) EmptyString.
Definition attr (a op v : string) : string :=
  "[" +:+ a +:+ op +:+ dquote +:+ v +:+ dquote +:+ "]".

Module GDPR_CHECKS.

Module cookieBanner.
Definition selectors : list string :=
  [ attr "id" "*=" "cookie"; attr "class" "*=" "cookie";
    attr "id" "*=" "consent"; attr "class" "*=" "consent";
    "[data-consent]"; ".cookie-notice"; ".cookie-banner"; "#cookie-policy";
    ".gdpr-banner"; attr "class" "*=" "gdpr" ].
Definition keywords : list string :=
  [ "cookie"; "súhlas"; "consent"; "gdpr"; "ochrana údajov"; "privacy";
    "cookies policy" ].
End cookieBanner.

Module privacyPolicy.
Definition links : list string :=
  [ "privacy"; "ochrana-udajov"; "ochrana-osobnych-udajov"; "zasady-ochrany";
    "gdpr"; "privacy-policy"; "osobne-udaje" ].
End privacyPolicy.

Module cookiePolicy.
Definition links : list string :=
  [ "cookie"; "cookies"; "cookie-policy"; "zasady-cookies"; "cookies-policy" ].
End cookiePolicy.

Module contactInfo.
Definition selectors : list string :=
  [ attr "href" "^=" "mailto:"; attr "class" "*=" "contact";
    attr "id" "*=" "contact"; attr "class" "*=" "email";
    attr "id" "*=" "email" ].
End contactInfo.

End GDPR_CHECKS.

Record Service := {
  patterns : list string;
  service_name : string;
  category : string
}.

(** [Object.entries(TRACKING_SERVICES)], in the order of the literal. *)
Definition TRACKING_SERVICES : list (string * Service) :=
  [ ("google-analytics",
     {| patterns := ["google-analytics.com"; "googletagmanager.com"; "gtag"; "_ga"; "_gid"; "_gat"];
        service_name := "Google Analytics"; category := "analytics" |});
    ("facebook-pixel",
     {| patterns := ["facebook.com/tr"; "connect.facebook.net"; "fbq"; "_fbp"; "_fbc"];
        service_name := "Facebook Pixel"; category := "marketing" |});
    ("google-ads",
     {| patterns := ["googleadservices.com"; "googlesyndication.com"; "_gcl_"];
        service_name := "Google Ads"; category := "advertising" |});
    ("hotjar",
     {| patterns := ["hotjar.com"; "_hjid"; "_hjIncludedInSample"];
        service_name := "Hotjar"; category := "analytics" |});
    ("youtube",
     {| patterns := ["youtube.com/embed"; "ytimg.com"; "VISITOR_INFO1_LIVE"; "YSC"];
        service_name := "YouTube Embedded"; category := "media" |}) ].

(* ===================================================================== *)
(** * Data model *)
(* ===================================================================== *)

(** A cookie as [page.cookies()] lists it. *)
Record Cookie := {
  name : jsval;
  domain : jsval;
  secure : jsval;
  httpOnly : jsval;
  sameSite : jsval
}.

(** An entry of [networkRequests]. *)
Record NetworkRequest := {
  url : jsval;
  type : jsval;
  timestamp : Z
}.

Record BannerElement := { be_selector : string; be_text : string; be_visible : bool }.
Record PolicyLink := { pl_href : string; pl_text : string; pl_type : string }.
Record Contact := { ct_type : string; ct_value : string; ct_text : string }.
Record CookieSummary := {
  cs_name : jsval; cs_domain : jsval; cs_secure : jsval; cs_httpOnly : jsval;
  cs_sameSite : jsval
}.
Record CookieDetail := {
  cd_name : jsval; cd_domain : jsval; cd_secure : jsval; cd_httpOnly : jsval
}.
Record TrackingRequest := {
  tr_service : string; tr_category : string; tr_url : jsval; tr_type : jsval
}.
Record TrackingService := { ts_name : string; ts_category : string; ts_detected : bool }.

(** The [details] of a violation; [MissingDetails] is a violation object
    that has no [details]. *)
Inductive ViolationDetails :=
| CookieDetails (cookies : list CookieDetail)
| RequestDetails (requests : list TrackingRequest)
| MissingDetails.

Record Violation := {
  v_type : string;
  v_severity : string;
  v_message : string;
  v_details : ViolationDetails
}.

(** [violation.details.length]: reading it throws when there are no
    [details]. *)
Definition details_length (d : ViolationDetails) : Try Z :=
  match d with
  | CookieDetails l => mret (Z.of_nat (List.length l))
  | RequestDetails l => mret (Z.of_nat (List.length l))
  | MissingDetails => throw "Cannot read properties of undefined (reading 'length')"
  end.

(** What a check result carries besides [found], [score] and [error]. *)
Inductive Evidence :=
| BannerElements (elements : list BannerElement)
| PolicyLinks (links : list PolicyLink)
| Contacts (contacts : list Contact)
| SslStatus (valid : bool) (details : string)
| CookieList (count : Z) (cookies : option (list CookieSummary))
| PreConsent (violations : list Violation) (totalCookies : Z)
             (trackingServices : list TrackingService)
| NoEvidence.

(** A value of the [checks] object.  A field the object does not have (or,
    for [score], one that is not a number) is [None]. *)
Record CheckResult := {
  found : option bool;
  score : option number;
  error : option string;
  evidence : Evidence
}.

Record Recommendation := { priority : string; message : string }.

Record Debug := {
  loadTime : option Z;
  networkRequests : option Z;
  retryCount : nat;
  failed : bool;
  debug_error : option string
}.

(** The object [checkUrl] resolves to. *)
Record Report := {
  report_url : string;
  report_timestamp : string;
  report_error : option string;
  checks : gmap string CheckResult;
  report_score : number;
  recommendations : list Recommendation;
  thirdPartyServices : option (list TrackingService);
  debug : Debug
}.

(* ===================================================================== *)
(** * The loaded document *)
(* ===================================================================== *)

(** An element of a cheerio selection: its text and its [href] attribute. *)
Record Element := {
  el_text : string;
  el_href : option string
}.

(** [cheerio.load(content)]: the query function [$].  A query returns the
    matched elements in document order, or throws. *)
Record Dom := { select : string -> Try (list Element) }.

(** [$(sel).text()]: the texts of the matched elements, concatenated. *)
Definition selection_text (els : list Element) : string :=
  fold_right (fun el acc => el_text el +:+ acc) "" els.

(* ===================================================================== *)
(** * Content detectors *)
(* ===================================================================== *)

(** The body of [elements.each] in [checkCookieBanner]. *)
Definition bannerElement (selector : string) (acc : bool * list BannerElement)
  (el : Element) : bool * list BannerElement :=
  let text := JsString.toLowerCase (el_text el) in
  if 10 <? JsString.length text then
    (true, push (snd acc) {| be_selector := selector;
                                 be_text := JsString.substring0 100 text;
                                 be_visible := true |})
  else acc.

(** One turn of the loop over the selectors: a query that throws is logged
    and skipped. *)
Definition bannerSelector (dom : Dom) (acc : bool * list BannerElement)
  (selector : string) : bool * list BannerElement :=
  match select dom selector with
  | inl _ => acc
  | inr elements =>
      if 0 <? Z.of_nat (List.length elements)
      then fold_left (bannerElement selector) elements acc
      else acc
  end.

Definition checkCookieBanner (dom : Dom) : CheckResult :=
  let '(found0, elements) :=
    fold_left (bannerSelector dom) GDPR_CHECKS.cookieBanner.selectors (false, []) in
  match select dom "body" with
  | inr body =>
      let bodyText := JsString.toLowerCase (selection_text body) in
      let found1 :=
        found0 || existsb (fun keyword =>
                             JsString.includes bodyText (JsString.toLowerCase keyword))
                          GDPR_CHECKS.cookieBanner.keywords in
      {| found := Some found1;
         score := Some (num_of_Z (if found1 then 100 else 0));
         error := None;
         evidence := BannerElements elements |}
  | inl _ =>
      {| found := Some found0; score := Some (num_of_Z 0); error := None;
         evidence := BannerElements elements |}
  end.

(** The anchor scan shared by [checkPrivacyPolicy] and [checkCookiePolicy]:
    the first configured link text found in the [href] or in the text of an
    anchor records the anchor. *)
Definition policyAnchor (links : list string) (kind : string)
  (acc : bool * list PolicyLink) (el : Element) : bool * list PolicyLink :=
  let href := default "" (el_href el) in
  let text := JsString.toLowerCase (el_text el) in
  if existsb (fun link => JsString.includes (JsString.toLowerCase href) link
                          || JsString.includes text link) links
  then (true, push (snd acc) {| pl_href := href;
                                 pl_text := JsString.trim (el_text el);
                                 pl_type := kind |})
  else acc.

Definition checkPolicy (links : list string) (kind : string) (full : Z) (dom : Dom)
  : CheckResult :=
  match select dom "a" with
  | inr anchors =>
      let '(found1, recorded) := fold_left (policyAnchor links kind) anchors (false, []) in
      {| found := Some found1;
         score := Some (num_of_Z (if found1 then full else 0));
         error := None;
         evidence := PolicyLinks recorded |}
  | inl _ =>
      {| found := Some false; score := Some (num_of_Z 0); error := None;
         evidence := PolicyLinks [] |}
  end.

Definition checkPrivacyPolicy (dom : Dom) : CheckResult :=
  checkPolicy GDPR_CHECKS.privacyPolicy.links "privacy-policy" 100 dom.

Definition checkCookiePolicy (dom : Dom) : CheckResult :=
  checkPolicy GDPR_CHECKS.cookiePolicy.links "cookie-policy" 80 dom.

(** The body of the two [each] loops of [checkContactInfo]: the [href] is
    read without a guard, so an element without one throws. *)
Definition contactAnchor (kind scheme : string) (el : Element)
  (acc : bool * list Contact) : (bool * list Contact) * option exn :=
  match el_href el with
  | Some href =>
      ((true, push (snd acc) {| ct_type := kind;
                                  ct_value := JsString.removeFirst href scheme;
                                  ct_text := JsString.trim (el_text el) |}), None)
  | None => ((true, snd acc), Some "Cannot read properties of undefined (reading 'replace')")
  end.

Definition contactQuery (dom : Dom) (selector : string)
  (body : list Element -> bool * list Contact -> (bool * list Contact) * option exn)
  (acc : bool * list Contact) : (bool * list Contact) * option exn :=
  match select dom selector with
  | inl e => (acc, Some e)
  | inr els => body els acc
  end.

Definition checkContactInfo (dom : Dom) : CheckResult :=
  let steps : list (bool * list Contact -> (bool * list Contact) * option exn) :=
    contactQuery dom ("a" +:+ attr "href" "^=" "mailto:")
                 (forEach_try (contactAnchor "email" "mailto:"))
    :: contactQuery dom ("a" +:+ attr "href" "^=" "tel:")
                    (forEach_try (contactAnchor "phone" "tel:"))
    :: map (fun selector =>
              contactQuery dom selector
                (fun els acc =>
                   ((if 0 <? Z.of_nat (List.length els) then (true, snd acc) else acc), None)))
           GDPR_CHECKS.contactInfo.selectors in
  match forEach_try (fun step acc => step acc) steps (false, []) with
  | ((found1, contacts), None) =>
      {| found := Some found1;
         score := Some (num_of_Z (if found1 then 80 else 0));
         error := None;
         evidence := Contacts contacts |}
  | ((found1, contacts), Some _) =>
      {| found := Some found1; score := Some (num_of_Z 0); error := None;
         evidence := Contacts contacts |}
  end.

(* ===================================================================== *)
(** * Cookie count *)
(* ===================================================================== *)

Definition summarize (c : Cookie) : CookieSummary :=
  {| cs_name := name c;
     cs_domain := domain c;
     cs_secure := js_or (secure c) (JBool false);
     cs_httpOnly := js_or (httpOnly c) (JBool false);
     cs_sameSite := js_or (sameSite c) (JStr "none") |}.

(** The tier of a cookie count. *)
Definition cookieTier (length : Z) : Z :=
  if length =? 0 then 100
  else if length <=? 3 then 80
  else if length <=? 10 then 60
  else 30.

(** [checkCookies(page)]; the argument is what [page.cookies()] does. *)
Definition checkCookies (pageCookies : Try (list Cookie)) : CheckResult :=
  match pageCookies with
  | inr cookies =>
      let length := Z.of_nat (List.length cookies) in
      {| found := None;
         score := Some (Math_min (num_of_Z 100) (Math_round (num_of_Z (cookieTier length))));
         error := None;
         evidence := CookieList length (Some (map summarize cookies)) |}
  | inl _ =>
      {| found := None; score := Some (num_of_Z 50); error := None;
         evidence := CookieList 0 (Some []) |}
  end.

(* ===================================================================== *)
(** * Violations before consent *)
(* ===================================================================== *)

Definition essentialPatterns : list string :=
  [ "session"; "csrf"; "xsrf"; "auth"; "login"; "security";
    "lang"; "language"; "timezone"; "currency"; "theme"; "wordpress";
    "wp-"; "phpsessid" ].

(** The callback of [cookies.filter] computes [isEssential] and returns its
    negation. *)
Definition isEssential (cookie : Cookie) : Try bool :=
  cookieName ← call_toLowerCase (js_or (name cookie) (JStr ""));
  mret (existsb (fun pattern =>
                   JsString.includes cookieName (JsString.toLowerCase pattern))
                essentialPatterns).

Definition isProblematic (cookie : Cookie) : Try bool :=
  essential ← isEssential cookie; mret (negb essential).

(** The two arrays the request loop appends to: the local [trackingRequests]
    and [result.trackingServices]. *)
Record Scan := {
  scan_requests : list TrackingRequest;
  scan_services : list TrackingService
}.

Definition matchesService (request : NetworkRequest) (service : Service) : Try bool :=
  some_try (fun pattern =>
              requestUrl ← call_toLowerCase (url request);
              mret (JsString.includes requestUrl (JsString.toLowerCase pattern)))
           (patterns service).

(** The body of the loop over [Object.entries(TRACKING_SERVICES)]. *)
Definition scanService (request : NetworkRequest) (entry : string * Service)
  (acc : Scan) : Scan * option exn :=
  let service := snd entry in
  match matchesService request service with
  | inl e => (acc, Some e)
  | inr false => (acc, None)
  | inr true =>
      ({| scan_requests :=
            push (scan_requests acc)
                 {| tr_service := service_name service;
                    tr_category := category service;
                    tr_url := url request;
                    tr_type := type request |};
          scan_services :=
            if existsb (fun s => String.eqb (ts_name s) (service_name service))
                       (scan_services acc)
            then scan_services acc
            else push (scan_services acc)
                      {| ts_name := service_name service;
                         ts_category := category service;
                         ts_detected := true |} |}, None)
  end.

Definition scanRequest (request : NetworkRequest) (acc : Scan) : Scan * option exn :=
  forEach_try (scanService request) TRACKING_SERVICES acc.

Definition cookieDetail (c : Cookie) : CookieDetail :=
  {| cd_name := name c; cd_domain := domain c;
     cd_secure := secure c; cd_httpOnly := httpOnly c |}.

Definition cookieViolation (problematicCookies : list Cookie) : Violation :=
  {| v_type := "pre-consent-cookies";
     v_severity := "HIGH";
     v_message := pretty (List.length problematicCookies)
                  +:+ " cookies nastavených pred súhlasom";
     v_details := CookieDetails (map cookieDetail problematicCookies) |}.

Definition requestViolation (trackingRequests : list TrackingRequest) : Violation :=
  {| v_type := "tracking-requests";
     v_severity := "HIGH";
     v_message := pretty (List.length trackingRequests)
                  +:+ " tracking požiadaviek pred súhlasom";
     v_details := RequestDetails trackingRequests |}.

(** The score after the violations are known: all quantities are integers
    below 2^53. *)
Definition violationScore (cookies requests : Z) : Z :=
  if (0 <? cookies) || (0 <? requests)
  then Z.max 0 (100 - (cookies * 15 + requests * 10))
  else 100.

(** [checkPreConsentViolations(cookies, networkRequests, htmlContent,
    startTime, endTime)].  A throw inside the [try] leaves [found] and
    [violations] as they were initialised, keeps what the request loop had
    appended to [trackingServices], and sets the score to 50. *)
Definition checkPreConsentViolations (cookies : list Cookie)
  (networkRequests : list NetworkRequest) (htmlContent : string)
  (startTime endTime : Z) : CheckResult :=
  let totalCookies := Z.of_nat (List.length cookies) in
  match filter_try isProblematic cookies with
  | inl _ =>
      {| found := Some false; score := Some (num_of_Z 50); error := None;
         evidence := PreConsent [] totalCookies [] |}
  | inr problematicCookies =>
      match forEach_try scanRequest networkRequests
                        {| scan_requests := []; scan_services := [] |} with
      | (scan, Some _) =>
          {| found := Some false; score := Some (num_of_Z 50); error := None;
             evidence := PreConsent [] totalCookies (scan_services scan) |}
      | (scan, None) =>
          let trackingRequests := scan_requests scan in
          let nCookies := Z.of_nat (List.length problematicCookies) in
          let nRequests := Z.of_nat (List.length trackingRequests) in
          let violations :=
            ((if 0 <? nCookies then [cookieViolation problematicCookies] else [])
             ++ (if 0 <? nRequests then [requestViolation trackingRequests] else []))%list in
          {| found := Some ((0 <? nCookies) || (0 <? nRequests));
             score := Some (num_of_Z (violationScore nCookies nRequests));
             error := None;
             evidence := PreConsent violations totalCookies (scan_services scan) |}
      end
  end.

(* ===================================================================== *)
(** * Score and recommendations *)
(* ===================================================================== *)

(** The doubles nearest to 0.2, 0.15, 0.1 and 0.25. *)
Definition w_0_2 : number := S754_finite false 7205759403792794 (-55).
Definition w_0_15 : number := S754_finite false 5404319552844595 (-55).
Definition w_0_1 : number := S754_finite false 7205759403792794 (-56).
Definition w_0_25 : number := S754_finite false 4503599627370496 (-54).

(** [Object.entries(weights)] *)
Definition weights : list (string * number) :=
  [ ("cookieBanner", w_0_2);
    ("privacyPolicy", w_0_2);
    ("cookiePolicy", w_0_15);
    ("contactInfo", w_0_1);
    ("cookies", w_0_1);
    ("preConsentViolations", w_0_25) ].

(** The body of the loop of [calculateScore]. *)
Definition addWeighted (checks : gmap string CheckResult) (totalScore : number)
  (entry : string * number) : number :=
  let '(key, weight) := entry in
  match checks !! key with
  | Some check =>
      match score check with
      | Some s => add totalScore (mul s weight)
      | None => totalScore
      end
  | None => totalScore
  end.

Definition calculateScore (checks : gmap string CheckResult) : number :=
  Math_round (fold_left (addWeighted checks) weights (num_of_Z 0)).

(** [checks[key]?.found], as a condition. *)
Definition foundIn (checks : gmap string CheckResult) (key : string) : bool :=
  match checks !! key with
  | Some check => default false (found check)
  | None => false
  end.

(** The body of the loop over the violations.  The recommendations are
    pushed onto an array that outlives the [try]: what was pushed before a
    throw stays. *)
Definition violationRecommendation (violation : Violation)
  (recommendations : list Recommendation) : list Recommendation * option exn :=
  let cookiesStep :=
    if String.eqb (v_type violation) "pre-consent-cookies" then
      match details_length (v_details violation) with
      | inr n =>
          (push recommendations
                {| priority := "CRITICAL";
                   message := "KRITICKÉ: " +:+ pretty n
                              +:+ " cookies sa nastavuje pred súhlasom používateľa. Toto je závažné porušenie GDPR!" |},
           None)
      | inl e => (recommendations, Some e)
      end
    else (recommendations, None) in
  match cookiesStep with
  | (recommendations1, None) =>
      (if String.eqb (v_type violation) "tracking-requests"
       then push recommendations1
                 {| priority := "CRITICAL";
                    message := "KRITICKÉ: Tracking služby sa spúšťajú automaticky bez súhlasu!" |}
       else recommendations1,
       None)
  | (recommendations1, Some e) => (recommendations1, Some e)
  end.

(** The first block of [generateRecommendations]: what it has pushed, and
    the exception if it threw.  Iterating [violations] throws when the
    result has none. *)
Definition criticalBlock (checks : gmap string CheckResult)
  : list Recommendation * option exn :=
  if foundIn checks "preConsentViolations" then
    match evidence <$> checks !! "preConsentViolations" with
    | Some (PreConsent violations _ _) =>
        forEach_try violationRecommendation violations []
    | _ => ([], Some "checks.preConsentViolations.violations is not iterable")
    end
  else ([], None).

(** What the first block pushes when it does not throw. *)
Definition criticalRecommendations (checks : gmap string CheckResult)
  : Try (list Recommendation) :=
  match criticalBlock checks with
  | (critical, None) => inr critical
  | (_, Some e) => inl e
  end.

Definition cookieCount (checks : gmap string CheckResult) : option Z :=
  match evidence <$> checks !! "cookies" with
  | Some (CookieList count _) => Some count
  | _ => None
  end.

Definition generateRecommendations (checks : gmap string CheckResult)
  : list Recommendation :=
  match criticalBlock checks with
  | (pushed, Some _) =>
      push pushed {| priority := "ERROR"; message := "Chyba pri generovaní odporúčaní" |}
  | (critical, None) =>
      (critical
       ++ (if foundIn checks "cookieBanner" then []
           else [ {| priority := "HIGH";
                     message := "Pridajte cookie banner s možnosťou súhlasu/odmietnutia cookies" |} ])
       ++ (if foundIn checks "privacyPolicy" then []
           else [ {| priority := "HIGH";
                     message := "Vytvorte a zverejnite zásady ochrany osobných údajov" |} ])
       ++ (if foundIn checks "cookiePolicy" then []
           else [ {| priority := "MEDIUM";
                     message := "Pridajte zásady používania cookies" |} ])
       ++ (if foundIn checks "contactInfo" then []
           else [ {| priority := "MEDIUM";
                     message := "Zverejnite kontaktné údaje správcu údajov" |} ])
       ++ (if match cookieCount checks with Some count => 10 <? count | None => false end
           then [ {| priority := "MEDIUM";
                     message := "Zvážte zníženie počtu cookies na minimum potrebné" |} ]
           else []))%list
  end.

(* ===================================================================== *)
(** * The browser session and the outside world *)
(* ===================================================================== *)

(** What persists between the steps of an audit and between audits: the
    browser handle of the checker, the pages of that browser, and the
    timers and TLS connections the checker has started. *)
Record Session := {
  browser : bool;              (* [this.browser] is set *)
  openPages : gset nat;        (* pages of the browser that are not closed *)
  pagesCreated : nat;          (* pages created so far; the next page's id *)
  attemptsLogged : list nat;   (* "Starting URL check ... (attempt n)" lines *)
  delays : list Z;             (* [this.delay(ms)] calls *)
  waits : list Z;              (* [this.waitForDelay(page, ms)] calls *)
  connections : list string    (* hosts of the [tls.connect] calls *)
}.

(** A step that reads and updates the session and returns or throws. *)
Definition Op (A : Type) : Type := Session -> Try A * Session.

#[global] Instance Op_ret : MRet Op := fun A x σ => (inr x, σ).
#[global] Instance Op_bind : MBind Op := fun A B f m σ =>
  match m σ with
  | (inl e, σ') => (inl e, σ')
  | (inr x, σ') => f x σ'
  end.

Definition raise {A} (e : exn) : Op A := fun σ => (inl e, σ).
Definition lift {A} (t : Try A) : Op A := fun σ => (t, σ).
Definition modify (f : Session -> Session) : Op unit := fun σ => (inr tt, f σ).
Definition gets {A} (f : Session -> A) : Op A := fun σ => (inr (f σ), σ).

Definition setBrowser (σ : Session) : Session :=
  {| browser := true; openPages := openPages σ; pagesCreated := pagesCreated σ;
     attemptsLogged := attemptsLogged σ; delays := delays σ; waits := waits σ;
     connections := connections σ |}.

Definition addPage (σ : Session) : Session :=
  {| browser := browser σ; openPages := {[ pagesCreated σ ]} ∪ openPages σ;
     pagesCreated := S (pagesCreated σ);
     attemptsLogged := attemptsLogged σ; delays := delays σ; waits := waits σ;
     connections := connections σ |}.

Definition logAttempt (n : nat) (σ : Session) : Session :=
  {| browser := browser σ; openPages := openPages σ; pagesCreated := pagesCreated σ;
     attemptsLogged := push (attemptsLogged σ) n; delays := delays σ;
     waits := waits σ; connections := connections σ |}.

Definition addDelay (ms : Z) (σ : Session) : Session :=
  {| browser := browser σ; openPages := openPages σ; pagesCreated := pagesCreated σ;
     attemptsLogged := attemptsLogged σ; delays := push (delays σ) ms;
     waits := waits σ; connections := connections σ |}.

Definition addWait (ms : Z) (σ : Session) : Session :=
  {| browser := browser σ; openPages := openPages σ; pagesCreated := pagesCreated σ;
     attemptsLogged := attemptsLogged σ; delays := delays σ;
     waits := push (waits σ) ms; connections := connections σ |}.

Definition addConnection (host : string) (σ : Session) : Session :=
  {| browser := browser σ; openPages := openPages σ; pagesCreated := pagesCreated σ;
     attemptsLogged := attemptsLogged σ; delays := delays σ; waits := waits σ;
     connections := push (connections σ) host |}.

(** [new URL(url)] *)
Record URL := { protocol : string; hostname : string }.

Inductive Navigation :=
| GotoThrows (message : string)
| GotoNull
| GotoResponse (status : Z) (statusText : string).

(** [new Date(cert.valid_to)]: its time value ([None] for an invalid date)
    and its [toLocaleDateString()]. *)
Record CertDate := { cert_time : option Z; cert_locale : string }.

(** The peer certificate; [valid_to] is [None] when the property is absent
    or empty. *)
Record Certificate := { valid_to : option CertDate }.

(** What the socket of [tls.connect] reports: the connection callback with
    the peer certificate (an object, empty when the peer sent none), or an
    error event. *)
Inductive TlsOutcome :=
| SecureConnect (authorized : bool) (cert : Certificate)
| SocketError (message : string).

(** What the browser, the page, the network and the clock do during one
    attempt. *)
Record Attempt := {
  launch : Try unit;                    (* [puppeteer.launch], when no browser runs *)
  newPage : Try unit;                   (* [browser.newPage()] *)
  configure : Try unit;                 (* timeouts, user agent, viewport *)
  startTime : Z;                        (* [Date.now()] before the navigation *)
  goto : Navigation;                    (* [page.goto(url, ...)] *)
  afterLoadTime : Z;                    (* [Date.now()] after it *)
  resultsTimestamp : string;            (* [new Date().toISOString()] *)
  requestsAtLoad : list NetworkRequest; (* [networkRequests] when [debug] is built *)
  requestsLater : list NetworkRequest;  (* appended by the listener after that *)
  content : Try string;                 (* [page.content()] *)
  document : Dom;                       (* [cheerio.load(content)] *)
  cookiesBeforeConsent : Try (list Cookie);  (* [page.cookies()] in [checkUrl] *)
  cookiesForCount : Try (list Cookie);       (* [page.cookies()] in [checkCookies] *)
  tls : TlsOutcome;
  now : Z;                              (* [new Date()] in the TLS callback *)
  errorTimestamp : string               (* [new Date().toISOString()] in [catch] *)
}.

Record World := {
  parseURL : string -> Try URL;
  attempts : nat -> Attempt
}.

(* ===================================================================== *)
(** * The certificate check *)
(* ===================================================================== *)

Definition sslResult (valid : bool) (details : string) : CheckResult :=
  {| found := None; score := None; error := None; evidence := SslStatus valid details |}.

Definition connect (host : string) : Op unit := modify (addConnection host).

(** The callback of [tls.connect]. *)
Definition onSecureConnect (cert : Certificate) (now : Z) : CheckResult :=
  match valid_to cert with
  | Some expiry =>
      let valid := match cert_time expiry with
                   | Some t => now <? t
                   | None => false
                   end in
      sslResult valid (if valid then "Platný do " +:+ cert_locale expiry
                       else "Certifikát expiroval " +:+ cert_locale expiry)
  | None => sslResult false "Certifikát nebol nájdený alebo je neplatný."
  end.

(** [checkSSL(url)] *)
Definition checkSSL (W : World) (a : Attempt) (url : string) : Op CheckResult :=
  match parseURL W url with
  | inl err => mret (sslResult false ("Výnimka pri kontrole SSL: " +:+ err))
  | inr parsedUrl =>
      if negb (String.eqb (protocol parsedUrl) "https:") then
        mret (sslResult false "Stránka nepoužíva HTTPS protokol.")
      else
        _ ← connect (hostname parsedUrl);
        match tls a with
        | SecureConnect _ cert => mret (onSecureConnect cert (now a))
        | SocketError message =>
            mret (sslResult false ("Chyba pri kontrole SSL: " +:+ message))
        end
  end.

(* ===================================================================== *)
(** * The orchestrator *)
(* ===================================================================== *)

Definition maxRetries : nat := 2.

(** [initBrowser()]: the browser is launched once and kept. *)
Definition initBrowser (a : Attempt) : Op unit := fun σ =>
  if browser σ then (inr tt, σ)
  else match launch a with
       | inr _ => (inr tt, setBrowser σ)
       | inl e => (inl ("Browser initialization failed: " +:+ e), σ)
       end.

(** [waitForDelay(page, ms)] and [delay(ms)] *)
Definition waitForDelay (ms : Z) : Op unit := modify (addWait ms).
Definition delay (ms : Z) : Op unit := modify (addDelay ms).

(** [page.isClosed()] *)
Definition isClosed (page : nat) : Op bool :=
  gets (fun σ => negb (bool_decide (page ∈ openPages σ))).

(** The block the source runs where a page would be closed, at the end of
    the [try] and in the [catch]: it tests the page twice and closes
    nothing. *)
Definition pageCleanup (page : option nat) : Op unit :=
  match page with
  | Some p =>
      closed ← isClosed p;
      if negb closed then
        closedNow ← isClosed p;
        if closedNow : bool then raise "Page is closed unexpectedly" else mret tt
      else mret tt
  | None => mret tt
  end.

(** The first part of the [try] block, up to the assignment of [page]. *)
Definition openPage (W : World) (url : string) (retryCount : nat) : Op nat :=
  let a := attempts W retryCount in
  _ ← modify (logAttempt (retryCount + 1));
  urlObj ← lift (parseURL W url);
  _ ← (if existsb (String.eqb (protocol urlObj)) ["http:"; "https:"]
       then mret tt
       else raise "Only HTTP and HTTPS URLs are supported");
  _ ← initBrowser a;
  _ ← lift (newPage a);
  page ← gets pagesCreated;
  _ ← modify addPage;
  mret page.

(** [page.goto] and the tests on its response. *)
Definition navigate (a : Attempt) : Op unit :=
  match goto a with
  | GotoThrows message => raise message
  | GotoNull => raise "No response received from the page"
  | GotoResponse status statusText =>
      if 400 <=? status
      then raise ("HTTP " +:+ pretty status +:+ ": " +:+ statusText)
      else mret tt
  end.

(** [try { results.checks.x = await detector } catch (error) { fallback }] *)
Definition guarded (detector : Try CheckResult) (fallback : exn -> CheckResult)
  : CheckResult :=
  match detector with
  | inr result => result
  | inl e => fallback e
  end.

Definition dimensionFallback (e : exn) : CheckResult :=
  {| found := Some false; score := Some (num_of_Z 0); error := Some e;
     evidence := NoEvidence |}.

Definition cookiesFallback (e : exn) : CheckResult :=
  {| found := None; score := Some (num_of_Z 0); error := Some e;
     evidence := CookieList 0 None |}.

Definition preConsentFallback (e : exn) : CheckResult :=
  {| found := Some false; score := Some (num_of_Z 50); error := Some e;
     evidence := NoEvidence |}.

Definition trackingServicesOf (c : CheckResult) : list TrackingService :=
  match evidence c with
  | PreConsent _ _ services => services
  | _ => []
  end.

(** The [results] object once the seven checks have run.  The six content
    and telemetry detectors have no effect on the session; the certificate
    check has, and its result is passed in. *)
Definition buildResults (url : string) (retryCount : nat) (a : Attempt)
  (html : string) (preConsentCookies : list Cookie) (ssl : CheckResult) : Report :=
  let dom := document a in
  let cookieBanner := guarded (mret (checkCookieBanner dom)) dimensionFallback in
  let privacyPolicy := guarded (mret (checkPrivacyPolicy dom)) dimensionFallback in
  let cookiePolicy := guarded (mret (checkCookiePolicy dom)) dimensionFallback in
  let contactInfo := guarded (mret (checkContactInfo dom)) dimensionFallback in
  let cookies := guarded (mret (checkCookies (cookiesForCount a))) cookiesFallback in
  let violationCheck : Try CheckResult :=
    mret (checkPreConsentViolations preConsentCookies
            (requestsAtLoad a ++ requestsLater a)%list html
            (startTime a) (afterLoadTime a)) in
  let preConsentViolations := guarded violationCheck preConsentFallback in
  let checks : gmap string CheckResult :=
    <["preConsentViolations" := preConsentViolations]>
    (<["cookies" := cookies]>
    (<["ssl" := ssl]>
    (<["contactInfo" := contactInfo]>
    (<["cookiePolicy" := cookiePolicy]>
    (<["privacyPolicy" := privacyPolicy]>
    (<["cookieBanner" := cookieBanner]> ∅)))))) in
  {| report_url := url;
     report_timestamp := resultsTimestamp a;
     report_error := None;
     checks := checks;
     report_score := calculateScore checks;
     recommendations := generateRecommendations checks;
     thirdPartyServices :=
       match violationCheck with
       | inr result => Some (trackingServicesOf result)
       | inl _ => None
       end;
     debug := {| loadTime := Some (afterLoadTime a - startTime a);
                 networkRequests := Some (Z.of_nat (List.length (requestsAtLoad a)));
                 retryCount := retryCount;
                 failed := false;
                 debug_error := None |} |}.

(** [try { results.checks.ssl = await this.checkSSL(url) } catch (error)
    { results.checks.ssl = { valid: false, details: error.message } }] *)
Definition guardedSSL (W : World) (a : Attempt) (url : string) : Op CheckResult :=
  fun σ => match checkSSL W a url σ with
           | (inr result, σ') => (inr result, σ')
           | (inl e, σ') => (inr (sslResult false e), σ')
           end.

(** The rest of the [try] block: navigation, settle delay, page content and
    cookies, the checks, and the test on the page before [return]. *)
Definition auditPage (W : World) (url : string) (retryCount : nat) (page : nat)
  : Op Report :=
  let a := attempts W retryCount in
  _ ← lift (configure a);
  _ ← navigate a;
  _ ← waitForDelay 3000;
  html ← lift (content a);
  preConsentCookies ← lift (cookiesBeforeConsent a);
  ssl ← guardedSSL W a url;
  _ ← pageCleanup (Some page);
  mret (buildResults url retryCount a html preConsentCookies ssl).

(** The [try] block as a whole: a report, or the thrown message together
    with the value of [page] at the throw. *)
Definition attemptUrl (W : World) (url : string) (retryCount : nat) (σ : Session)
  : (option nat * exn + Report) * Session :=
  match openPage W url retryCount σ with
  | (inl e, σ1) => (inl (None, e), σ1)
  | (inr page, σ1) =>
      match auditPage W url retryCount page σ1 with
      | (inl e, σ2) => (inl (Some page, e), σ2)
      | (inr results, σ2) => (inr results, σ2)
      end
  end.

(** The object returned when the retries are used up. *)
Definition errorReport (W : World) (url : string) (retryCount : nat) (e : exn)
  : Report :=
  {| report_url := url;
     report_timestamp := errorTimestamp (attempts W retryCount);
     report_error := Some e;
     checks := ∅;
     report_score := num_of_Z 0;
     recommendations :=
       [ {| priority := "ERROR"; message := "Chyba pri kontrole: " +:+ e |} ];
     thirdPartyServices := None;
     debug := {| loadTime := None; networkRequests := None;
                 retryCount := retryCount; failed := true;
                 debug_error := Some e |} |}.

(** The [catch] block before the retry test: the cleanup, whose own throw
    is caught and logged. *)
Definition catchCleanup (page : option nat) (σ : Session) : Session :=
  snd (pageCleanup page σ).

(** [checkUrl(url, retryCount)].  The recursion of the source goes up in
    [retryCount]; [fuel] bounds it, and [None] is the model running out of
    fuel, not a behaviour of the program. *)
Fixpoint checkUrl_fuel (fuel : nat) (W : World) (url : string) (retryCount : nat)
  (σ : Session) : option (Report * Session) :=
  match attemptUrl W url retryCount σ with
  | (inr results, σ1) => Some (results, σ1)
  | (inl (page, e), σ1) =>
      let σ2 := catchCleanup page σ1 in
      if (retryCount <? maxRetries)%nat then
        match fuel with
        | S fuel' =>
            checkUrl_fuel fuel' W url (S retryCount)
              (snd (delay (3000 * (Z.of_nat retryCount + 1)) σ2))
        | O => None
        end
      else Some (errorReport W url retryCount e, σ2)
  end.

Definition checkUrl (W : World) (url : string) (retryCount : nat) (σ : Session)
  : option (Report * Session) :=
  checkUrl_fuel (maxRetries - retryCount) W url retryCount σ.

(* ===================================================================== *)
(** * Shutdown and the HTTP boundary *)
(* ===================================================================== *)

Definition unsetBrowser (pagesClosed : bool) (σ : Session) : Session :=
  {| browser := false;
     openPages := if pagesClosed then ∅ else openPages σ;
     pagesCreated := pagesCreated σ;
     attemptsLogged := attemptsLogged σ; delays := delays σ; waits := waits σ;
     connections := connections σ |}.

(** [close()].  The argument is what [browser.close()] does: it closes the
    browser with all its pages, or throws; the throw is caught and logged, and
    [this.browser] is set to null in both cases. *)
Definition close (browserClose : Try unit) : Op unit := fun σ =>
  if browser σ then
    match browserClose with
    | inr _ => (inr tt, unsetBrowser true σ)
    | inl _ => (inr tt, unsetBrowser false σ)
    end
  else (inr tt, σ).

(** What the handler of POST /api/check sends: [res.status(n).json(body)],
    the status being 200 when the handler does not set it. *)
Inductive ResponseBody :=
| CheckData (data : Report)                  (* { success: true, data } *)
| RequestError (error code : string).        (* { error, code } *)

Record Response := { res_status : Z; res_body : ResponseBody }.

(** The handler of POST /api/check, for a request whose parsed body is an
    object; [bodyUrl] is its [url] property, [None] when absent.  The [catch]
    of the handler is entered only when the awaited [checkUrl] rejects; as
    for [checkUrl], [None] is the model out of fuel. *)
Definition apiCheck (W : World) (bodyUrl : option string) (σ : Session)
  : option (Response * Session) :=
  let url := default "" bodyUrl in
  if String.eqb url "" then
    Some ({| res_status := 400;
             res_body := RequestError "URL je povinná" "MISSING_URL" |}, σ)
  else
    let valid :=
      match parseURL W url with
      | inr urlObj => existsb (String.eqb (protocol urlObj)) ["http:"; "https:"]
      | inl _ => false
      end in
    if valid then
      match checkUrl W url 0 σ with
      | Some (results, σ') =>
          Some ({| res_status := 200; res_body := CheckData results |}, σ')
      | None => None
      end
    else
      Some ({| res_status := 400;
               res_body := RequestError
                 "Neplatná URL. Použite formát: https://example.com" "INVALID_URL" |}, σ).

(* ===================================================================== *)
(** * Definitions used in the statements *)
(* ===================================================================== *)


(** The cookies the filter keeps when it does not throw. *)
Definition nonEssential (cookies : list Cookie) : list Cookie :=
  List.filter (fun c => match isEssential c with inr false => true | _ => false end)
              cookies.

Definition hits (request : NetworkRequest) (service : Service) : bool :=
  match matchesService request service with inr true => true | _ => false end.

(** The matches of the captured requests with the tracking services: one
    for each request and each service with a pattern in the request's URL. *)
Definition trackingMatches (requests : list NetworkRequest)
  : list (NetworkRequest * Service) :=
  flat_map (fun r => map (pair r) (List.filter (hits r) (map snd TRACKING_SERVICES)))
           requests.

(** The captured requests that match at least one tracking service. *)
Definition trackingRequestsCaptured (requests : list NetworkRequest)
  : list NetworkRequest :=
  List.filter (fun r => existsb (hits r) (map snd TRACKING_SERVICES)) requests.

(** Reading a cookie name or a request URL throws. *)
Definition cookieThrows (c : Cookie) : bool :=
  match isEssential c with inl _ => true | inr _ => false end.

Definition requestThrows (r : NetworkRequest) : bool :=
  existsb (fun s => match matchesService r s with inl _ => true | inr _ => false end)
          (map snd TRACKING_SERVICES).

Definition violationCheckThrows (cookies : list Cookie)
  (requests : list NetworkRequest) : bool :=
  existsb cookieThrows cookies || existsb requestThrows requests.

(** The score the cookie and request counts would give if each captured
    tracking request were charged once, whatever the number of services
    its URL matches. *)
Definition scorePerRequest (cookies : list Cookie) (requests : list NetworkRequest)
  : Z :=
  Z.max 0 (100 - 15 * Z.of_nat (List.length (nonEssential cookies))
               - 10 * Z.of_nat (List.length (trackingRequestsCaptured requests))).

Definition namedCookie (n : string) : Cookie :=
  {| name := JStr n; domain := JStr "shop.example"; secure := JBool false;
     httpOnly := JBool false; sameSite := JUndefined |}.

(** A request of the Facebook pixel that carries the page address, with the
    linker parameter of Google Analytics in it. *)
Definition pixelRequest : NetworkRequest :=
  {| url := JStr "https://www.facebook.com/tr?id=1&ev=PageView&dl=https://shop.example/?_ga=2.1";
     type := JStr "image";
     timestamp := 0 |}.

(** An element counts for [checkCookieBanner] when its lowercased text is
    longer than 10 characters. *)
Definition longText (el : Element) : bool :=
  10 <? JsString.length (JsString.toLowerCase (el_text el)).

(** The same test on the trimmed text. *)
Definition longTrimmedText (el : Element) : bool :=
  10 <? JsString.length (JsString.trim (el_text el)).

Definition selectorMatches (test : Element -> bool) (dom : Dom) (selector : string)
  : bool :=
  match select dom selector with
  | inr elements => existsb test elements
  | inl _ => false
  end.

Definition keywordInBody (body : list Element) : bool :=
  existsb (fun keyword =>
             JsString.includes (JsString.toLowerCase (selection_text body))
                               (JsString.toLowerCase keyword))
          GDPR_CHECKS.cookieBanner.keywords.

(** The condition of the specification: an element with more than 10
    characters of trimmed text under a configured selector, or a keyword in
    the body text. *)
Definition bannerExpectedTrimmed (dom : Dom) (body : list Element) : bool :=
  existsb (selectorMatches longTrimmedText dom) GDPR_CHECKS.cookieBanner.selectors
  || keywordInBody body.

(** A page whose only candidate is an overlay of eleven spaces. *)
Definition blankOverlay : Element :=
  {| el_text := "           "; el_href := None |}.

Definition blankOverlayPage : Dom :=
  {| select := fun selector =>
       if String.eqb selector (attr "class" "*=" "cookie") then inr [blankOverlay]
       else if String.eqb selector "body" then inr [blankOverlay]
       else inr [] |}.

(** The runs of [checkUrl] as a relation: an attempt succeeds; or it fails
    and is retried after the delay; or it fails with no retry left. *)
Inductive Run (W : World) (url : string)
  : nat -> Session -> Report -> Session -> Prop :=
| RunSuccess retryCount σ results σ1 :
    attemptUrl W url retryCount σ = (inr results, σ1) ->
    Run W url retryCount σ results σ1
| RunRetry retryCount σ page e σ1 report σ' :
    attemptUrl W url retryCount σ = (inl (page, e), σ1) ->
    (retryCount < maxRetries)%nat ->
    Run W url (S retryCount) (addDelay (3000 * (Z.of_nat retryCount + 1)) σ1) report σ' ->
    Run W url retryCount σ report σ'
| RunExhausted retryCount σ page e σ1 :
    attemptUrl W url retryCount σ = (inl (page, e), σ1) ->
    ~ (retryCount < maxRetries)%nat ->
    Run W url retryCount σ (errorReport W url retryCount e) σ1.

(** What the steps of an attempt leave alone: the retry delays and the
    attempt log are not touched, and no page is closed. *)
Definition quiet (σ σ' : Session) : Prop :=
  delays σ' = delays σ
  /\ attemptsLogged σ' = attemptsLogged σ
  /\ openPages σ ⊆ openPages σ'.

Definition respects {A} (R : Session -> Session -> Prop) (m : Op A) : Prop :=
  forall σ, R σ (snd (m σ)).

(** The sessions and worlds used as concrete inputs. *)
Definition initial : Session :=
  {| browser := false; openPages := ∅; pagesCreated := 0; attemptsLogged := [];
     delays := []; waits := []; connections := [] |}.

(** The part of [s] after the prefix [p], if [s] starts with [p]. *)
Fixpoint afterPrefix (p s : string) {struct p} : option string :=
  match p, s with
  | EmptyString, _ => Some s
  | String a p', String b s' => if Ascii.eqb a b then afterPrefix p' s' else None
  | String _ _, EmptyString => None
  end.

(** The scheme of an address and what follows the two slashes. *)
Fixpoint splitScheme (s : string) : option (string * string) :=
  match s with
  | EmptyString => None
  | String c s' =>
      if Ascii.eqb c ":"%char
      then match afterPrefix "//" s' with
           | Some rest => Some (EmptyString, rest)
           | None => None
           end
      else match splitScheme s' with
           | Some (scheme, rest) => Some (String c scheme, rest)
           | None => None
           end
  end.

(** The host of an authority: what precedes the port, the path, the query
    and the fragment. *)
Fixpoint hostOf (s : string) : string :=
  match s with
  | EmptyString => EmptyString
  | String c s' =>
      if existsb (Ascii.eqb c) ["/"; ":"; "?"; "#"]%char then EmptyString
      else String c (hostOf s')
  end.

(** A URL parser for addresses of the form scheme://host:port/path written
    in lower case, the port and the path being optional. *)
Definition parseSimple (address : string) : Try URL :=
  match splitScheme address with
  | Some (String c scheme, rest) =>
      inr {| protocol := String c scheme +:+ ":"; hostname := hostOf rest |}
  | _ => inl "Invalid URL"
  end.

Definition shopPage : Dom :=
  {| select := fun selector =>
       if String.eqb selector "body"
       then inr [ {| el_text := "Welcome to the shop. Privacy Contact"; el_href := None |} ]
       else if String.eqb selector "a"
       then inr [ {| el_text := "Privacy"; el_href := Some "/privacy-policy" |};
                  {| el_text := "Contact"; el_href := Some "mailto:info@shop.example" |} ]
       else if String.eqb selector ("a" +:+ attr "href" "^=" "mailto:")
       then inr [ {| el_text := "Contact"; el_href := Some "mailto:info@shop.example" |} ]
       else inr [] |}.

(** An attempt in which the page loads. *)
Definition loads : Attempt :=
  {| launch := inr tt; newPage := inr tt; configure := inr tt;
     startTime := 1000; goto := GotoResponse 200 "OK"; afterLoadTime := 1850;
     resultsTimestamp := "2024-05-01T10:00:04.000Z";
     requestsAtLoad := [ {| url := JStr "https://shop.example/"; type := JStr "document";
                            timestamp := 1001 |} ];
     requestsLater := [];
     content := inr "<html></html>";
     document := shopPage;
     cookiesBeforeConsent := inr [namedCookie "session_id"];
     cookiesForCount := inr [namedCookie "session_id"];
     tls := SecureConnect true
              {| valid_to := Some {| cert_time := Some 2000000; cert_locale := "1/1/2030" |} |};
     now := 5000;
     errorTimestamp := "2024-05-01T10:00:05.000Z" |}.

(** An attempt in which the navigation fails. *)
Definition refused : Attempt :=
  {| launch := inr tt; newPage := inr tt; configure := inr tt;
     startTime := 1000; goto := GotoThrows "net::ERR_CONNECTION_REFUSED";
     afterLoadTime := 1000;
     resultsTimestamp := "";
     requestsAtLoad := []; requestsLater := [];
     content := inr ""; document := {| select := fun _ => inr [] |};
     cookiesBeforeConsent := inr []; cookiesForCount := inr [];
     tls := SocketError "connect ECONNREFUSED";
     now := 5000;
     errorTimestamp := "2024-05-01T10:00:05.000Z" |}.

Definition steadyWorld : World :=
  {| parseURL := parseSimple; attempts := fun _ => loads |}.

Definition flakyWorld : World :=
  {| parseURL := parseSimple;
     attempts := fun retryCount => if (retryCount <? 2)%nat then refused else loads |}.

Definition deadWorld : World :=
  {| parseURL := parseSimple; attempts := fun _ => refused |}.

(** The six dimensions of the score, and the key of the certificate check. *)
Definition sixDimensions : gset string :=
  {[ "cookieBanner"; "privacyPolicy"; "cookiePolicy"; "contactInfo"; "cookies";
     "preConsentViolations" ]}.

(** The retry delays of the attempts [first], [first + 1], ..., as the
    source computes them. *)
Definition backoff (first count : nat) : list Z :=
  map (fun retryCount => 3000 * (Z.of_nat retryCount + 1)) (seq first count).

(** Three failed attempts in a row, from [σ] to [σ3]. *)
Definition failsThrice (W : World) (address : string) (σ σ3 : Session) (e2 : exn)
  : Prop :=
  exists page0 e0 σ1 page1 e1 σ2 page2,
    attemptUrl W address 0 σ = (inl (page0, e0), σ1)
    /\ attemptUrl W address 1 (addDelay 3000 σ1) = (inl (page1, e1), σ2)
    /\ attemptUrl W address 2 (addDelay 6000 σ2) = (inl (page2, e2), σ3).

(** Two failed attempts, then one that returns [results]. *)
Definition succeedsThird (W : World) (address : string) (σ σ3 : Session)
  (results : Report) : Prop :=
  exists page0 e0 σ1 page1 e1 σ2,
    attemptUrl W address 0 σ = (inl (page0, e0), σ1)
    /\ attemptUrl W address 1 (addDelay 3000 σ1) = (inl (page1, e1), σ2)
    /\ attemptUrl W address 2 (addDelay 6000 σ2) = (inr results, σ3).

(** The value m * 2^e is at most the integer B. *)
Definition below (B : Z) (m : Z) (e : Z) : Prop :=
  m * 2 ^ Z.max e 0 <= B * 2 ^ Z.max (- e) 0.

Inductive Total (B : Z) : number -> Prop :=
| TotalZero : Total B (S754_zero false)
| TotalFinite m e : below B (Zpos m) e -> Total B (S754_finite false m e).

(** [b] is [a] shifted right by [k] bits; when no bit is lost and [a] was
    exact, [b] is exact. *)
Definition shifted (k : Z) (a b : shr_record) : Prop :=
  shr_m b = shr_m a / 2 ^ k
  /\ (shr_m a mod 2 ^ k = 0 -> shr_r a = false -> shr_s a = false ->
      shr_r b = false /\ shr_s b = false).

Inductive Product (B : Z) : number -> Prop :=
| ProductZero s : Product B (S754_zero s)
| ProductFinite m e : below B (Zpos m) e -> Product B (S754_finite false m e).

(** A score in the range of the claim: a double [x] with 0 <= x <= 100. *)
Definition inRange (x : number) : Prop :=
  is_double x = true
  /\ JsNumber.leb (num_of_Z 0) x = true
  /\ JsNumber.leb x (num_of_Z 100) = true.

(** What the range proof needs of a weight [w] and of its share [B] of the
    score: 100 * w rounds to at most [B], and every smaller double times [w]
    is at most [B] before rounding. *)
Definition weightShare (w : number) (B : Z) : Prop :=
  exists mw ew,
    w = S754_finite false mw ew
    /\ ew < 0
    /\ 0 <= B < 2 ^ 53
    /\ (7036874417766400 - 1) * Zpos mw <= B * 2 ^ (46 - ew)
    /\ 2 ^ 53 * Zpos mw <= B * 2 ^ (47 - ew)
    /\ Product B (JsNumber.mul (num_of_Z 100) w).

(** The products the loop of [calculateScore] adds, in the order of the
    weights: one for each dimension that is present with a numeric score. *)
Definition contribution (checks : gmap string CheckResult) (entry : string * number)
  : option number :=
  check ← checks !! fst entry;
  s ← score check;
  Some (JsNumber.mul s (snd entry)).

Definition weightedSum (checks : gmap string CheckResult) : number :=
  fold_left JsNumber.add (omap (contribution checks) weights) (num_of_Z 0).

(** A check result that carries a score and nothing else. *)
Definition scored (s : Z) : CheckResult :=
  {| found := None; score := Some (num_of_Z s); error := None; evidence := NoEvidence |}.

Definition exampleChecks : gmap string CheckResult :=
  <["cookieBanner" := scored 100]>
  (<["privacyPolicy" := scored 0]>
  (<["cookiePolicy" := scored 80]>
  (<["contactInfo" := scored 80]>
  (<["cookies" := scored 100]>
  (<["preConsentViolations" := scored 100]> ∅))))).

(** Every score of one of the six weighted dimensions that is present is
    in range; nothing is asked of the other keys of the map. *)
Definition scoresInRange (checks : gmap string CheckResult) : Prop :=
  forall key check x,
    In key (map fst weights) ->
    checks !! key = Some check -> score check = Some x -> inRange x.

(* ===================================================================== *)
(** * Further definitions used in the statements *)
(* ===================================================================== *)


(** A code unit is a 16-bit value. *)
Definition isCodeUnit (u : Z) : Prop := 0 <= u < 65536.

(** Every byte of the string is an ASCII character. *)
Definition asciiOnly (s : string) : bool :=
  forallb (fun c => JsString.byte c <? 128) (list_ascii_of_string s).

(** The no-break space U+00A0, as a string. *)
Definition nbsp : string := JsString.fromCodeUnits [160].

(** White space outside ASCII: U+FEFF, U+00A0, the line and paragraph
    separators U+2028 and U+2029, and the space separators U+1680, U+2000,
    U+200A, U+202F, U+205F and U+3000. *)
Definition unicodeSpaces : string :=
  JsString.fromCodeUnits
    [65279; 160; 8232; 8233; 5760; 8192; 8202; 8239; 8287; 12288].

(** [n] copies of a string, one after the other. *)
Fixpoint repeated (n : nat) (s : string) : string :=
  match n with
  | O => EmptyString
  | S n' => s +:+ repeated n' s
  end.

(** An anchor counts for a policy check when one of the configured link
    texts occurs in its lowercased [href] or in its lowercased text. *)
Definition anchorMatches (links : list string) (el : Element) : bool :=
  existsb (fun link =>
             JsString.includes (JsString.toLowerCase (default "" (el_href el))) link
             || JsString.includes (JsString.toLowerCase (el_text el)) link)
          links.

Definition recordedLink (kind : string) (el : Element) : PolicyLink :=
  {| pl_href := default "" (el_href el);
     pl_text := JsString.trim (el_text el);
     pl_type := kind |}.

(** The word "cookie" occurs in the lowercased [href] or text of the anchor. *)
Definition mentionsCookie (el : Element) : bool :=
  JsString.includes (JsString.toLowerCase (default "" (el_href el))) "cookie"
  || JsString.includes (JsString.toLowerCase (el_text el)) "cookie".

(** The two anchor queries of [checkContactInfo]. *)
Definition mailtoSelector : string := "a" +:+ attr "href" "^=" "mailto:".
Definition telSelector : string := "a" +:+ attr "href" "^=" "tel:".

(** The contact recorded for an anchor: its [href] without the first
    occurrence of the scheme, and its trimmed text. *)
Definition contactOf (kind scheme : string) (el : Element) : Contact :=
  {| ct_type := kind;
     ct_value := JsString.removeFirst (default "" (el_href el)) scheme;
     ct_text := JsString.trim (el_text el) |}.

Definition hasHref (el : Element) : bool :=
  match el_href el with Some _ => true | None => false end.

(** The query returns at least one element. *)
Definition selectsSome (dom : Dom) (selector : string) : bool :=
  match select dom selector with
  | inr (_ :: _) => true
  | _ => false
  end.

Definition nonEmpty {A} (l : list A) : bool :=
  match l with [] => false | _ :: _ => true end.

(** A page on which only the mailto query is answered; every other query
    throws. *)
Definition mailOnlyPage : Dom :=
  {| select := fun selector =>
       if String.eqb selector mailtoSelector
       then inr [ {| el_text := nbsp +:+ "Write to us " +:+ nbsp;
                     el_href := Some "mailto:dpo@shop.example" |} ]
       else inl "Unmatched selector" |}.

(** The order of the priorities: CRITICAL before HIGH before MEDIUM. *)
Definition rank (p : string) : nat :=
  if String.eqb p "CRITICAL" then 0
  else if String.eqb p "HIGH" then 1
  else if String.eqb p "MEDIUM" then 2
  else 3.

(** The five recommendations that do not depend on the violations. *)
Definition addBanner : Recommendation :=
  {| priority := "HIGH";
     message := "Pridajte cookie banner s možnosťou súhlasu/odmietnutia cookies" |}.
Definition addPrivacyPolicy : Recommendation :=
  {| priority := "HIGH";
     message := "Vytvorte a zverejnite zásady ochrany osobných údajov" |}.
Definition addCookiePolicy : Recommendation :=
  {| priority := "MEDIUM"; message := "Pridajte zásady používania cookies" |}.
Definition addContact : Recommendation :=
  {| priority := "MEDIUM"; message := "Zverejnite kontaktné údaje správcu údajov" |}.
Definition reduceCookies : Recommendation :=
  {| priority := "MEDIUM";
     message := "Zvážte zníženie počtu cookies na minimum potrebné" |}.

(** A map of check results as the recommendation engine reads it: the five
    [found] flags, the cookie count, and the violations. *)
Definition checksWith (banner privacy cookiePol contact : bool) (count : Z)
  (violations : list Violation) : gmap string CheckResult :=
  let flag (b : bool) : CheckResult :=
    {| found := Some b; score := None; error := None; evidence := NoEvidence |} in
  <["cookieBanner" := flag banner]>
  (<["privacyPolicy" := flag privacy]>
  (<["cookiePolicy" := flag cookiePol]>
  (<["contactInfo" := flag contact]>
  (<["cookies" := {| found := None; score := None; error := None;
                     evidence := CookieList count None |}]>
  (<["preConsentViolations" :=
       {| found := Some (nonEmpty violations); score := None; error := None;
          evidence := PreConsent violations 0 [] |}]> ∅))))).

(** The score of a check result, when it has one, is the double of an
    integer from 0 to 100. *)
Definition percentScore (check : CheckResult) : Prop :=
  forall x, score check = Some x -> exists k, 0 <= k <= 100 /\ x = num_of_Z k.

(** The value of [results.checks.ssl]: what [checkSSL] resolves to does not
    depend on the session. *)
Definition sslCheck (W : World) (a : Attempt) (address : string) : CheckResult :=
  match fst (checkSSL W a address initial) with
  | inr result => result
  | inl e => sslResult false e
  end.

(** The URL parses and its protocol is https. *)
Definition isHttps (W : World) (address : string) : bool :=
  match parseURL W address with
  | inr parsed => String.eqb (protocol parsed) "https:"
  | inl _ => false
  end.

Definition hostnameOf (W : World) (address : string) : string :=
  match parseURL W address with
  | inr parsed => hostname parsed
  | inl _ => ""
  end.

(** The attempt [a] with another report of the TLS socket. *)
Definition withTls (outcome : TlsOutcome) (a : Attempt) : Attempt :=
  {| launch := launch a; newPage := newPage a; configure := configure a;
     startTime := startTime a; goto := goto a; afterLoadTime := afterLoadTime a;
     resultsTimestamp := resultsTimestamp a;
     requestsAtLoad := requestsAtLoad a; requestsLater := requestsLater a;
     content := content a; document := document a;
     cookiesBeforeConsent := cookiesBeforeConsent a;
     cookiesForCount := cookiesForCount a;
     tls := outcome; now := now a; errorTimestamp := errorTimestamp a |}.

(** A certificate that expires at [time]. *)
Definition expiresAt (time : Z) (locale : string) : Certificate :=
  {| valid_to := Some {| cert_time := Some time; cert_locale := locale |} |}.

(** The entry of [trackingServices] for a service. *)
Definition detected (service : Service) : TrackingService :=
  {| ts_name := service_name service; ts_category := category service;
     ts_detected := true |}.

(** What the request loop maintains of [trackingServices]: no name twice,
    and every entry is the entry of a configured service. *)
Definition servicesDistinct (acc : Scan) : Prop :=
  NoDup (map ts_name (scan_services acc))
  /\ forall t, In t (scan_services acc) ->
               exists entry, In entry TRACKING_SERVICES /\ t = detected (snd entry).

(** The violations of a check result, and its cookie total. *)
Definition violationsOf (c : CheckResult) : list Violation :=
  match evidence c with
  | PreConsent violations _ _ => violations
  | _ => []
  end.

Definition totalCookiesOf (c : CheckResult) : option Z :=
  match evidence c with
  | PreConsent _ total _ => Some total
  | _ => None
  end.

(** The CRITICAL recommendation for cookies set before consent. *)
Definition criticalCookies (count : nat) : Recommendation :=
  {| priority := "CRITICAL";
     message := "KRITICKÉ: " +:+ pretty (Z.of_nat count)
                +:+ " cookies sa nastavuje pred súhlasom používateľa. Toto je závažné porušenie GDPR!" |}.

Definition criticalTracking : Recommendation :=
  {| priority := "CRITICAL";
     message := "KRITICKÉ: Tracking služby sa spúšťajú automaticky bez súhlasu!" |}.

(** The CRITICAL recommendation given for a violation of the violation
    check, whose violations all have details: by the cookies or by the
    requests they list. *)
Definition criticalFor (v : Violation) : Recommendation :=
  match v_details v with
  | CookieDetails kept => criticalCookies (List.length kept)
  | RequestDetails _ => criticalTracking
  | MissingDetails => criticalTracking
  end.

(** The recommendation pushed when generating the recommendations threw. *)
Definition generationError : Recommendation :=
  {| priority := "ERROR"; message := "Chyba pri generovaní odporúčaní" |}.

(** Two violations as the recommendation engine may be given them: tracking
    requests, then cookies before consent whose [details] are missing. *)
Definition trackingThenBroken : list Violation :=
  [ {| v_type := "tracking-requests"; v_severity := "HIGH";
       v_message := "Tracking"; v_details := RequestDetails [] |};
    {| v_type := "pre-consent-cookies"; v_severity := "HIGH";
       v_message := "Cookies"; v_details := MissingDetails |} ].

(** What a stretch of an audit adds to the session: [p] pages, created and
    left open; [w] settle waits of 3000 ms; [c] TLS connections to the host
    of the URL. *)
Definition adds (host : string) (σ σ' : Session) (p w c : nat) : Prop :=
  pagesCreated σ' = (pagesCreated σ + p)%nat
  /\ openPages σ' = openPages σ ∪ set_seq (pagesCreated σ) p
  /\ waits σ' = (waits σ ++ repeat 3000 w)%list
  /\ connections σ' = (connections σ ++ repeat host c)%list.

(** Every open page has an id below the number of pages created: the ids
    of a session that only [checkUrl] and [close] have touched. *)
Definition pagesNumbered (σ : Session) : Prop :=
  forall page, page ∈ openPages σ -> (page < pagesCreated σ)%nat.

(** A session in which pages are open only while a browser runs. *)
Definition pagesOwned (σ : Session) : Prop :=
  browser σ = false -> openPages σ = ∅.

(** The URL passes the validation at the start of [checkUrl], which is also
    that of the HTTP handler. *)
Definition urlAccepted (W : World) (address : string) : bool :=
  match parseURL W address with
  | inr urlObj => existsb (String.eqb (protocol urlObj)) ["http:"; "https:"]
  | inl _ => false
  end.

(** Attempt [k] gets as far as the navigation: the browser can be launched,
    the page created and configured. *)
Definition reachesNavigation (W : World) (address : string) (k : nat) : Prop :=
  urlAccepted W address = true
  /\ launch (attempts W k) = inr tt
  /\ newPage (attempts W k) = inr tt
  /\ configure (attempts W k) = inr tt.

(** A world whose server answers every navigation with 503. *)
Definition unavailable : Attempt :=
  {| launch := inr tt; newPage := inr tt; configure := inr tt;
     startTime := 1000; goto := GotoResponse 503 "Service Unavailable";
     afterLoadTime := 1200;
     resultsTimestamp := "";
     requestsAtLoad := []; requestsLater := [];
     content := inr ""; document := {| select := fun _ => inr [] |};
     cookiesBeforeConsent := inr []; cookiesForCount := inr [];
     tls := SocketError "connect ECONNREFUSED";
     now := 5000;
     errorTimestamp := "2024-05-01T10:00:05.000Z" |}.

Definition unavailableWorld : World :=
  {| parseURL := parseSimple; attempts := fun _ => unavailable |}.

(** What [checkCookieBanner] records for an element. *)
Definition recordedBanner (selector : string) (el : Element) : BannerElement :=
  {| be_selector := selector;
     be_text := JsString.substring0 100 (JsString.toLowerCase (el_text el));
     be_visible := true |}.

Definition bannerElementsOf (c : CheckResult) : list BannerElement :=
  match evidence c with
  | BannerElements elements => elements
  | _ => []
  end.

(** A recorded element comes from an element with a long text under a
    configured selector. *)
Definition bannerOrigin (dom : Dom) (be : BannerElement) : Prop :=
  In (be_selector be) GDPR_CHECKS.cookieBanner.selectors
  /\ exists els el,
       select dom (be_selector be) = inr els /\ In el els /\ longText el = true
       /\ be = recordedBanner (be_selector be) el.

(** The score of the dimension [key], if the checks have one. *)
Definition scoreOf (checks : gmap string CheckResult) (key : string) : option number :=
  checks !! key ≫= score.

(** The number a double holds, as a rational: (-1)^s * m * 2^e.  The zeros
    hold 0; the infinities and NaN hold no number and are given 0. *)
Definition valueOf (x : number) : Q :=
  match x with
  | S754_finite s m e => (inject_Z (cond_Zopp s (Zpos m)) * (2 # 1) ^ e)%Q
  | _ => 0%Q
  end.

(** [n] is the integer nearest to [q], a tie going up:
    n - 1/2 <= q < n + 1/2. *)
Definition nearest (q : Q) (n : Z) : Prop :=
  (inject_Z n - (1 # 2) <= q)%Q /\ (q < inject_Z n + (1 # 2))%Q.

(** The score as the specification words it, in exact arithmetic: the sum
    over the six dimensions of the score times the decimal weight, a
    dimension without a numeric score adding nothing, rounded to the nearest
    integer. *)
Definition decimalWeights : list (string * Q) :=
  [ ("cookieBanner", (20 # 100)%Q);
    ("privacyPolicy", (20 # 100)%Q);
    ("cookiePolicy", (15 # 100)%Q);
    ("contactInfo", (10 # 100)%Q);
    ("cookies", (10 # 100)%Q);
    ("preConsentViolations", (25 # 100)%Q) ].

Definition exactSum (checks : gmap string CheckResult) : Q :=
  fold_left (fun total entry =>
               match scoreOf checks (fst entry) with
               | Some s => (total + valueOf s * snd entry)%Q
               | None => total
               end)
            decimalWeights 0%Q.

Definition exactScore (checks : gmap string CheckResult) : Z :=
  Qfloor (exactSum checks + (1 # 2))%Q.

(** Six scores whose exact weighted sum is 57.5. *)
Definition halfwayChecks : gmap string CheckResult :=
  <["cookieBanner" := scored 100]>
  (<["privacyPolicy" := scored 75]>
  (<["cookiePolicy" := scored 37]>
  (<["contactInfo" := scored 13]>
  (<["cookies" := scored 34]>
  (<["preConsentViolations" := scored 49]> ∅))))).


(** The rule tables without the entries that contain another entry. *)
Definition bannerKeywordsNeeded : list string :=
  [ "cookie"; "súhlas"; "consent"; "gdpr"; "ochrana údajov"; "privacy" ].

Definition privacyLinksNeeded : list string :=
  [ "privacy"; "ochrana-udajov"; "ochrana-osobnych-udajov"; "zasady-ochrany";
    "gdpr"; "osobne-udaje" ].

Definition essentialPatternsNeeded : list string :=
  [ "session"; "csrf"; "xsrf"; "auth"; "login"; "security";
    "lang"; "timezone"; "currency"; "theme"; "wordpress"; "wp-"; "phpsessid" ].

(** [checkCookieBanner] with another list in the place of
    [GDPR_CHECKS.cookieBanner.keywords]. *)
Definition checkCookieBannerWith (keywords : list string) (dom : Dom) : CheckResult :=
  let '(found0, elements) :=
    fold_left (bannerSelector dom) GDPR_CHECKS.cookieBanner.selectors (false, []) in
  match select dom "body" with
  | inr body =>
      let bodyText := JsString.toLowerCase (selection_text body) in
      let found1 :=
        found0 || existsb (fun keyword =>
                             JsString.includes bodyText (JsString.toLowerCase keyword))
                          keywords in
      {| found := Some found1;
         score := Some (num_of_Z (if found1 then 100 else 0));
         error := None;
         evidence := BannerElements elements |}
  | inl _ =>
      {| found := Some found0; score := Some (num_of_Z 0); error := None;
         evidence := BannerElements elements |}
  end.

(** [isEssential] with another list in the place of [essentialPatterns]. *)
Definition isEssentialWith (patterns : list string) (cookie : Cookie) : Try bool :=
  cookieName ← call_toLowerCase (js_or (name cookie) (JStr ""));
  mret (existsb (fun pattern =>
                   JsString.includes cookieName (JsString.toLowerCase pattern))
                patterns).

(* ===================================================================== *)
(** * Facts about strings *)
(* ===================================================================== *)

Section StringFacts.

Import JsString.

Lemma unitsPrefix_spec (p l : list Z) :
  unitsPrefix p l = true <-> exists rest, l = (p ++ rest)%list.
Proof.
  revert l. induction p as [|a p IH]; intros l; cbn [unitsPrefix].
  - split; [intros _; exists l; reflexivity | reflexivity].
  - destruct l as [|b l].
    + split; [discriminate | intros [rest H]; discriminate H].
    + rewrite andb_true_iff, Z.eqb_eq, IH. split.
      * intros [-> [rest ->]]. exists rest. reflexivity.
      * intros [rest H]. cbn [app] in H.
        split; [congruence|]. exists rest. congruence.
Qed.

Lemma unitsOccur_spec (p l : list Z) :
  unitsOccur p l = true <-> exists before after, l = (before ++ p ++ after)%list.
Proof.
  induction l as [|u l IH]; cbn [unitsOccur].
  - rewrite orb_false_r, unitsPrefix_spec. split.
    + intros [rest H]. exists [], rest. exact H.
    + intros [[|b before] [after H]]; [exists after; exact H | discriminate H].
  - rewrite orb_true_iff, unitsPrefix_spec, IH. split.
    + intros [[rest H] | [before [after H]]].
      * exists [], rest. exact H.
      * exists (u :: before), after. cbn [app]. rewrite H. reflexivity.
    + intros [[|b before] [after H]].
      * left. exists after. exact H.
      * right. cbn [app] in H. exists before, after. congruence.
Qed.

(** [startsWith s p] holds exactly when the code units of [s] begin with
    those of [p]. *)
Lemma startsWith_spec (s p : string) :
  startsWith s p = true <-> exists rest, codeUnits s = (codeUnits p ++ rest)%list.
Proof. apply unitsPrefix_spec. Qed.

(** [includes s p] holds exactly when the code units of [p] are a
    contiguous part of those of [s]. *)
Lemma includes_spec (s p : string) :
  includes s p = true <->
  exists before after, codeUnits s = (before ++ codeUnits p ++ after)%list.
Proof. apply unitsOccur_spec. Qed.

(** A part of a part is a part. *)
Lemma includes_trans (s p q : string) :
  includes s p = true -> includes p q = true -> includes s q = true.
Proof.
  intros Hsp Hpq.
  apply includes_spec in Hsp as (a & b & Hs).
  apply includes_spec in Hpq as (c & d & Hp).
  apply includes_spec. exists (a ++ c)%list, (d ++ b)%list.
  rewrite Hs, Hp, <- !app_assoc. reflexivity.
Qed.

Lemma byte_range (c : ascii) : 0 <= byte c < 256.
Proof.
  unfold byte. pose proof (N_ascii_bounded c) as H. lia.
Qed.

Lemma byte_char (b : Z) : 0 <= b < 256 -> byte (char b) = b.
Proof.
  intros H. unfold byte, char. rewrite N_ascii_embedding by lia. lia.
Qed.

Lemma unitsOf_valid (cp : Z) :
  0 <= cp < 2097152 -> Forall isCodeUnit (unitsOf cp).
Proof.
  intros H. unfold unitsOf, isCodeUnit.
  destruct (cp <? 65536) eqn:E.
  - apply Z.ltb_lt in E. repeat constructor; lia.
  - apply Z.ltb_ge in E.
    repeat constructor; Z.div_mod_to_equations; lia.
Qed.

Lemma points_range (s : string) : Forall (fun cp => 0 <= cp < 2097152) (points s).
Proof.
  assert (H : forall n s, (String.length s <= n)%nat ->
                          Forall (fun cp => 0 <= cp < 2097152) (points s)).
  { clear s. induction n as [|n IH]; intros s Hn.
    - destruct s; [constructor | cbn in Hn; lia].
    - destruct s as [|c1 s1]; [constructor|]. cbn [points].
      pose proof (byte_range c1) as H1. cbn zeta.
      destruct (byte c1 <? 128) eqn:E1.
      { constructor; [lia|]. apply IH. cbn in Hn. lia. }
      destruct (byte c1 <? 192).
      { constructor; [lia|]. apply IH. cbn in Hn. lia. }
      destruct s1 as [|c2 s2]; [repeat constructor; lia|].
      pose proof (byte_range c2) as H2.
      destruct (byte c1 <? 224).
      { constructor; [Z.div_mod_to_equations; lia|]. apply IH. cbn in Hn. lia. }
      destruct s2 as [|c3 s3]; [repeat constructor; lia|].
      pose proof (byte_range c3) as H3.
      destruct (byte c1 <? 240).
      { constructor; [Z.div_mod_to_equations; lia|]. apply IH. cbn in Hn. lia. }
      destruct s3 as [|c4 s4]; [repeat constructor; lia|].
      pose proof (byte_range c4) as H4.
      constructor; [Z.div_mod_to_equations; lia|]. apply IH. cbn in Hn. lia. }
  apply (H (String.length s)). lia.
Qed.

Lemma codeUnits_valid (s : string) : Forall isCodeUnit (codeUnits s).
Proof.
  unfold codeUnits. pose proof (points_range s) as H.
  induction H as [|cp ps Hcp _ IH]; cbn [flat_map]; [constructor|].
  apply Forall_app. split; [apply unitsOf_valid, Hcp | exact IH].
Qed.

Lemma append_String (c : ascii) (s t : string) : String c s +:+ t = String c (s +:+ t).
Proof. reflexivity. Qed.

Lemma append_empty (t : string) : EmptyString +:+ t = t.
Proof. reflexivity. Qed.

(** Reading back what was written. *)
Lemma points_bytesOf (cp : Z) (s : string) :
  0 <= cp < 1114112 -> points (bytesOf cp +:+ s) = cp :: points s.
Proof.
  intros H. unfold bytesOf.
  destruct (cp <? 128) eqn:E1.
  { apply Z.ltb_lt in E1. rewrite !append_String, append_empty. cbn [points]. cbn zeta.
    rewrite byte_char by lia.
    apply Z.ltb_lt in E1. rewrite E1. reflexivity. }
  apply Z.ltb_ge in E1.
  destruct (cp <? 2048) eqn:E2.
  { apply Z.ltb_lt in E2. rewrite !append_String, append_empty. cbn [points]. cbn zeta.
    rewrite !byte_char by (Z.div_mod_to_equations; lia).
    replace (192 + cp / 64 <? 128) with false
      by (symmetry; apply Z.ltb_ge; Z.div_mod_to_equations; lia).
    replace (192 + cp / 64 <? 192) with false
      by (symmetry; apply Z.ltb_ge; Z.div_mod_to_equations; lia).
    replace (192 + cp / 64 <? 224) with true
      by (symmetry; apply Z.ltb_lt; Z.div_mod_to_equations; lia).
    f_equal. Z.div_mod_to_equations. lia. }
  apply Z.ltb_ge in E2.
  destruct (cp <? 65536) eqn:E3.
  { apply Z.ltb_lt in E3. rewrite !append_String, append_empty. cbn [points]. cbn zeta.
    rewrite !byte_char by (Z.div_mod_to_equations; lia).
    replace (224 + cp / 4096 <? 128) with false
      by (symmetry; apply Z.ltb_ge; Z.div_mod_to_equations; lia).
    replace (224 + cp / 4096 <? 192) with false
      by (symmetry; apply Z.ltb_ge; Z.div_mod_to_equations; lia).
    replace (224 + cp / 4096 <? 224) with false
      by (symmetry; apply Z.ltb_ge; Z.div_mod_to_equations; lia).
    replace (224 + cp / 4096 <? 240) with true
      by (symmetry; apply Z.ltb_lt; Z.div_mod_to_equations; lia).
    f_equal. Z.div_mod_to_equations. lia. }
  apply Z.ltb_ge in E3.
  rewrite !append_String, append_empty. cbn [points]. cbn zeta.
  rewrite !byte_char by (Z.div_mod_to_equations; lia).
  replace (240 + cp / 262144 <? 128) with false
    by (symmetry; apply Z.ltb_ge; Z.div_mod_to_equations; lia).
  replace (240 + cp / 262144 <? 192) with false
    by (symmetry; apply Z.ltb_ge; Z.div_mod_to_equations; lia).
  replace (240 + cp / 262144 <? 224) with false
    by (symmetry; apply Z.ltb_ge; Z.div_mod_to_equations; lia).
  replace (240 + cp / 262144 <? 240) with false
    by (symmetry; apply Z.ltb_ge; Z.div_mod_to_equations; lia).
  f_equal. Z.div_mod_to_equations. lia.
Qed.

Lemma points_ofPoints (ps : list Z) :
  Forall (fun cp => 0 <= cp < 1114112) ps -> points (ofPoints ps) = ps.
Proof.
  induction 1 as [|cp ps Hcp _ IH]; [reflexivity|].
  cbn [ofPoints fold_right]. fold (ofPoints ps).
  rewrite points_bytesOf by exact Hcp. rewrite IH. reflexivity.
Qed.

Lemma codePoints_units (units : list Z) :
  Forall isCodeUnit units ->
  Forall (fun cp => 0 <= cp < 1114112) (codePoints units)
  /\ flat_map unitsOf (codePoints units) = units.
Proof.
  assert (H : forall n units, (List.length units <= n)%nat ->
                Forall isCodeUnit units ->
                Forall (fun cp => 0 <= cp < 1114112) (codePoints units)
                /\ flat_map unitsOf (codePoints units) = units).
  { clear units. induction n as [|n IH]; intros units Hn Hv.
    - destruct units; [split; [constructor | reflexivity] | cbn in Hn; lia].
    - destruct units as [|u rest]; [split; [constructor | reflexivity]|].
      inversion Hv as [|? ? Hu Hrest]; subst. unfold isCodeUnit in Hu.
      cbn [codePoints].
      destruct rest as [|u' rest'].
      { split; [repeat constructor; lia|]. cbn. unfold unitsOf.
        replace (u <? 65536) with true by (symmetry; apply Z.ltb_lt; lia).
        reflexivity. }
      inversion Hrest as [|? ? Hu' Hrest']; subst. unfold isCodeUnit in Hu'.
      destruct (isHighSurrogate u && isLowSurrogate u') eqn:E.
      + apply andb_true_iff in E as [Eh El].
        unfold isHighSurrogate in Eh. unfold isLowSurrogate in El.
        apply andb_true_iff in Eh as [Eh1 Eh2]. apply andb_true_iff in El as [El1 El2].
        apply Z.leb_le in Eh1, Eh2, El1, El2.
        destruct (IH rest') as [IH1 IH2]; [cbn in Hn; lia | exact Hrest' |].
        split; [constructor; [lia | exact IH1]|].
        cbn [flat_map]. rewrite IH2. unfold unitsOf.
        replace (65536 + (u - 55296) * 1024 + (u' - 56320) <? 65536) with false
          by (symmetry; apply Z.ltb_ge; lia).
        cbn [app]. f_equal; [|f_equal]; Z.div_mod_to_equations; lia.
      + destruct (IH (u' :: rest')) as [IH1 IH2]; [cbn in Hn |- *; lia | exact Hrest |].
        split; [constructor; [lia | exact IH1]|].
        cbn [flat_map]. rewrite IH2. unfold unitsOf.
        replace (u <? 65536) with true by (symmetry; apply Z.ltb_lt; lia).
        reflexivity. }
  intros Hv. apply (H (List.length units)); [lia | exact Hv].
Qed.

(** The code units written by [fromCodeUnits] are read back by
    [codeUnits]. *)
Lemma codeUnits_fromCodeUnits (units : list Z) :
  Forall isCodeUnit units -> codeUnits (fromCodeUnits units) = units.
Proof.
  intros Hv. destruct (codePoints_units units Hv) as [Hrange Hback].
  unfold codeUnits, fromCodeUnits. rewrite points_ofPoints by exact Hrange.
  exact Hback.
Qed.

Lemma firstn_valid (n : nat) (units : list Z) :
  Forall isCodeUnit units -> Forall isCodeUnit (firstn n units).
Proof.
  intros H. revert n. induction H as [|u l Hu _ IH]; intros [|n]; cbn; constructor.
  - exact Hu.
  - apply IH.
Qed.

(** [substring(0, n)] has the first [n] code units, so at most [n]. *)
Lemma codeUnits_substring0 (n : nat) (s : string) :
  codeUnits (substring0 n s) = firstn n (codeUnits s).
Proof.
  unfold substring0. apply codeUnits_fromCodeUnits, firstn_valid, codeUnits_valid.
Qed.

Lemma substring0_length (n : nat) (s : string) :
  length (substring0 n s) <= Z.of_nat n.
Proof.
  unfold length. rewrite codeUnits_substring0.
  pose proof (List.firstn_le_length n (codeUnits s)). lia.
Qed.

(** An ASCII prefix is read byte by byte. *)
Lemma codeUnits_ascii_append (p s : string) :
  asciiOnly p = true -> codeUnits (p +:+ s) = (codeUnits p ++ codeUnits s)%list.
Proof.
  unfold asciiOnly, codeUnits.
  induction p as [|c p IH]; intros H; [reflexivity|].
  cbn [list_ascii_of_string forallb] in H. apply andb_true_iff in H as [Hc Hp].
  rewrite append_String. cbn [points]. cbn zeta. rewrite Hc.
  cbn [flat_map]. rewrite (IH Hp), app_assoc. reflexivity.
Qed.

Lemma unitsRemove_prefix (p rest : list Z) : unitsRemove p (p ++ rest) = rest.
Proof.
  assert (Hpre : unitsPrefix p (p ++ rest) = true)
    by (apply unitsPrefix_spec; exists rest; reflexivity).
  assert (Hskip : skipn (List.length p) (p ++ rest) = rest).
  { clear Hpre. induction p as [|a p IH]; [reflexivity | exact IH]. }
  destruct (p ++ rest)%list as [|u l] eqn:E; cbn [unitsRemove]; rewrite Hpre; exact Hskip.
Qed.

(** [replace] removes a scheme the string starts with: what is left has
    the code units of the rest. *)
Lemma removeFirst_scheme (scheme rest : string) :
  asciiOnly scheme = true ->
  codeUnits (removeFirst (scheme +:+ rest) scheme) = codeUnits rest.
Proof.
  intros H. unfold removeFirst.
  rewrite (codeUnits_ascii_append _ _ H), unitsRemove_prefix.
  apply codeUnits_fromCodeUnits, codeUnits_valid.
Qed.

End StringFacts.

(* ===================================================================== *)
(** * Facts about the loops that may throw *)
(* ===================================================================== *)

Section LoopFacts.

Context {A : Type}.

(** A callback that never throws makes [filter_try] the plain filter. *)
Lemma filter_try_pure (f : A -> Try bool) (g : A -> bool) (l : list A) :
  (forall x, In x l -> f x = inr (g x)) ->
  filter_try f l = inr (List.filter g l).
Proof.
  induction l as [|x l IH]; intros H; simpl; [reflexivity|].
  rewrite (H x (or_introl eq_refl)). simpl.
  rewrite IH by (intros y Hy; apply H; right; exact Hy). simpl.
  destruct (g x); reflexivity.
Qed.

(** A callback that throws on some element makes [filter_try] throw. *)
Lemma filter_try_throws (f : A -> Try bool) (l : list A) :
  (exists x e, In x l /\ f x = inl e) ->
  exists e, filter_try f l = inl e.
Proof.
  induction l as [|x l IH]; intros (y & e & Hin & Hy); [destruct Hin|].
  simpl. destruct (f x) as [e'|b] eqn:E; [exists e'; reflexivity|]. simpl.
  destruct Hin as [->|Hin]; [congruence|].
  destruct (IH (ex_intro _ y (ex_intro _ e (conj Hin Hy)))) as [e'' ->].
  exists e''. reflexivity.
Qed.

Lemma some_try_pure (f : A -> Try bool) (g : A -> bool) (l : list A) :
  (forall x, In x l -> f x = inr (g x)) ->
  some_try f l = inr (existsb g l).
Proof.
  induction l as [|x l IH]; intros H; simpl; [reflexivity|].
  rewrite (H x (or_introl eq_refl)). simpl.
  destruct (g x); [reflexivity|].
  apply IH. intros y Hy. apply H. right. exact Hy.
Qed.

End LoopFacts.

(* ===================================================================== *)
(** * Violations before consent: essential cookies, matches, score *)
(* ===================================================================== *)

Lemma patterns_lowercase :
  map JsString.toLowerCase essentialPatterns = essentialPatterns.
Proof. reflexivity. Qed.


Lemma filter_cookies_ok (cookies : list Cookie) :
  existsb cookieThrows cookies = false ->
  filter_try isProblematic cookies = inr (nonEssential cookies).
Proof.
  intros H. unfold nonEssential.
  apply filter_try_pure. intros c Hc.
  assert (Hcf : cookieThrows c = false).
  { destruct (cookieThrows c) eqn:E; [|reflexivity].
    assert (existsb cookieThrows cookies = true) by (apply existsb_exists; eauto).
    congruence. }
  unfold cookieThrows in Hcf. unfold isProblematic.
  destruct (isEssential c) as [e|[|]]; [discriminate | reflexivity | reflexivity].
Qed.

Lemma filter_cookies_throws (cookies : list Cookie) :
  existsb cookieThrows cookies = true ->
  exists e, filter_try isProblematic cookies = inl e.
Proof.
  intros H. apply existsb_exists in H as (c & Hc & Hthrow).
  apply filter_try_throws. unfold cookieThrows in Hthrow.
  destruct (isEssential c) as [e|b] eqn:E; [|discriminate].
  exists c, e. split; [exact Hc | unfold isProblematic; rewrite E; reflexivity].
Qed.

(** The loop over the services, for one request. *)
Lemma scanServices_ok (r : NetworkRequest) (services : list (string * Service)) :
  forall acc,
    existsb (fun s => match matchesService r s with inl _ => true | inr _ => false end)
            (map snd services) = false ->
    exists acc',
      forEach_try (scanService r) services acc = (acc', None)
      /\ List.length (scan_requests acc')
         = (List.length (scan_requests acc)
            + List.length (List.filter (hits r) (map snd services)))%nat.
Proof.
  induction services as [|[id s] services IH]; intros acc H; simpl in *.
  - exists acc. split; [reflexivity | lia].
  - apply orb_false_iff in H as [Hs Hrest].
    unfold scanService at 1. simpl. unfold hits at 1.
    destruct (matchesService r s) as [e|[|]]; [discriminate| |].
    + match goal with |- context [forEach_try _ services ?a] =>
        destruct (IH a Hrest) as (acc' & -> & Hlen) end.
      exists acc'. split; [reflexivity|].
      rewrite Hlen. simpl. unfold push. rewrite length_app. simpl. lia.
    + destruct (IH acc Hrest) as (acc' & -> & Hlen).
      exists acc'. split; [reflexivity | exact Hlen].
Qed.

Lemma scanServices_throws (r : NetworkRequest) (services : list (string * Service)) :
  forall acc,
    existsb (fun s => match matchesService r s with inl _ => true | inr _ => false end)
            (map snd services) = true ->
    exists acc' e, forEach_try (scanService r) services acc = (acc', Some e).
Proof.
  induction services as [|[id s] services IH]; intros acc H; simpl in *; [discriminate|].
  unfold scanService at 1. simpl.
  destruct (matchesService r s) as [e|[|]] eqn:E.
  - exists acc, e. reflexivity.
  - simpl in H.
    match goal with |- context [forEach_try _ services ?a] =>
      destruct (IH a H) as (acc' & e & ->) end.
    exists acc', e. reflexivity.
  - simpl in H. destruct (IH acc H) as (acc' & e & ->). exists acc', e. reflexivity.
Qed.

(** The loop over the requests. *)
Lemma scanRequests_ok (requests : list NetworkRequest) :
  forall acc,
    existsb requestThrows requests = false ->
    exists acc',
      forEach_try scanRequest requests acc = (acc', None)
      /\ List.length (scan_requests acc')
         = (List.length (scan_requests acc)
            + List.length (trackingMatches requests))%nat.
Proof.
  induction requests as [|r requests IH]; intros acc H.
  - exists acc. split; [reflexivity | simpl; lia].
  - cbn [existsb] in H. apply orb_false_iff in H as [Hr Hrest].
    cbn [forEach_try]. unfold scanRequest at 1.
    destruct (scanServices_ok r TRACKING_SERVICES acc Hr) as (acc1 & -> & Hlen1).
    destruct (IH acc1 Hrest) as (acc' & -> & Hlen).
    exists acc'. split; [reflexivity|].
    unfold trackingMatches in *. cbn [flat_map].
    rewrite Hlen, Hlen1, length_app, length_map. lia.
Qed.

Lemma scanRequests_throws (requests : list NetworkRequest) :
  forall acc,
    existsb requestThrows requests = true ->
    exists acc' e, forEach_try scanRequest requests acc = (acc', Some e).
Proof.
  induction requests as [|r requests IH]; intros acc H; [discriminate|].
  cbn [existsb] in H. cbn [forEach_try]. unfold scanRequest at 1.
  destruct (requestThrows r) eqn:Hr.
  - destruct (scanServices_throws r TRACKING_SERVICES acc Hr) as (acc' & e & ->).
    exists acc', e. reflexivity.
  - destruct (scanServices_ok r TRACKING_SERVICES acc Hr) as (acc1 & -> & _).
    simpl in H. destruct (IH acc1 H) as (acc' & e & ->). exists acc', e. reflexivity.
Qed.

(** The result of the whole check when nothing throws. *)
Lemma checkPreConsentViolations_ok cookies requests html t0 t1 :
  violationCheckThrows cookies requests = false ->
  exists scan,
    forEach_try scanRequest requests {| scan_requests := []; scan_services := [] |}
      = (scan, None)
    /\ List.length (scan_requests scan) = List.length (trackingMatches requests)
    /\ checkPreConsentViolations cookies requests html t0 t1 =
       let nCookies := Z.of_nat (List.length (nonEssential cookies)) in
       let nRequests := Z.of_nat (List.length (scan_requests scan)) in
       {| found := Some ((0 <? nCookies) || (0 <? nRequests));
          score := Some (num_of_Z (violationScore nCookies nRequests));
          error := None;
          evidence :=
            PreConsent
              ((if 0 <? nCookies then [cookieViolation (nonEssential cookies)] else [])
               ++ (if 0 <? nRequests then [requestViolation (scan_requests scan)] else []))%list
              (Z.of_nat (List.length cookies)) (scan_services scan) |}.
Proof.
  intros H. apply orb_false_iff in H as [Hc Hr].
  destruct (scanRequests_ok requests {| scan_requests := []; scan_services := [] |} Hr)
    as (scan & Hscan & Hlen).
  exists scan. split; [exact Hscan|]. split; [exact Hlen|].
  unfold checkPreConsentViolations.
  rewrite (filter_cookies_ok cookies Hc), Hscan. reflexivity.
Qed.

Lemma checkPreConsentViolations_throws cookies requests html t0 t1 :
  violationCheckThrows cookies requests = true ->
  found (checkPreConsentViolations cookies requests html t0 t1) = Some false
  /\ score (checkPreConsentViolations cookies requests html t0 t1) = Some (num_of_Z 50).
Proof.
  intros H. unfold checkPreConsentViolations.
  destruct (existsb cookieThrows cookies) eqn:Hc.
  - destruct (filter_cookies_throws cookies Hc) as [e ->]. split; reflexivity.
  - unfold violationCheckThrows in H. rewrite Hc in H. simpl in H.
    rewrite (filter_cookies_ok cookies Hc).
    destruct (scanRequests_throws requests
                {| scan_requests := []; scan_services := [] |} H)
      as (acc' & e & ->).
    split; reflexivity.
Qed.

Lemma violationScore_formula (cookies requests : Z) :
  0 <= cookies -> 0 <= requests ->
  violationScore cookies requests = Z.max 0 (100 - 15 * cookies - 10 * requests).
Proof.
  intros Hc Hr. unfold violationScore.
  destruct (0 <? cookies) eqn:E1; destruct (0 <? requests) eqn:E2; simpl; lia.
Qed.

(* ===================================================================== *)
(** * Theorems on the violation check and the cookie count *)
(* ===================================================================== *)



(** C4, as the code has it.  The score is 100 minus 15 for each
    non-essential cookie and minus 10 for each match of a captured request
    with a tracking service, floored at 0: 2 cookies and 1 match give 60,
    none of either gives found = false and 100.  When the check throws on a
    cookie name or a request URL the score is 50, and so is the score of the
    fallback [checkUrl] would store if the call itself threw. *)
Theorem preConsent_score cookies requests html t0 t1 :
  let result := checkPreConsentViolations cookies requests html t0 t1 in
  let c := Z.of_nat (List.length (nonEssential cookies)) in
  let m := Z.of_nat (List.length (trackingMatches requests)) in
  (violationCheckThrows cookies requests = false ->
     score result = Some (num_of_Z (Z.max 0 (100 - 15 * c - 10 * m)))
     /\ found result = Some (negb ((c =? 0) && (m =? 0)))
     /\ (c = 2 -> m = 1 -> score result = Some (num_of_Z 60))
     /\ (c = 0 -> m = 0 ->
         found result = Some false /\ score result = Some (num_of_Z 100)))
  /\ (violationCheckThrows cookies requests = true ->
      score result = Some (num_of_Z 50))
  /\ (forall e, score (preConsentFallback e) = Some (num_of_Z 50)).
Proof.
  intros result c m. split; [|split].
  - intros Hok.
    destruct (checkPreConsentViolations_ok cookies requests html t0 t1 Hok)
      as (scan & _ & Hlen & Hres).
    assert (Hscore : score result = Some (num_of_Z (Z.max 0 (100 - 15 * c - 10 * m)))).
    { subst result. rewrite Hres. cbv zeta. cbn [score]. rewrite Hlen.
      rewrite violationScore_formula by lia. reflexivity. }
    assert (Hfound : found result = Some (negb ((c =? 0) && (m =? 0)))).
    { subst result. rewrite Hres. cbv zeta. cbn [found]. rewrite Hlen.
      fold c m. f_equal.
      destruct (0 <? c) eqn:E1; destruct (0 <? m) eqn:E2;
        destruct (c =? 0) eqn:E3; destruct (m =? 0) eqn:E4; try reflexivity; lia. }
    split; [exact Hscore|]. split; [exact Hfound|]. split.
    + intros Hc Hm. rewrite Hscore, Hc, Hm. reflexivity.
    + intros Hc Hm. rewrite Hscore, Hfound, Hc, Hm. split; reflexivity.
  - intros Hthrows.
    apply (checkPreConsentViolations_throws cookies requests html t0 t1 Hthrows).
  - intros e. reflexivity.
Qed.

Lemma preConsent_score_witness :
  score (checkPreConsentViolations
           [namedCookie "_ga"; namedCookie "_fbp"]
           [ {| url := JStr "https://www.google-analytics.com/collect";
                type := JStr "xhr"; timestamp := 0 |} ] "" 0 0)
    = Some (num_of_Z 60)
  /\ score (checkPreConsentViolations
              [ {| name := JNum (num_of_Z 7); domain := JUndefined;
                   secure := JUndefined; httpOnly := JUndefined;
                   sameSite := JUndefined |} ] [] "" 0 0)
     = Some (num_of_Z 50).
Proof.
  split.
  - apply (preConsent_score
             [namedCookie "_ga"; namedCookie "_fbp"]
             [ {| url := JStr "https://www.google-analytics.com/collect";
                  type := JStr "xhr"; timestamp := 0 |} ] "" 0 0);
      vm_compute; reflexivity.
  - apply (preConsent_score
             [ {| name := JNum (num_of_Z 7); domain := JUndefined;
                  secure := JUndefined; httpOnly := JUndefined;
                  sameSite := JUndefined |} ] [] "" 0 0).
    vm_compute. reflexivity.
Defined.

(** C4, as stated, fails: one captured request whose URL matches the
    patterns of two services is charged twice. *)
Lemma preConsent_score_not_per_request :
  ~ (forall cookies requests html t0 t1,
       violationCheckThrows cookies requests = false ->
       score (checkPreConsentViolations cookies requests html t0 t1)
         = Some (num_of_Z (scorePerRequest cookies requests))).
Proof.
  intros H.
  specialize (H [] [pixelRequest] "" 0 0 eq_refl).
  vm_compute in H. discriminate H.
Qed.

(** C10. [checkCookies] scores by the number of cookies alone: 100 for none,
    80 for 1 to 3, 60 for 4 to 10 and 30 for more; when the enumeration
    throws, the score is 50. *)
Theorem checkCookies_tiers :
  (forall cookies : list Cookie,
      let n := Z.of_nat (List.length cookies) in
      let result := checkCookies (inr cookies) in
      evidence result = CookieList n (Some (map summarize cookies))
      /\ (n = 0 -> score result = Some (num_of_Z 100))
      /\ (1 <= n <= 3 -> score result = Some (num_of_Z 80))
      /\ (4 <= n <= 10 -> score result = Some (num_of_Z 60))
      /\ (10 < n -> score result = Some (num_of_Z 30)))
  /\ (forall e, score (checkCookies (inl e)) = Some (num_of_Z 50)).
Proof.
  split; [|reflexivity].
  intros cookies n result. split; [reflexivity|].
  assert (Htier : forall t, cookieTier n = t -> In t [100; 80; 60; 30] ->
                            score result = Some (num_of_Z t)).
  { intros t Ht Hin. subst result. unfold checkCookies. cbn [score]. fold n.
    rewrite Ht. simpl in Hin.
    destruct Hin as [<-|[<-|[<-|[<-|[]]]]]; vm_compute; reflexivity. }
  unfold cookieTier in Htier.
  repeat split; intros Hn; apply Htier; simpl; auto.
  - rewrite Hn. reflexivity.
  - destruct (n =? 0) eqn:E0; [lia|]. destruct (n <=? 3) eqn:E3; [reflexivity | lia].
  - destruct (n =? 0) eqn:E0; [lia|]. destruct (n <=? 3) eqn:E3; [lia|].
    destruct (n <=? 10) eqn:E10; [reflexivity | lia].
  - destruct (n =? 0) eqn:E0; [lia|]. destruct (n <=? 3) eqn:E3; [lia|].
    destruct (n <=? 10) eqn:E10; [lia | reflexivity].
Qed.

Lemma checkCookies_tiers_witness :
  score (checkCookies (inr [namedCookie "a"; namedCookie "b"; namedCookie "c";
                            namedCookie "d"])) = Some (num_of_Z 60).
Proof.
  destruct checkCookies_tiers as (H & _).
  apply (H [namedCookie "a"; namedCookie "b"; namedCookie "c"; namedCookie "d"]).
  simpl. lia.
Defined.

(* ===================================================================== *)
(** * The cookie banner *)
(* ===================================================================== *)

Lemma bannerElement_found (selector : string) (elements : list Element) :
  forall acc,
    fst (fold_left (bannerElement selector) elements acc)
    = fst acc || existsb longText elements.
Proof.
  induction elements as [|el elements IH]; intros acc; simpl.
  - rewrite orb_false_r. reflexivity.
  - rewrite IH. unfold bannerElement at 1. unfold longText at 2.
    destruct (10 <? JsString.length (JsString.toLowerCase (el_text el))); simpl.
    + rewrite orb_true_r. reflexivity.
    + reflexivity.
Qed.

Lemma bannerSelector_found (dom : Dom) (selectors : list string) :
  forall acc,
    fst (fold_left (bannerSelector dom) selectors acc)
    = fst acc || existsb (selectorMatches longText dom) selectors.
Proof.
  induction selectors as [|selector selectors IH]; intros acc; simpl.
  - rewrite orb_false_r. reflexivity.
  - rewrite IH. rewrite orb_assoc. f_equal.
    unfold bannerSelector, selectorMatches.
    destruct (select dom selector) as [e|elements]; [rewrite orb_false_r; reflexivity|].
    destruct elements as [|el elements]; [rewrite orb_false_r; reflexivity|].
    replace (0 <? Z.of_nat (List.length (el :: elements))) with true
      by (symmetry; apply Z.ltb_lt; simpl; lia).
    apply bannerElement_found.
Qed.

(** What [checkCookieBanner] returns when the body text can be read. *)
Lemma checkCookieBanner_body (dom : Dom) (body : list Element) :
  select dom "body" = inr body ->
  let found1 :=
    existsb (selectorMatches longText dom) GDPR_CHECKS.cookieBanner.selectors
    || keywordInBody body in
  found (checkCookieBanner dom) = Some found1
  /\ score (checkCookieBanner dom) = Some (num_of_Z (if found1 then 100 else 0)).
Proof.
  intros Hbody found1. unfold checkCookieBanner.
  pose proof (bannerSelector_found dom GDPR_CHECKS.cookieBanner.selectors (false, []))
    as Hfold.
  destruct (fold_left (bannerSelector dom) GDPR_CHECKS.cookieBanner.selectors (false, []))
    as [found0 elements].
  simpl in Hfold. rewrite Hbody. cbn [found score].
  subst found1. unfold keywordInBody. rewrite Hfold. split; reflexivity.
Qed.

(** C6, as the code has it.  When the body text can be read,
    [checkCookieBanner] reports found = true exactly when some configured
    selector matches an element whose text, lowercased and not trimmed, is
    longer than 10 characters (UTF-16 code units), or the code units of some
    configured keyword, lowercased, occur in the lowercased body text; the
    score is 100 when found and 0 otherwise.  The case of the body text does
    not matter, also outside ASCII: a body that says SÚHLAS or OCHRANA
    ÚDAJOV is found by the keywords súhlas and ochrana údajov; and a letter
    outside ASCII counts once: the ten characters of Odmietnuť! are not more
    than 10. *)
Theorem checkCookieBanner_found (dom : Dom) (body : list Element) :
  select dom "body" = inr body ->
  (found (checkCookieBanner dom) = Some true <->
     (exists selector elements el,
         In selector GDPR_CHECKS.cookieBanner.selectors
         /\ select dom selector = inr elements
         /\ In el elements
         /\ 10 < JsString.length (JsString.toLowerCase (el_text el)))
     \/ (exists keyword before after,
            In keyword GDPR_CHECKS.cookieBanner.keywords
            /\ JsString.codeUnits (JsString.toLowerCase (selection_text body))
               = (before ++ JsString.codeUnits (JsString.toLowerCase keyword)
                  ++ after)%list))
  /\ (found (checkCookieBanner dom) = Some true
      /\ score (checkCookieBanner dom) = Some (num_of_Z 100)
      \/ found (checkCookieBanner dom) = Some false
         /\ score (checkCookieBanner dom) = Some (num_of_Z 0))
  /\ (selection_text body = "Potrebný je Váš SÚHLAS." ->
      found (checkCookieBanner dom) = Some true)
  /\ (selection_text body = "OCHRANA ÚDAJOV" ->
      found (checkCookieBanner dom) = Some true)
  /\ (selection_text body = "Nič o tom. Odmietnuť! ČČČČČČ" ->
      (forall selector elements el,
          In selector GDPR_CHECKS.cookieBanner.selectors ->
          select dom selector = inr elements -> In el elements ->
          el_text el = "Odmietnuť!" \/ el_text el = "ČČČČČČ") ->
      found (checkCookieBanner dom) = Some false).
Proof.
  intros Hbody.
  destruct (checkCookieBanner_body dom body Hbody) as [Hfound Hscore].
  cbv zeta in Hfound, Hscore. rewrite Hfound, Hscore.
  split; [|split; [|split; [|split]]];
    [| | intros Htext; f_equal; apply orb_true_iff; right;
         unfold keywordInBody; rewrite Htext; vm_compute; reflexivity
       | intros Htext; f_equal; apply orb_true_iff; right;
         unfold keywordInBody; rewrite Htext; vm_compute; reflexivity
       | ].
  3:{ intros Htext Hshort. f_equal. apply orb_false_iff. split.
      - apply not_true_iff_false. intros H.
        apply existsb_exists in H as (selector & Hin & Hsel).
        unfold selectorMatches in Hsel.
        destruct (select dom selector) as [e|elements] eqn:E; [discriminate|].
        apply existsb_exists in Hsel as (el & Hel & Hlong).
        unfold longText in Hlong.
        destruct (Hshort selector elements el Hin E Hel) as [Ht|Ht];
          rewrite Ht in Hlong; vm_compute in Hlong; discriminate Hlong.
      - unfold keywordInBody. rewrite Htext. vm_compute. reflexivity. }
  - split.
    + intros H. apply (inj Some) in H. apply orb_true_iff in H as [H|H].
      * left. apply existsb_exists in H as (selector & Hin & Hsel).
        unfold selectorMatches in Hsel.
        destruct (select dom selector) as [e|elements] eqn:E; [discriminate|].
        apply existsb_exists in Hsel as (el & Hel & Hlong).
        exists selector, elements, el. repeat split; try assumption.
        apply Z.ltb_lt. exact Hlong.
      * right. apply existsb_exists in H as (keyword & Hin & Hinc).
        apply includes_spec in Hinc as (before & after & Heq).
        exists keyword, before, after. split; assumption.
    + intros [(selector & elements & el & Hin & Hsel & Hel & Hlong)
             | (keyword & before & after & Hin & Heq)]; f_equal; apply orb_true_iff.
      * left. apply existsb_exists. exists selector. split; [exact Hin|].
        unfold selectorMatches. rewrite Hsel. apply existsb_exists.
        exists el. split; [exact Hel|]. apply Z.ltb_lt. exact Hlong.
      * right. apply existsb_exists. exists keyword. split; [exact Hin|].
        apply includes_spec. exists before, after. exact Heq.
  - destruct (existsb (selectorMatches longText dom) GDPR_CHECKS.cookieBanner.selectors
              || keywordInBody body); [left | right]; split; reflexivity.
Qed.

Lemma checkCookieBanner_found_witness :
  found (checkCookieBanner blankOverlayPage) = Some true
  /\ score (checkCookieBanner blankOverlayPage) = Some (num_of_Z 100).
Proof.
  destruct (checkCookieBanner_found blankOverlayPage [blankOverlay] eq_refl)
    as (_ & [H|[H _]] & _).
  - exact H.
  - vm_compute in H. discriminate H.
Defined.

(** C6, as stated, fails: an element whose text is eleven spaces is found by
    the code, and its trimmed text is empty. *)
Lemma checkCookieBanner_not_trimmed :
  ~ (forall dom body,
       select dom "body" = inr body ->
       (found (checkCookieBanner dom) = Some true
        <-> bannerExpectedTrimmed dom body = true)).
Proof.
  intros H.
  destruct (H blankOverlayPage [blankOverlay] eq_refl) as [H1 _].
  assert (Hfound : found (checkCookieBanner blankOverlayPage) = Some true)
    by (vm_compute; reflexivity).
  specialize (H1 Hfound). vm_compute in H1. discriminate H1.
Qed.

(* ===================================================================== *)
(** * Facts about the steps *)
(* ===================================================================== *)

Ltac quiet_steps :=
  unfold quiet; simpl; repeat split; try reflexivity; try set_solver.

Section Frames.

Context {A B : Type}.

Lemma quiet_refl σ : quiet σ σ.
Proof. quiet_steps. Qed.

Lemma quiet_trans σ1 σ2 σ3 : quiet σ1 σ2 -> quiet σ2 σ3 -> quiet σ1 σ3.
Proof.
  intros (Hd & Hl & Hp) (Hd' & Hl' & Hp').
  repeat split; [congruence | congruence | set_solver].
Qed.

Lemma respects_ret (x : A) : respects quiet (mret x : Op A).
Proof. intros σ. apply quiet_refl. Qed.

Lemma respects_raise (e : exn) : respects quiet (raise e : Op A).
Proof. intros σ. apply quiet_refl. Qed.

Lemma respects_lift (t : Try A) : respects quiet (lift t).
Proof. intros σ. apply quiet_refl. Qed.

Lemma respects_gets (f : Session -> A) : respects quiet (gets f).
Proof. intros σ. apply quiet_refl. Qed.

Lemma respects_bind (m : Op A) (f : A -> Op B) :
  respects quiet m -> (forall x, respects quiet (f x)) -> respects quiet (m ≫= f).
Proof.
  intros Hm Hf σ. unfold mbind, Op_bind. specialize (Hm σ).
  destruct (m σ) as [[e|x] σ1]; simpl in *; [exact Hm|].
  eapply quiet_trans; [exact Hm | apply Hf].
Qed.

End Frames.

Create HintDb frames.
#[local] Hint Resolve respects_ret respects_raise respects_lift respects_gets : frames.

Lemma respects_modify (f : Session -> Session) :
  (forall σ, quiet σ (f σ)) -> respects quiet (modify f).
Proof. intros H σ. apply H. Qed.

Lemma quiet_setBrowser σ : quiet σ (setBrowser σ).
Proof. quiet_steps. Qed.

Lemma quiet_addPage σ : quiet σ (addPage σ).
Proof. quiet_steps. Qed.

Lemma quiet_addWait ms σ : quiet σ (addWait ms σ).
Proof. quiet_steps. Qed.

Lemma quiet_addConnection host σ : quiet σ (addConnection host σ).
Proof. quiet_steps. Qed.

Lemma respects_initBrowser a : respects quiet (initBrowser a).
Proof.
  intros σ. unfold initBrowser.
  destruct (browser σ); [apply quiet_refl|].
  destruct (launch a); [apply quiet_refl | apply quiet_setBrowser].
Qed.

Lemma respects_navigate a : respects quiet (navigate a).
Proof.
  unfold navigate. destruct (goto a); auto with frames.
  destruct (400 <=? status); auto with frames.
Qed.

Lemma respects_checkSSL W a address : respects quiet (checkSSL W a address).
Proof.
  unfold checkSSL. destruct (parseURL W address) as [e|parsed]; auto with frames.
  destruct (negb _); auto with frames.
  apply respects_bind.
  - apply respects_modify. apply quiet_addConnection.
  - intros _. destruct (tls a); auto with frames.
Qed.

Lemma respects_guardedSSL W a address : respects quiet (guardedSSL W a address).
Proof.
  intros σ. unfold guardedSSL. pose proof (respects_checkSSL W a address σ) as H.
  destruct (checkSSL W a address σ) as [[e|r] σ']; exact H.
Qed.

(** The block that stands where the page would be closed changes nothing. *)
Lemma pageCleanup_noop page σ : snd (pageCleanup page σ) = σ.
Proof.
  destruct page as [p|]; [|reflexivity].
  unfold pageCleanup, mbind, Op_bind, isClosed, gets. cbv beta.
  destruct (bool_decide (p ∈ openPages σ)) eqn:E; cbn; rewrite ?E; reflexivity.
Qed.

Lemma pageCleanup_open page σ :
  page ∈ openPages σ -> pageCleanup (Some page) σ = (inr tt, σ).
Proof.
  intros H. unfold pageCleanup, mbind, Op_bind, isClosed, gets. cbv beta.
  rewrite bool_decide_eq_true_2 by exact H. cbn.
  rewrite bool_decide_eq_true_2 by exact H. reflexivity.
Qed.

Lemma respects_pageCleanup page : respects quiet (pageCleanup page).
Proof. intros σ. rewrite pageCleanup_noop. apply quiet_refl. Qed.

Lemma respects_auditPage W address retryCount page :
  respects quiet (auditPage W address retryCount page).
Proof.
  unfold auditPage.
  apply respects_bind; [auto with frames | intros _].
  apply respects_bind; [apply respects_navigate | intros _].
  apply respects_bind; [apply respects_modify, quiet_addWait | intros _].
  apply respects_bind; [auto with frames | intros html].
  apply respects_bind; [auto with frames | intros preConsentCookies].
  apply respects_bind; [apply respects_guardedSSL | intros ssl].
  apply respects_bind; [apply respects_pageCleanup | intros _].
  apply respects_ret.
Qed.

(** The part of [openPage] after the log line. *)
Lemma openPage_frame W address retryCount σ :
  let σ1 := snd (openPage W address retryCount σ) in
  quiet (logAttempt (retryCount + 1) σ) σ1
  /\ forall page, fst (openPage W address retryCount σ) = inr page -> page ∈ openPages σ1.
Proof.
  unfold openPage, mbind, Op_bind, modify, lift, gets, raise, mret, Op_ret. cbv beta iota zeta.
  set (σ0 := logAttempt (retryCount + 1) σ).
  destruct (parseURL W address) as [e|urlObj]; cbn [fst snd];
    [split; [apply quiet_refl | discriminate]|].
  destruct (existsb _ _); cbn [fst snd]; [|split; [apply quiet_refl | discriminate]].
  pose proof (respects_initBrowser (attempts W retryCount) σ0) as Hinit.
  destruct (initBrowser (attempts W retryCount) σ0) as [[e|[]] σb]; cbn [fst snd] in *;
    [split; [exact Hinit | discriminate]|].
  destruct (newPage (attempts W retryCount)) as [e|[]]; cbn [fst snd];
    [split; [exact Hinit | discriminate]|].
  split.
  - eapply quiet_trans; [exact Hinit | apply quiet_addPage].
  - intros page Hpage. injection Hpage as <-. simpl. set_solver.
Qed.

(** One attempt: it logs its number, starts no retry delay and closes no
    page; a page it has opened is still open when it ends. *)
Lemma attemptUrl_frame W address retryCount σ :
  let σ1 := snd (attemptUrl W address retryCount σ) in
  delays σ1 = delays σ
  /\ attemptsLogged σ1 = push (attemptsLogged σ) (retryCount + 1)%nat
  /\ openPages σ ⊆ openPages σ1
  /\ forall page σ0, openPage W address retryCount σ = (inr page, σ0) ->
                     page ∈ openPages σ1.
Proof.
  unfold attemptUrl.
  destruct (openPage_frame W address retryCount σ) as [(Hd & Hl & Hp) Hpage].
  destruct (openPage W address retryCount σ) as [[e|page] σ0] eqn:Hopen; simpl in *.
  - repeat split; [exact Hd | exact Hl | exact Hp | intros ? ? [=]].
  - pose proof (respects_auditPage W address retryCount page σ0) as (Hd' & Hl' & Hp').
    specialize (Hpage page eq_refl).
    destruct (auditPage W address retryCount page σ0) as [[e|r] σ2]; simpl in *;
      (repeat split; [congruence | congruence | set_solver
                     | intros page' σ0' [= <- <-]; set_solver]).
Qed.

(** A successful attempt returns the [results] object of that attempt. *)
Lemma attemptUrl_results W address retryCount σ results σ1 :
  attemptUrl W address retryCount σ = (inr results, σ1) ->
  exists html preConsentCookies ssl,
    results = buildResults address retryCount (attempts W retryCount)
                           html preConsentCookies ssl.
Proof.
  unfold attemptUrl.
  destruct (openPage W address retryCount σ) as [[e|page] σ0]; [discriminate|].
  unfold auditPage, mbind, Op_bind, lift, waitForDelay, modify, mret, Op_ret.
  destruct (configure (attempts W retryCount)); [discriminate|].
  destruct (navigate (attempts W retryCount) σ0) as [[e|[]] σa]; [discriminate|].
  destruct (content (attempts W retryCount)) as [e|html]; [discriminate|].
  destruct (cookiesBeforeConsent (attempts W retryCount)) as [e|cookies]; [discriminate|].
  destruct (guardedSSL W (attempts W retryCount) address (addWait 3000 σa))
    as [[e|ssl] σs]; [discriminate|].
  destruct (pageCleanup (Some page) σs) as [[e|[]] σc]; [discriminate|].
  intros [= <- <-]. exists html, cookies, ssl. reflexivity.
Qed.

(* ===================================================================== *)
(** * Facts about [checkUrl] *)
(* ===================================================================== *)

Lemma catchCleanup_noop page σ : catchCleanup page σ = σ.
Proof. apply pageCleanup_noop. Qed.

(** The equation of the source: one attempt, then the report, the retry or
    the error report. *)
Lemma checkUrl_unfold W address retryCount σ :
  checkUrl W address retryCount σ =
  match attemptUrl W address retryCount σ with
  | (inr results, σ1) => Some (results, σ1)
  | (inl (page, e), σ1) =>
      if (retryCount <? maxRetries)%nat
      then checkUrl W address (S retryCount)
             (addDelay (3000 * (Z.of_nat retryCount + 1)) σ1)
      else Some (errorReport W address retryCount e, σ1)
  end.
Proof.
  unfold checkUrl.
  destruct (retryCount <? maxRetries)%nat eqn:E.
  - apply Nat.ltb_lt in E.
    replace (maxRetries - retryCount)%nat with (S (maxRetries - S retryCount)) by lia.
    cbn [checkUrl_fuel].
    destruct (attemptUrl W address retryCount σ) as [[[page e]|results] σ1]; [|reflexivity].
    apply Nat.ltb_lt in E. rewrite E, catchCleanup_noop. reflexivity.
  - destruct (maxRetries - retryCount)%nat; cbn [checkUrl_fuel];
      destruct (attemptUrl W address retryCount σ) as [[[page e]|results] σ1];
      rewrite ?E, ?catchCleanup_noop; reflexivity.
Qed.

(** [checkUrl] computes exactly the runs. *)
Lemma checkUrl_Run W address retryCount σ report σ' :
  checkUrl W address retryCount σ = Some (report, σ') <->
  Run W address retryCount σ report σ'.
Proof.
  split.
  - remember (maxRetries - retryCount)%nat as n eqn:Hn.
    revert retryCount σ Hn.
    induction n as [|n IH]; intros retryCount σ Hn; rewrite checkUrl_unfold;
      destruct (attemptUrl W address retryCount σ) as [[[page e]|results] σ1] eqn:Ha.
    + destruct (retryCount <? maxRetries)%nat eqn:E;
        [apply Nat.ltb_lt in E; lia|].
      intros [= <- <-]. eapply RunExhausted; [exact Ha|].
      apply Nat.ltb_ge in E. lia.
    + intros [= <- <-]. apply RunSuccess. exact Ha.
    + destruct (retryCount <? maxRetries)%nat eqn:E.
      * intros H. apply Nat.ltb_lt in E.
        eapply RunRetry; [exact Ha | exact E |]. apply IH; [lia | exact H].
      * intros [= <- <-]. eapply RunExhausted; [exact Ha|].
        apply Nat.ltb_ge in E. lia.
    + intros [= <- <-]. apply RunSuccess. exact Ha.
  - induction 1 as [k σ results σ1 Ha | k σ page e σ1 report σ' Ha Hlt _ IH
                   | k σ page e σ1 Ha Hge];
      rewrite checkUrl_unfold, Ha.
    + reflexivity.
    + apply Nat.ltb_lt in Hlt. rewrite Hlt. exact IH.
    + destruct (k <? maxRetries)%nat eqn:E; [apply Nat.ltb_lt in E; lia | reflexivity].
Qed.

(** [checkUrl] returns: the fuel it is given is enough. *)
Lemma checkUrl_total W address retryCount σ :
  exists report σ', checkUrl W address retryCount σ = Some (report, σ').
Proof.
  remember (maxRetries - retryCount)%nat as n eqn:Hn.
  revert retryCount σ Hn.
  induction n as [|n IH]; intros retryCount σ Hn; rewrite checkUrl_unfold;
    destruct (attemptUrl W address retryCount σ) as [[[page e]|results] σ1];
    try (eexists _, _; reflexivity).
  - destruct (retryCount <? maxRetries)%nat eqn:E;
      [apply Nat.ltb_lt in E; lia | eexists _, _; reflexivity].
  - destruct (retryCount <? maxRetries)%nat eqn:E; [|eexists _, _; reflexivity].
    apply IH. apply Nat.ltb_lt in E. lia.
Qed.

Lemma buildResults_keys address retryCount a html preConsentCookies ssl :
  dom (checks (buildResults address retryCount a html preConsentCookies ssl))
  = sixDimensions ∪ {[ "ssl" ]}.
Proof.
  unfold buildResults, sixDimensions. cbn [checks].
  rewrite !dom_insert_L, dom_empty_L. set_solver.
Qed.

(** What every run does to the session and what it returns. *)
Lemma Run_facts W address k σ report σ' :
  Run W address k σ report σ' ->
  let n := retryCount (debug report) in
  (k <= n)%nat
  /\ (k <= maxRetries -> n <= maxRetries)%nat
  /\ delays σ' = (delays σ ++ backoff k (n - k))%list
  /\ attemptsLogged σ'
     = (attemptsLogged σ ++ map S (seq k (S (n - k))))%list
  /\ openPages σ ⊆ openPages σ'
  /\ ((report_error report = None
       /\ failed (debug report) = false
       /\ dom (checks report) = sixDimensions ∪ {[ "ssl" ]})
      \/ (exists page e σ0 σ1,
             attemptUrl W address n σ0 = (inl (page, e), σ1)
             /\ ~ (n < maxRetries)%nat
             /\ report = errorReport W address n e)).
Proof.
  induction 1 as [k σ results σ1 Ha | k σ page e σ1 report σ' Ha Hlt _ IH
                 | k σ page e σ1 Ha Hge]; cbv zeta in *.
  - destruct (attemptUrl_results _ _ _ _ _ _ Ha) as (html & cookies & ssl & ->).
    pose proof (attemptUrl_frame W address k σ) as (Hd & Hl & Hp & _).
    rewrite Ha in Hd, Hl, Hp. cbn [snd] in Hd, Hl, Hp.
    cbn [debug buildResults retryCount].
    replace (k - k)%nat with 0%nat by lia. unfold backoff. cbn [seq map].
    rewrite app_nil_r, Hd, Hl. unfold push.
    replace (k + 1)%nat with (S k) by lia.
    repeat split; try lia; try assumption.
    left. split; [reflexivity|]. split; [reflexivity | apply buildResults_keys].
  - pose proof (attemptUrl_frame W address k σ) as (Hd & Hl & Hp & _).
    rewrite Ha in Hd, Hl, Hp. cbn [snd] in Hd, Hl, Hp.
    destruct IH as (Hn & Hmax & Hdel & Hlog & Hpages & Hshape).
    set (n := retryCount (debug report)) in *.
    split; [lia|]. split; [lia|]. split; [|split; [|split]].
    + rewrite Hdel. cbn [delays addDelay]. rewrite Hd. unfold push, backoff.
      replace (n - k)%nat with (S (n - S k)) by lia. cbn [seq map].
      rewrite <- app_assoc. reflexivity.
    + rewrite Hlog. cbn [attemptsLogged addDelay]. rewrite Hl. unfold push.
      replace (S (n - k)) with (S (S (n - S k))) by lia.
      replace (k + 1)%nat with (S k) by lia.
      cbn [seq map]. rewrite <- app_assoc. reflexivity.
    + cbn [openPages addDelay] in Hpages. clear -Hpages Hp. set_solver.
    + exact Hshape.
  - pose proof (attemptUrl_frame W address k σ) as (Hd & Hl & Hp & _).
    rewrite Ha in Hd, Hl, Hp. cbn [snd] in Hd, Hl, Hp.
    cbn [debug errorReport retryCount].
    replace (k - k)%nat with 0%nat by lia. unfold backoff. cbn [seq map].
    rewrite app_nil_r, Hd, Hl. unfold push.
    replace (k + 1)%nat with (S k) by lia.
    repeat split; try lia; try assumption.
    right. exists page, e, σ, σ1. repeat split; assumption.
Qed.

Lemma backoff_doubles (n : nat) :
  (n <= 2)%nat ->
  backoff 0 n = map (fun i => 3000 * 2 ^ Z.of_nat i) (seq 0 n).
Proof.
  intros H. destruct n as [|[|[|n]]]; [reflexivity | reflexivity | reflexivity | lia].
Qed.

Lemma checkUrl_failsThrice W address σ σ3 e2 :
  failsThrice W address σ σ3 e2 ->
  checkUrl W address 0 σ = Some (errorReport W address 2 e2, σ3).
Proof.
  intros (page0 & e0 & σ1 & page1 & e1 & σ2 & page2 & H0 & H1 & H2).
  rewrite checkUrl_unfold, H0. cbn [Nat.ltb Nat.leb maxRetries].
  change (3000 * (Z.of_nat 0 + 1)) with 3000.
  rewrite checkUrl_unfold, H1. cbn [Nat.ltb Nat.leb maxRetries].
  change (3000 * (Z.of_nat 1 + 1)) with 6000.
  rewrite checkUrl_unfold, H2. reflexivity.
Qed.

Lemma checkUrl_succeedsThird W address σ σ3 results :
  succeedsThird W address σ σ3 results ->
  checkUrl W address 0 σ = Some (results, σ3).
Proof.
  intros (page0 & e0 & σ1 & page1 & e1 & σ2 & H0 & H1 & H2).
  rewrite checkUrl_unfold, H0. cbn [Nat.ltb Nat.leb maxRetries].
  change (3000 * (Z.of_nat 0 + 1)) with 3000.
  rewrite checkUrl_unfold, H1. cbn [Nat.ltb Nat.leb maxRetries].
  change (3000 * (Z.of_nat 1 + 1)) with 6000.
  rewrite checkUrl_unfold, H2. reflexivity.
Qed.

Lemma deadWorld_failsThrice :
  exists σ3, failsThrice deadWorld "https://shop.example/" initial σ3
                         "net::ERR_CONNECTION_REFUSED".
Proof. unfold failsThrice. repeat eexists; reflexivity. Qed.

Lemma flakyWorld_succeedsThird :
  exists σ3 results, succeedsThird flakyWorld "https://shop.example/" initial σ3 results.
Proof. unfold succeedsThird. repeat eexists; reflexivity. Qed.

(* ===================================================================== *)
(** * Theorems on the orchestrator *)
(* ===================================================================== *)

(** C1. For every URL, [checkUrl] returns a report: it does not throw and
    the recursion ends.  When the three attempts have all failed, the report
    has score 0, an empty [checks] map and exactly one recommendation, of
    priority ERROR, whose message carries the message of the last failure. *)
Theorem checkUrl_always_resolves W address σ :
  (exists report σ', checkUrl W address 0 σ = Some (report, σ'))
  /\ (forall σ3 e2,
        failsThrice W address σ σ3 e2 ->
        exists report,
          checkUrl W address 0 σ = Some (report, σ3)
          /\ report_score report = num_of_Z 0
          /\ checks report = ∅
          /\ recommendations report
             = [ {| priority := "ERROR"; message := "Chyba pri kontrole: " +:+ e2 |} ]
          /\ report_error report = Some e2)
  /\ (forall report σ',
        checkUrl W address 0 σ = Some (report, σ') ->
        failed (debug report) = true ->
        exists e,
          report_score report = num_of_Z 0
          /\ checks report = ∅
          /\ recommendations report
             = [ {| priority := "ERROR"; message := "Chyba pri kontrole: " +:+ e |} ]).
Proof.
  split; [apply checkUrl_total|]. split.
  - intros σ3 e2 H. exists (errorReport W address 2 e2).
    split; [apply checkUrl_failsThrice; exact H|]. repeat split.
  - intros report σ' H Hfailed. apply checkUrl_Run in H.
    destruct (Run_facts _ _ _ _ _ _ H) as (_ & _ & _ & _ & _ & Hshape).
    destruct Hshape as [(_ & Hok & _) | (page & e & σ0 & σ1 & _ & _ & ->)];
      [congruence|].
    exists e. repeat split.
Qed.

Lemma checkUrl_always_resolves_witness :
  exists σ3 report,
    checkUrl deadWorld "https://shop.example/" 0 initial = Some (report, σ3)
    /\ report_score report = num_of_Z 0
    /\ checks report = ∅
    /\ recommendations report
       = [ {| priority := "ERROR";
              message := "Chyba pri kontrole: net::ERR_CONNECTION_REFUSED" |} ]
    /\ report_error report = Some "net::ERR_CONNECTION_REFUSED".
Proof.
  destruct deadWorld_failsThrice as (σ3 & H).
  destruct (checkUrl_always_resolves deadWorld "https://shop.example/" initial)
    as (_ & Hdead & _).
  destruct (Hdead σ3 _ H) as (report & Hreport).
  exists σ3, report. exact Hreport.
Defined.

(** C2, as the code has it.  The report of a successful attempt has a key
    for the six dimensions and for ssl, and no other, whatever the detectors
    did; the report returned when the retries are used up has an empty
    [checks] map. *)
Theorem checkUrl_checks_keys W address σ report σ' :
  checkUrl W address 0 σ = Some (report, σ') ->
  (report_error report = None
   /\ dom (checks report) = sixDimensions ∪ {[ "ssl" ]})
  \/ (exists e, report_error report = Some e /\ checks report = ∅).
Proof.
  intros H. apply checkUrl_Run in H.
  destruct (Run_facts _ _ _ _ _ _ H) as (_ & _ & _ & _ & _ & Hshape).
  destruct Hshape as [(Hok & _ & Hdom) | (page & e & σ0 & σ1 & _ & _ & ->)].
  - left. split; assumption.
  - right. exists e. split; reflexivity.
Qed.

Lemma checkUrl_checks_keys_witness :
  exists report σ',
    checkUrl steadyWorld "https://shop.example/" 0 initial = Some (report, σ')
    /\ report_error report = None
    /\ dom (checks report) = sixDimensions ∪ {[ "ssl" ]}.
Proof.
  destruct (checkUrl_total steadyWorld "https://shop.example/" 0 initial)
    as (report & σ' & H).
  exists report, σ'. split; [exact H|].
  destruct (checkUrl_checks_keys _ _ _ _ _ H) as [Hok | (e & He & _)]; [exact Hok|].
  exfalso. rewrite checkUrl_unfold in H.
  destruct (attemptUrl steadyWorld "https://shop.example/" 0 initial)
    as [[[page e']|results] σ1] eqn:Ha; [vm_compute in Ha; discriminate Ha|].
  injection H as <- <-.
  destruct (attemptUrl_results _ _ _ _ _ _ Ha) as (html & cookies & ssl & ->).
  discriminate He.
Defined.

(** C2, as stated, fails: the report returned after three failed attempts
    has no key at all (and a successful report has the key ssl besides the
    six). *)
Lemma checks_keys_not_six :
  ~ (forall W address σ report σ',
       checkUrl W address 0 σ = Some (report, σ') ->
       dom (checks report) = sixDimensions).
Proof.
  intros H. destruct deadWorld_failsThrice as (σ3 & Hdead).
  specialize (H _ _ _ _ _ (checkUrl_failsThrice _ _ _ _ _ Hdead)).
  cbn [checks errorReport] in H. rewrite dom_empty_L in H.
  assert (Hin : "cookies" ∈ sixDimensions) by (unfold sixDimensions; set_solver).
  rewrite <- H in Hin. set_solver.
Qed.

(** C7. The retry ceiling is 2, so a run makes at most 3 attempts; the
    delays between the attempts are 3000 ms and 6000 ms, each twice the one
    before; two failures followed by a success give the successful report
    with debug.retryCount = 2; three failures give the error report, with
    score 0. *)
Theorem checkUrl_retry_schedule W address σ :
  maxRetries = 2%nat
  /\ (forall report σ',
        checkUrl W address 0 σ = Some (report, σ') ->
        let n := retryCount (debug report) in
        (n <= 2)%nat
        /\ attemptsLogged σ' = (attemptsLogged σ ++ seq 1 (S n))%list
        /\ delays σ' = (delays σ ++ map (fun i => 3000 * 2 ^ Z.of_nat i) (seq 0 n))%list)
  /\ (forall σ3 results,
        succeedsThird W address σ σ3 results ->
        checkUrl W address 0 σ = Some (results, σ3)
        /\ retryCount (debug results) = 2%nat
        /\ report_error results = None
        /\ failed (debug results) = false
        /\ delays σ3 = (delays σ ++ [3000; 6000])%list)
  /\ (forall σ3 e2,
        failsThrice W address σ σ3 e2 ->
        exists report,
          checkUrl W address 0 σ = Some (report, σ3)
          /\ report_error report = Some e2
          /\ failed (debug report) = true
          /\ retryCount (debug report) = 2%nat
          /\ report_score report = num_of_Z 0
          /\ attemptsLogged σ3 = (attemptsLogged σ ++ [1; 2; 3]%nat)%list
          /\ delays σ3 = (delays σ ++ [3000; 6000])%list).
Proof.
  split; [reflexivity|]. split; [|split].
  - intros report σ' H n. apply checkUrl_Run in H.
    destruct (Run_facts _ _ _ _ _ _ H) as (_ & Hmax & Hdel & Hlog & _ & _).
    fold n in Hmax, Hdel, Hlog.
    assert (Hn : (n <= 2)%nat) by (apply Hmax; unfold maxRetries; lia).
    rewrite Nat.sub_0_r in Hdel, Hlog. rewrite seq_shift in Hlog.
    rewrite backoff_doubles in Hdel by exact Hn.
    split; [exact Hn|]. split; assumption.
  - intros σ3 results H.
    pose proof (checkUrl_succeedsThird _ _ _ _ _ H) as Hrun.
    destruct H as (page0 & e0 & σ1 & page1 & e1 & σ2 & H0 & H1 & H2).
    destruct (attemptUrl_results _ _ _ _ _ _ H2) as (html & cookies & ssl & Hres).
    assert (Hcount : retryCount (debug results) = 2%nat) by (rewrite Hres; reflexivity).
    split; [exact Hrun|]. split; [exact Hcount|].
    split; [rewrite Hres; reflexivity|]. split; [rewrite Hres; reflexivity|].
    apply checkUrl_Run in Hrun.
    destruct (Run_facts _ _ _ _ _ _ Hrun) as (_ & _ & Hdel & _).
    rewrite Hcount in Hdel. exact Hdel.
  - intros σ3 e2 H. exists (errorReport W address 2 e2).
    pose proof (checkUrl_failsThrice _ _ _ _ _ H) as Hrun.
    split; [exact Hrun|]. do 4 (split; [reflexivity|]).
    apply checkUrl_Run in Hrun.
    destruct (Run_facts _ _ _ _ _ _ Hrun) as (_ & _ & Hdel & Hlog & _).
    split; [exact Hlog | exact Hdel].
Qed.

Lemma checkUrl_retry_schedule_witness :
  (exists σ3 results,
      checkUrl flakyWorld "https://shop.example/" 0 initial = Some (results, σ3)
      /\ retryCount (debug results) = 2%nat
      /\ report_error results = None
      /\ failed (debug results) = false
      /\ delays σ3 = [3000; 6000])
  /\ (exists σ3 report,
         checkUrl deadWorld "https://shop.example/" 0 initial = Some (report, σ3)
         /\ report_error report = Some "net::ERR_CONNECTION_REFUSED"
         /\ failed (debug report) = true
         /\ retryCount (debug report) = 2%nat
         /\ report_score report = num_of_Z 0
         /\ attemptsLogged σ3 = [1; 2; 3]%nat
         /\ delays σ3 = [3000; 6000]).
Proof.
  split.
  - destruct flakyWorld_succeedsThird as (σ3 & results & H).
    destruct (checkUrl_retry_schedule flakyWorld "https://shop.example/" initial)
      as (_ & _ & Hflaky & _).
    exists σ3, results. exact (Hflaky σ3 results H).
  - destruct deadWorld_failsThrice as (σ3 & H).
    destruct (checkUrl_retry_schedule deadWorld "https://shop.example/" initial)
      as (_ & _ & _ & Hdead).
    destruct (Hdead σ3 _ H) as (report & Hreport).
    exists σ3, report. exact Hreport.
Defined.

(** C8. [checkSSL] returns a result for every URL and never rejects.  For a
    URL that is not HTTPS it returns valid = false with the explanation and
    opens no connection; a URL that does not parse and a socket error after
    the connection both give valid = false with a detail message. *)
Theorem checkSSL_never_rejects W a address σ :
  (exists valid details σ',
      checkSSL W a address σ = (inr (sslResult valid details), σ'))
  /\ (forall parsed,
        parseURL W address = inr parsed ->
        protocol parsed <> "https:" ->
        checkSSL W a address σ
        = (inr (sslResult false "Stránka nepoužíva HTTPS protokol."), σ))
  /\ (forall err,
        parseURL W address = inl err ->
        checkSSL W a address σ
        = (inr (sslResult false ("Výnimka pri kontrole SSL: " +:+ err)), σ))
  /\ (forall parsed message,
        parseURL W address = inr parsed ->
        protocol parsed = "https:" ->
        tls a = SocketError message ->
        checkSSL W a address σ
        = (inr (sslResult false ("Chyba pri kontrole SSL: " +:+ message)),
           addConnection (hostname parsed) σ)).
Proof.
  unfold checkSSL. split; [|split; [|split]].
  - destruct (parseURL W address) as [err|parsed]; [eexists _, _, _; reflexivity|].
    destruct (negb (String.eqb (protocol parsed) "https:"));
      [eexists _, _, _; reflexivity|].
    unfold mbind, Op_bind, connect, modify. cbv beta iota.
    destruct (tls a) as [authorized cert|message]; [|eexists _, _, _; reflexivity].
    unfold onSecureConnect.
    destruct (valid_to cert); eexists _, _, _; reflexivity.
  - intros parsed -> Hproto.
    apply String.eqb_neq in Hproto. rewrite Hproto. reflexivity.
  - intros err ->. reflexivity.
  - intros parsed message -> Hproto ->.
    apply String.eqb_eq in Hproto. rewrite Hproto. reflexivity.
Qed.

Lemma checkSSL_never_rejects_witness :
  checkSSL steadyWorld loads "http://shop.example/" initial
  = (inr (sslResult false "Stránka nepoužíva HTTPS protokol."), initial)
  /\ checkSSL deadWorld refused "https://shop.example/" initial
     = (inr (sslResult false "Chyba pri kontrole SSL: connect ECONNREFUSED"),
        addConnection "shop.example" initial).
Proof.
  split.
  - destruct (checkSSL_never_rejects steadyWorld loads "http://shop.example/" initial)
      as (_ & H & _).
    apply (H {| protocol := "http:"; hostname := "shop.example" |});
      [reflexivity | discriminate].
  - destruct (checkSSL_never_rejects deadWorld refused "https://shop.example/" initial)
      as (_ & _ & _ & H).
    apply (H {| protocol := "https:"; hostname := "shop.example" |}
             "connect ECONNREFUSED"); reflexivity.
Defined.

(** C9 does not hold of the code.  [checkUrl] never closes a page: every
    page that was open before the call is open after it, and so is every
    page an attempt of the call has opened. *)
Lemma checkUrl_closes_nothing W address σ report σ' :
  checkUrl W address 0 σ = Some (report, σ') ->
  openPages σ ⊆ openPages σ'
  /\ forall page σ0, openPage W address 0 σ = (inr page, σ0) -> page ∈ openPages σ'.
Proof.
  intros H. apply checkUrl_Run in H.
  destruct (Run_facts _ _ _ _ _ _ H) as (_ & _ & _ & _ & Hpages & _).
  split; [exact Hpages|].
  intros page σ0 Hopen.
  pose proof (attemptUrl_frame W address 0 σ) as (_ & _ & _ & Hpage).
  specialize (Hpage page σ0 Hopen).
  inversion H as [k s results σ1 Ha | k s p e σ1 r s' Ha Hlt Hrest
                 | k s p e σ1 Ha Hge]; subst.
  - rewrite Ha in Hpage. exact Hpage.
  - rewrite Ha in Hpage. cbn [snd] in Hpage.
    destruct (Run_facts _ _ _ _ _ _ Hrest) as (_ & _ & _ & _ & Hsub & _).
    cbn [openPages addDelay] in Hsub. set_solver.
  - rewrite Ha in Hpage. exact Hpage.
Qed.

(** C9 at a concrete input: after a successful audit with a fresh session
    the page of the audit is still open, and after three failed attempts the
    three pages of the attempts are. *)
Theorem checkUrl_leaves_pages_open :
  (exists report σ',
      checkUrl steadyWorld "https://shop.example/" 0 initial = Some (report, σ')
      /\ report_error report = None
      /\ openPages σ' = {[ 0%nat ]})
  /\ (exists report σ',
         checkUrl deadWorld "https://shop.example/" 0 initial = Some (report, σ')
         /\ failed (debug report) = true
         /\ openPages σ' = {[ 0%nat; 1%nat; 2%nat ]}).
Proof.
  split.
  - eexists _, _. split; [reflexivity|]. split; [reflexivity|].
    cbn. set_solver.
  - eexists _, _. split; [reflexivity|]. split; [reflexivity|].
    cbn. set_solver.
Qed.

(* ===================================================================== *)
(** * The weighted score in binary64 *)
(* ===================================================================== *)

Lemma pow2_pos (k : Z) : 0 <= k -> 0 < 2 ^ k.
Proof. intros H. apply Z.pow_pos_nonneg; lia. Qed.

Lemma pow2_split (j k : Z) : 0 <= j -> 0 <= k -> 2 ^ (j + k) = 2 ^ j * 2 ^ k.
Proof. intros Hj Hk. apply Z.pow_add_r; assumption. Qed.

Lemma digits2_pos_bounds (m : positive) :
  2 ^ (Zpos (digits2_pos m) - 1) <= Zpos m < 2 ^ Zpos (digits2_pos m).
Proof.
  induction m as [m IH|m IH|]; cbn [digits2_pos].
  - rewrite Pos2Z.inj_succ. change (Z.pos m~1) with (2 * Z.pos m + 1).
    replace (Z.succ (Zpos (digits2_pos m)) - 1) with (Z.succ (Zpos (digits2_pos m) - 1)) by lia.
    rewrite !Z.pow_succ_r by lia.
    set (lo := 2 ^ (Zpos (digits2_pos m) - 1)) in *.
    set (hi := 2 ^ Zpos (digits2_pos m)) in *. clearbody lo hi. lia.
  - rewrite Pos2Z.inj_succ. change (Z.pos m~0) with (2 * Z.pos m).
    replace (Z.succ (Zpos (digits2_pos m)) - 1) with (Z.succ (Zpos (digits2_pos m) - 1)) by lia.
    rewrite !Z.pow_succ_r by lia.
    set (lo := 2 ^ (Zpos (digits2_pos m) - 1)) in *.
    set (hi := 2 ^ Zpos (digits2_pos m)) in *. clearbody lo hi. lia.
  - simpl. lia.
Qed.

Lemma shr_1_shifted (a : shr_record) : 0 <= shr_m a -> shifted 1 a (shr_1 a).
Proof.
  destruct a as [m r s]. cbn [shr_m]. intros Hm. unfold shifted.
  change (2 ^ 1) with 2.
  destruct m as [|[p|p|]|p]; cbn [shr_1 shr_m shr_r shr_s]; try lia.
  - split; [reflexivity|]. intros _ -> ->. split; reflexivity.
  - change (Z.pos p~1) with (2 * Z.pos p + 1).
    split; [apply Z.div_unique with 1; lia|].
    intros H. exfalso.
    rewrite Z.add_comm, Z.mul_comm, Z.mod_add in H by lia. discriminate H.
  - change (Z.pos p~0) with (2 * Z.pos p).
    split; [apply Z.div_unique with 0; lia|].
    intros _ -> ->. split; reflexivity.
  - split; [reflexivity|]. intros H. discriminate H.
Qed.

Lemma shifted_nonneg k a b : 0 <= k -> 0 <= shr_m a -> shifted k a b -> 0 <= shr_m b.
Proof.
  intros Hk Ha [-> _]. apply Z.div_pos; [exact Ha | apply pow2_pos; exact Hk].
Qed.

Lemma shifted_trans j k a b c :
  0 <= j -> 0 <= k -> 0 <= shr_m a ->
  shifted j a b -> shifted k b c -> shifted (j + k) a c.
Proof.
  intros Hj Hk Ha [Hb Hbe] [Hc Hce].
  pose proof (pow2_pos j Hj) as Pj. pose proof (pow2_pos k Hk) as Pk.
  split.
  - rewrite Hc, Hb, pow2_split by assumption. apply Z.div_div; lia.
  - intros Hmod Hr Hs.
    rewrite pow2_split in Hmod by assumption.
    assert (Hdiv : (2 ^ j * 2 ^ k | shr_m a)) by (apply Z.mod_divide; [lia | exact Hmod]).
    destruct Hdiv as [t Ht].
    assert (Hmj : shr_m a mod 2 ^ j = 0).
    { apply Z.mod_divide; [lia|]. exists (t * 2 ^ k). rewrite Ht. ring. }
    destruct (Hbe Hmj Hr Hs) as [Hbr Hbs].
    apply Hce; [|exact Hbr | exact Hbs].
    rewrite Hb, Ht.
    replace (t * (2 ^ j * 2 ^ k)) with (t * 2 ^ k * 2 ^ j) by ring.
    rewrite Z.div_mul by lia. apply Z.mod_mul. lia.
Qed.

Lemma iter_shr_shifted (p : positive) :
  forall a, 0 <= shr_m a -> shifted (Zpos p) a (SpecFloat.iter_pos shr_1 p a).
Proof.
  induction p as [p IH|p IH|]; intros a Ha; cbn [SpecFloat.iter_pos].
  - pose proof (shr_1_shifted a Ha) as H1.
    pose proof (shifted_nonneg 1 _ _ ltac:(lia) Ha H1) as Hb.
    pose proof (IH _ Hb) as H2.
    pose proof (shifted_nonneg (Zpos p) _ _ ltac:(lia) Hb H2) as Hc.
    pose proof (IH _ Hc) as H3.
    rewrite Pos2Z.inj_xI.
    replace (2 * Zpos p + 1) with (1 + (Zpos p + Zpos p)) by lia.
    eapply shifted_trans; [lia | lia | exact Ha | exact H1 |].
    eapply shifted_trans; [lia | lia | exact Hb | exact H2 | exact H3].
  - pose proof (IH _ Ha) as H2.
    pose proof (shifted_nonneg (Zpos p) _ _ ltac:(lia) Ha H2) as Hc.
    pose proof (IH _ Hc) as H3.
    rewrite Pos2Z.inj_xO.
    replace (2 * Zpos p) with (Zpos p + Zpos p) by lia.
    eapply shifted_trans; [lia | lia | exact Ha | exact H2 | exact H3].
  - apply shr_1_shifted. exact Ha.
Qed.

Lemma below_div (B m e n : Z) :
  0 <= m -> 0 < n -> below B m e -> below B (m / 2 ^ n) (e + n).
Proof.
  unfold below. intros Hm Hn H.
  pose proof (pow2_pos n ltac:(lia)) as Pn.
  pose proof (Z.mul_div_le m (2 ^ n) Pn) as Hq.
  assert (Hq0 : 0 <= m / 2 ^ n) by (apply Z.div_pos; lia).
  set (q := m / 2 ^ n) in *. clearbody q.
  destruct (Z_le_gt_dec 0 e) as [He|He].
  - replace (Z.max e 0) with e in H by lia.
    replace (Z.max (- e) 0) with 0 in H by lia.
    replace (Z.max (e + n) 0) with (e + n) by lia.
    replace (Z.max (- (e + n)) 0) with 0 by lia.
    rewrite pow2_split by lia.
    pose proof (pow2_pos e He) as Pe.
    change (2 ^ 0) with 1 in *. nia.
  - replace (Z.max e 0) with 0 in H by lia.
    replace (Z.max (- e) 0) with (- e) in H by lia.
    change (2 ^ 0) with 1 in H.
    destruct (Z_le_gt_dec (e + n) 0) as [Hg|Hg].
    + replace (Z.max (e + n) 0) with 0 by lia.
      replace (Z.max (- (e + n)) 0) with (- (e + n)) by lia.
      change (2 ^ 0) with 1.
      replace (- e) with (- (e + n) + n) in H by lia.
      rewrite pow2_split in H by lia.
      pose proof (pow2_pos (- (e + n)) ltac:(lia)) as Px.
      set (X := 2 ^ (- (e + n))) in *. set (P := 2 ^ n) in *. clearbody X P. nia.
    + replace (Z.max (e + n) 0) with (e + n) by lia.
      replace (Z.max (- (e + n)) 0) with 0 by lia.
      change (2 ^ 0) with 1.
      assert (HP : 2 ^ n = 2 ^ (e + n) * 2 ^ (- e))
        by (rewrite <- pow2_split by lia; f_equal; lia).
      pose proof (pow2_pos (- e) ltac:(lia)) as Px.
      pose proof (pow2_pos (e + n) ltac:(lia)) as Py.
      set (X := 2 ^ (- e)) in *. set (Y := 2 ^ (e + n)) in *. set (P := 2 ^ n) in *.
      clearbody X Y P. nia.
Qed.

Lemma round_nearest_even_bounds (q : Z) (l : location) :
  q <= round_nearest_even q l <= q + 1.
Proof.
  destruct l as [|[| |]]; cbn [round_nearest_even]; try lia.
  destruct (Z.even q); lia.
Qed.

Lemma loc_of_exact (mrs : shr_record) :
  shr_r mrs = false -> shr_s mrs = false -> loc_of_shr_record mrs = loc_Exact.
Proof. destruct mrs as [m r s]; cbn. intros -> ->. reflexivity. Qed.

(** A value below 2^53 is rounded on a grid of step at most 1. *)
Lemma fexp_nonpos (B : Z) (M : positive) (e : Z) :
  0 <= B < 2 ^ 53 ->
  below B (Zpos M) e ->
  fexp 53 1024 (Zdigits2 (Zpos M) + e) <= 0.
Proof.
  intros HB H. unfold fexp, SpecFloat.emin. cbn [Zdigits2].
  destruct (Z_le_gt_dec (Zpos (digits2_pos M) + e - 53) 0) as [Hd|Hd]; [lia|].
  exfalso. unfold below in H.
  pose proof (digits2_pos_bounds M) as [Hlo _].
  set (d := Zpos (digits2_pos M)) in *.
  assert (Hd1 : 0 <= d - 1) by (subst d; lia).
  destruct (Z_le_gt_dec 0 e) as [He|He].
  - replace (Z.max e 0) with e in H by lia.
    replace (Z.max (- e) 0) with 0 in H by lia. change (2 ^ 0) with 1 in H.
    assert (Hbig : 2 ^ 53 <= 2 ^ (d - 1) * 2 ^ e).
    { rewrite <- pow2_split by lia. apply Z.pow_le_mono_r; lia. }
    pose proof (pow2_pos e He) as Pe.
    set (L := 2 ^ (d - 1)) in *. set (E := 2 ^ e) in *. clearbody L E. nia.
  - replace (Z.max e 0) with 0 in H by lia.
    replace (Z.max (- e) 0) with (- e) in H by lia. change (2 ^ 0) with 1 in H.
    assert (Hbig : 2 ^ 53 * 2 ^ (- e) <= 2 ^ (d - 1)).
    { rewrite <- pow2_split by lia. apply Z.pow_le_mono_r; lia. }
    pose proof (pow2_pos (- e) ltac:(lia)) as Pe.
    set (L := 2 ^ (d - 1)) in *. set (E := 2 ^ (- e)) in *. clearbody L E. nia.
Qed.

(** The first half of [binary_round_aux]: shift to the grid and round. *)
Lemma stage_round (B : Z) (M : positive) (e : Z) :
  0 <= B < 2 ^ 53 ->
  below B (Zpos M) e ->
  forall mrs e',
    shr_fexp 53 1024 (Zpos M) e loc_Exact = (mrs, e') ->
    0 <= round_nearest_even (shr_m mrs) (loc_of_shr_record mrs)
    /\ below B (round_nearest_even (shr_m mrs) (loc_of_shr_record mrs)) e'.
Proof.
  intros HB H mrs e' Hshr.
  pose proof (fexp_nonpos B M e HB H) as Hg.
  unfold shr_fexp, shr in Hshr. cbn [shr_record_of_loc] in Hshr.
  destruct (fexp 53 1024 (Zdigits2 (Zpos M) + e) - e) as [|p|p] eqn:En;
    injection Hshr as <- <-; cbn [shr_m loc_of_shr_record round_nearest_even];
    try (split; [lia | exact H]).
  assert (Ha : 0 <= shr_m {| shr_m := Zpos M; shr_r := false; shr_s := false |})
    by (cbn; lia).
  destruct (iter_shr_shifted p _ Ha) as [Hm Hexact]. cbn [shr_m shr_r shr_s] in Hm, Hexact.
  set (mrs := SpecFloat.iter_pos shr_1 p _) in *.
  pose proof (round_nearest_even_bounds (shr_m mrs) (loc_of_shr_record mrs)) as Hrne.
  pose proof (pow2_pos (Zpos p) ltac:(lia)) as Pp.
  assert (Hq0 : 0 <= shr_m mrs) by (rewrite Hm; apply Z.div_pos; lia).
  split; [lia|].
  assert (He : e < 0) by lia.
  unfold below in *.
  replace (Z.max e 0) with 0 in H by lia.
  replace (Z.max (- e) 0) with (- e) in H by lia.
  replace (Z.max (e + Zpos p) 0) with 0 by lia.
  replace (Z.max (- (e + Zpos p)) 0) with (- (e + Zpos p)) by lia.
  change (2 ^ 0) with 1 in *.
  replace (- e) with (- (e + Zpos p) + Zpos p) in H by lia.
  rewrite pow2_split in H by lia.
  pose proof (pow2_pos (- (e + Zpos p)) ltac:(lia)) as Px.
  pose proof (Z.div_mod (Zpos M) (2 ^ Zpos p) ltac:(lia)) as Hdm.
  pose proof (Z.mod_pos_bound (Zpos M) (2 ^ Zpos p) Pp) as Hrem.
  rewrite <- Hm in Hdm.
  destruct (Z.eq_dec (Zpos M mod 2 ^ Zpos p) 0) as [Hz|Hnz].
  - destruct (Hexact Hz eq_refl eq_refl) as [Hr Hs].
    rewrite (loc_of_exact mrs Hr Hs). cbn [round_nearest_even].
    rewrite Hz in Hdm.
    set (X := 2 ^ (- (e + Zpos p))) in *. set (P := 2 ^ Zpos p) in *.
    set (q := shr_m mrs) in *. clearbody X P q. nia.
  - set (m1 := round_nearest_even _ _) in *.
    set (X := 2 ^ (- (e + Zpos p))) in *. set (P := 2 ^ Zpos p) in *.
    set (q := shr_m mrs) in *. set (r := Zpos M mod P) in *.
    clearbody X P q r m1. nia.
Qed.

(** The second half: shift again if the rounding has carried. *)
Lemma stage_trunc (B m e : Z) :
  0 <= m ->
  below B m e ->
  forall mrs e',
    shr_fexp 53 1024 m e loc_Exact = (mrs, e') ->
    0 <= shr_m mrs /\ below B (shr_m mrs) e'.
Proof.
  intros Hm0 H mrs e' Hshr.
  unfold shr_fexp, shr in Hshr. cbn [shr_record_of_loc] in Hshr.
  destruct (fexp 53 1024 (Zdigits2 m + e) - e) as [|p|p] eqn:En;
    injection Hshr as <- <-; cbn [shr_m]; try (split; [lia | exact H]).
  assert (Ha : 0 <= shr_m {| shr_m := m; shr_r := false; shr_s := false |})
    by (cbn; lia).
  destruct (iter_shr_shifted p _ Ha) as [Hm _]. cbn [shr_m] in Hm.
  rewrite Hm. split.
  - apply Z.div_pos; [lia | apply pow2_pos; lia].
  - apply below_div; [lia | lia | exact H].
Qed.

(** Rounding a positive value that is at most [B] gives +0 or a positive
    double that is at most [B]. *)
Lemma binary_round_aux_below (B : Z) (M : positive) (e : Z) :
  0 <= B < 2 ^ 53 ->
  below B (Zpos M) e ->
  Total B (binary_round_aux 53 1024 false (Zpos M) e loc_Exact).
Proof.
  intros HB H. unfold binary_round_aux.
  destruct (shr_fexp 53 1024 (Zpos M) e loc_Exact) as [mrs' e'] eqn:E1.
  destruct (stage_round B M e HB H mrs' e' E1) as [Hm1 Hb1].
  destruct (shr_fexp 53 1024 (round_nearest_even (shr_m mrs') (loc_of_shr_record mrs'))
                     e' loc_Exact) as [mrs'' e''] eqn:E2.
  destruct (stage_trunc B _ e' Hm1 Hb1 mrs'' e'' E2) as [Hm2 Hb2].
  destruct (shr_m mrs'') as [|m|m] eqn:Em; [constructor| |lia].
  assert (He : e'' <= 1024 - 53).
  { destruct (Z_le_gt_dec e'' 971) as [Hle|Hgt]; [lia|]. exfalso.
    unfold below in Hb2.
    replace (Z.max e'' 0) with e'' in Hb2 by lia.
    replace (Z.max (- e'') 0) with 0 in Hb2 by lia. change (2 ^ 0) with 1 in Hb2.
    assert (Hbig : 2 ^ 53 <= 2 ^ e'') by (apply Z.pow_le_mono_r; lia).
    set (E := 2 ^ e'') in *. clearbody E. nia. }
  apply Z.leb_le in He. rewrite He. constructor. exact Hb2.
Qed.

Lemma below_mono (B B' m e : Z) : B <= B' -> below B m e -> below B' m e.
Proof.
  unfold below. intros HB H.
  pose proof (pow2_pos (Z.max (- e) 0) ltac:(lia)) as P.
  set (X := 2 ^ Z.max (- e) 0) in *. clearbody X. nia.
Qed.

Lemma Total_mono (B B' : Z) (t : number) : B <= B' -> Total B t -> Total B' t.
Proof.
  intros HB [|m e H]; constructor. eapply below_mono; [exact HB | exact H].
Qed.

Lemma Total_Product (B : Z) (t : number) : Total B t -> Product B t.
Proof. intros [|m e H]; constructor. exact H. Qed.

(** The same value on a finer grid. *)
Lemma below_align (B m e k : Z) : 0 <= k -> below B m e -> below B (m * 2 ^ k) (e - k).
Proof.
  unfold below. intros Hk H.
  pose proof (pow2_pos k Hk) as Pk.
  destruct (Z_le_gt_dec e 0) as [He|He].
  - replace (Z.max e 0) with 0 in H by lia.
    replace (Z.max (- e) 0) with (- e) in H by lia.
    replace (Z.max (e - k) 0) with 0 by lia.
    replace (Z.max (- (e - k)) 0) with (- e + k) by lia.
    rewrite pow2_split by lia. change (2 ^ 0) with 1 in *.
    pose proof (pow2_pos (- e) ltac:(lia)) as Pe.
    set (X := 2 ^ (- e)) in *. set (P := 2 ^ k) in *. clearbody X P. nia.
  - replace (Z.max e 0) with e in H by lia.
    replace (Z.max (- e) 0) with 0 in H by lia. change (2 ^ 0) with 1 in H.
    destruct (Z_le_gt_dec k e) as [Hke|Hke].
    + replace (Z.max (e - k) 0) with (e - k) by lia.
      replace (Z.max (- (e - k)) 0) with 0 by lia. change (2 ^ 0) with 1.
      replace e with (k + (e - k)) in H at 1 by lia.
      rewrite pow2_split in H by lia.
      set (X := 2 ^ (e - k)) in *. set (P := 2 ^ k) in *. clearbody X P. nia.
    + replace (Z.max (e - k) 0) with 0 by lia.
      replace (Z.max (- (e - k)) 0) with (k - e) by lia. change (2 ^ 0) with 1.
      assert (HP : 2 ^ k = 2 ^ e * 2 ^ (k - e))
        by (rewrite <- pow2_split by lia; f_equal; lia).
      pose proof (pow2_pos e ltac:(lia)) as Pe.
      pose proof (pow2_pos (k - e) ltac:(lia)) as Px.
      set (X := 2 ^ (k - e)) in *. set (E := 2 ^ e) in *. set (P := 2 ^ k) in *.
      clearbody X E P. nia.
Qed.

Lemma iter_xO (m d : positive) : Zpos (Pos.iter xO m d) = Zpos m * 2 ^ Zpos d.
Proof.
  revert m. induction d as [|d IH] using Pos.peano_ind; intros m.
  - cbn [Pos.iter]. change (Zpos m~0) with (2 * Zpos m). change (2 ^ 1) with 2. lia.
  - rewrite Pos.iter_succ, Pos2Z.inj_succ, Z.pow_succ_r by lia.
    change (Zpos (Pos.iter xO m d)~0) with (2 * Zpos (Pos.iter xO m d)).
    rewrite IH. ring.
Qed.

(** [shl_align] keeps the value and lowers the exponent. *)
Lemma shl_align_spec (mx : positive) (ex ex' : Z) :
  exists k, 0 <= k
    /\ Zpos (fst (shl_align mx ex ex')) = Zpos mx * 2 ^ k
    /\ snd (shl_align mx ex ex') = ex - k
    /\ (ex' <= ex -> k = ex - ex').
Proof.
  unfold shl_align. destruct (ex' - ex) as [|d|d] eqn:E; cbn [fst snd].
  - exists 0. repeat split; try lia; change (2 ^ 0) with 1; lia.
  - exists 0. repeat split; try lia; change (2 ^ 0) with 1; lia.
  - exists (Zpos d). repeat split; try lia; apply iter_xO.
Qed.

(** Adding a product to the running total. *)
Lemma add_below (B1 B2 : Z) (t y : number) :
  0 <= B1 -> 0 <= B2 -> B1 + B2 < 2 ^ 53 ->
  Total B1 t -> Product B2 y -> Total (B1 + B2) (JsNumber.add t y).
Proof.
  intros H1 H2 Hsum [|m1 e1 Ht] [s|m2 e2 Hy]; unfold JsNumber.add, SFadd.
  - destruct s; constructor.
  - constructor. eapply below_mono; [|exact Hy]. lia.
  - constructor. eapply below_mono; [|exact Ht]. lia.
  - cbn [cond_Zopp].
    destruct (shl_align_spec m1 e1 (Z.min e1 e2)) as (k1 & Hk1 & Ha & _ & Hk1').
    destruct (shl_align_spec m2 e2 (Z.min e1 e2)) as (k2 & Hk2 & Hb & _ & Hk2').
    specialize (Hk1' ltac:(lia)). specialize (Hk2' ltac:(lia)).
    set (a := fst (shl_align m1 e1 (Z.min e1 e2))) in *.
    set (b := fst (shl_align m2 e2 (Z.min e1 e2))) in *.
    change (Zpos a + Zpos b) with (Zpos (a + b)).
    cbn [binary_normalize]. unfold binary_round.
    assert (Hs : below (B1 + B2) (Zpos (a + b)) (Z.min e1 e2)).
    { pose proof (below_align B1 _ _ k1 Hk1 Ht) as Ha'.
      pose proof (below_align B2 _ _ k2 Hk2 Hy) as Hb'.
      rewrite <- Ha in Ha'. rewrite <- Hb in Hb'.
      replace (e1 - k1) with (Z.min e1 e2) in Ha' by lia.
      replace (e2 - k2) with (Z.min e1 e2) in Hb' by lia.
      unfold below in *. rewrite Pos2Z.inj_add.
      set (X := 2 ^ Z.max (Z.min e1 e2) 0) in *.
      set (Y := 2 ^ Z.max (- Z.min e1 e2) 0) in *. clearbody X Y. nia. }
    destruct (shl_align_spec (a + b) (Z.min e1 e2)
                (fexp 53 1024 (Zpos (digits2_pos (a + b)) + Z.min e1 e2)))
      as (k & Hk & Hz & Hez & _).
    destruct (shl_align (a + b) (Z.min e1 e2) _) as [mz ez]. cbn [fst snd] in Hz, Hez.
    apply binary_round_aux_below; [lia|].
    rewrite Hz, Hez. apply below_align; assumption.
Qed.

Lemma inRange_cases (x : number) :
  inRange x ->
  (exists s, x = S754_zero s)
  \/ exists m e,
       x = S754_finite false m e
       /\ ((e < -46 /\ Zpos m < 2 ^ 53)
           \/ (e = -46 /\ Zpos m <= 7036874417766400)).
Proof.
  intros (Hvalid & Hlo & Hhi).
  destruct x as [s|s| |s m e]; [left; exists s; reflexivity | | discriminate Hlo |].
  - destruct s; [discriminate Hlo | discriminate Hhi].
  - right. destruct s; [discriminate Hlo|]. exists m, e. split; [reflexivity|].
    unfold is_double, valid_binary, bounded, canonical_mantissa in Hvalid.
    apply andb_true_iff in Hvalid as [Hcanon _]. apply Z.eqb_eq in Hcanon.
    unfold fexp, SpecFloat.emin, prec, emax in Hcanon.
    pose proof (digits2_pos_bounds m) as [_ Hdigits].
    assert (Hm : Zpos m < 2 ^ 53).
    { eapply Z.lt_le_trans; [exact Hdigits|]. apply Z.pow_le_mono_r; lia. }
    unfold JsNumber.leb, SFleb, SFcompare in Hhi.
    change (num_of_Z 100) with (S754_finite false 7036874417766400 (-46)) in Hhi.
    cbn iota in Hhi.
    destruct (Z.compare_spec e (-46)) as [Heq|Hlt|Hgt].
    + right. split; [exact Heq|].
      rewrite Pos.compare_cont_spec in Hhi. cbn [Pos.switch_Eq] in Hhi.
      destruct (m ?= 7036874417766400)%positive eqn:E; try discriminate Hhi.
      * apply Pos.compare_eq in E. rewrite E. apply Z.le_refl.
      * apply Z.lt_le_incl. exact E.
    + left. split; assumption.
    + discriminate Hhi.
Qed.

Lemma mul_below (w : number) (B : Z) (x : number) :
  weightShare w B -> inRange x -> Product B (JsNumber.mul x w).
Proof.
  intros (mw & ew & -> & Hew & HB & Hpred & Hsmall & Hfull) Hx.
  destruct (inRange_cases x Hx) as [[s ->] | (m & e & -> & Hcases)].
  - cbn. constructor.
  - destruct (Pos.eq_dec m 7036874417766400%positive) as [Hm|Hm];
      [destruct (Z.eq_dec e (-46)) as [He|He]|].
    + subst m e. exact Hfull.
    + assert (Hlt : e < -46 /\ Zpos m < 2 ^ 53) by (destruct Hcases as [H|[H _]]; [exact H | lia]).
      clear Hcases. destruct Hlt as [He' Hm'].
      unfold JsNumber.mul, SFmul. cbn [xorb].
      assert (Hb : below B (Zpos (m * mw)) (e + ew)).
      { unfold below. rewrite Pos2Z.inj_mul.
        replace (Z.max (e + ew) 0) with 0 by lia.
        replace (Z.max (- (e + ew)) 0) with (47 - ew + (- e - 47)) by lia.
        rewrite pow2_split by lia. change (2 ^ 0) with 1.
        pose proof (pow2_pos (- e - 47) ltac:(lia)) as Px.
        pose proof (pow2_pos (47 - ew) ltac:(lia)) as Py.
        set (X := 2 ^ (- e - 47)) in *. set (Y := 2 ^ (47 - ew)) in *.
        set (T := 2 ^ 53) in *. clearbody X Y T. nia. }
      apply Total_Product. exact (binary_round_aux_below B _ _ HB Hb).
    + unfold JsNumber.mul, SFmul. cbn [xorb].
      assert (Hb : below B (Zpos (m * mw)) (e + ew)).
      { unfold below. rewrite Pos2Z.inj_mul.
        replace (Z.max (e + ew) 0) with 0 by lia.
        change (2 ^ 0) with 1.
        destruct Hcases as [[He' Hm']|[He' Hm']].
        - replace (Z.max (- (e + ew)) 0) with (47 - ew + (- e - 47)) by lia.
          rewrite pow2_split by lia.
          pose proof (pow2_pos (- e - 47) ltac:(lia)) as Px.
          pose proof (pow2_pos (47 - ew) ltac:(lia)) as Py.
          set (X := 2 ^ (- e - 47)) in *. set (Y := 2 ^ (47 - ew)) in *.
          set (T := 2 ^ 53) in *. clearbody X Y T. nia.
        - subst e. replace (Z.max (- (-46 + ew)) 0) with (46 - ew) by lia.
          assert (Hm1 : Zpos m <= 7036874417766400 - 1).
          { assert (Zpos m <> 7036874417766400) by congruence. lia. }
          pose proof (pow2_pos (46 - ew) ltac:(lia)) as Py.
          set (Y := 2 ^ (46 - ew)) in *. clearbody Y. nia. }
      apply Total_Product. exact (binary_round_aux_below B _ _ HB Hb).
Qed.

Ltac weight_share :=
  eexists _, _; split; [reflexivity|];
  split; [lia|]; split; [vm_compute; split; congruence|];
  split; [vm_compute; congruence|]; split; [vm_compute; congruence|];
  match goal with
  | |- Product _ ?p =>
      let v := eval vm_compute in p in
      change p with v; constructor; vm_compute; congruence
  end.

Lemma share_cookieBanner : weightShare w_0_2 20.
Proof. weight_share. Qed.

Lemma share_cookiePolicy : weightShare w_0_15 15.
Proof. weight_share. Qed.

Lemma share_contactInfo : weightShare w_0_1 10.
Proof. weight_share. Qed.

Lemma share_preConsent : weightShare w_0_25 25.
Proof. weight_share. Qed.

Lemma addWeighted_fold (checks : gmap string CheckResult) (l : list (string * number)) :
  forall t,
    fold_left (addWeighted checks) l t
    = fold_left JsNumber.add (omap (contribution checks) l) t.
Proof.
  induction l as [|[key w] l IH]; intros t; [reflexivity|].
  cbn [fold_left]. rewrite IH.
  change (omap (contribution checks) ((key, w) :: l))
    with (match contribution checks (key, w) with
          | Some y => y :: omap (contribution checks) l
          | None => omap (contribution checks) l
          end).
  unfold addWeighted, contribution at 2. cbn [fst snd].
  destruct (checks !! key) as [check|]; [|reflexivity].
  cbn [mbind option_bind]. destruct (score check); reflexivity.
Qed.

Lemma addWeighted_below (checks : gmap string CheckResult) (B Bw : Z) (t : number)
  (key : string) (w : number) :
  scoresInRange checks -> In key (map fst weights) ->
  weightShare w Bw -> 0 <= B -> B + Bw < 2 ^ 53 ->
  Total B t -> Total (B + Bw) (addWeighted checks t (key, w)).
Proof.
  intros Hrange Hkey Hw HB Hsum Ht.
  assert (HBw : 0 <= Bw) by (destruct Hw as (? & ? & _ & _ & H & _); lia).
  unfold addWeighted.
  destruct (checks !! key) as [check|] eqn:Ec; [|eapply Total_mono; [|exact Ht]; lia].
  destruct (score check) as [s|] eqn:Es; [|eapply Total_mono; [|exact Ht]; lia].
  apply add_below; try assumption.
  apply mul_below; [exact Hw | exact (Hrange key check s Hkey Ec Es)].
Qed.

Lemma nearest_integer (n : Z) (q : Q) : (q == inject_Z n)%Q -> nearest q n.
Proof.
  intros H. unfold nearest. rewrite H.
  unfold Qle, Qlt, Qminus, Qplus, Qopp, inject_Z. cbn. lia.
Qed.

Lemma nearest_quotient (a d n : Z) (q : Q) :
  0 < d -> (q == inject_Z a / inject_Z d)%Q ->
  (2 * n - 1) * d <= 2 * a < (2 * n + 1) * d ->
  nearest q n.
Proof.
  intros Hd Hq [Hlo Hhi]. unfold nearest. rewrite Hq.
  assert (HdQ : (0 < inject_Z d)%Q) by (unfold Qlt, inject_Z; cbn; lia).
  split.
  - apply Qle_shift_div_l; [exact HdQ|].
    unfold Qle, Qmult, Qminus, Qplus, Qopp, inject_Z. cbn. lia.
  - apply Qlt_shift_div_r; [exact HdQ|].
    unfold Qlt, Qmult, Qminus, Qplus, Qopp, inject_Z. cbn. lia.
Qed.

(** [nearestInteger] is the integer nearest to the value of the double, a
    tie going up. *)
Lemma valueOf_nearest (m : positive) (e : Z) :
  nearest (valueOf (S754_finite false m e)) (nearestInteger false m e).
Proof.
  unfold valueOf, nearestInteger. cbn [cond_Zopp].
  destruct (0 <=? e) eqn:E.
  - apply Z.leb_le in E. apply nearest_integer.
    rewrite inject_Z_mult, (Zpower_Qpower 2 e E). reflexivity.
  - apply Z.leb_gt in E.
    assert (Hpow : 2 ^ (- e) = 2 * 2 ^ (- e - 1))
      by (rewrite <- Z.pow_succ_r by lia; f_equal; lia).
    pose proof (pow2_pos (- e - 1) ltac:(lia)) as Ph.
    apply (nearest_quotient (Zpos m) (2 ^ (- e))).
    + lia.
    + replace e with (- (- e)) at 1 by lia.
      rewrite Qpower_opp, <- (Zpower_Qpower 2 (- e)) by lia. reflexivity.
    + rewrite Hpow. set (h := 2 ^ (- e - 1)) in *. clearbody h.
      pose proof (Z.div_mod (Zpos m + h) (2 * h) ltac:(lia)) as Hdm.
      pose proof (Z.mod_pos_bound (Zpos m + h) (2 * h) ltac:(lia)) as Hb.
      set (n := (Zpos m + h) / (2 * h)) in *. clearbody n. nia.
Qed.

(** [Math.round] of a total of at most 100: the double of the integer
    nearest to it, which is at most 100. *)

Lemma Math_round_total (t : number) :
  Total 100 t ->
  exists n, 0 <= n <= 100 /\ Math_round t = num_of_Z n /\ nearest (valueOf t) n.
Proof.
  intros [|m e H].
  - exists 0. split; [lia|]. split; [reflexivity|].
    apply nearest_integer. reflexivity.
  - exists (nearestInteger false m e).
    split; [|split; [reflexivity | apply valueOf_nearest]].
    unfold nearestInteger, below in *. cbn [cond_Zopp].
    destruct (0 <=? e) eqn:E.
    + apply Z.leb_le in E.
      replace (Z.max e 0) with e in H by lia.
      replace (Z.max (- e) 0) with 0 in H by lia. change (2 ^ 0) with 1 in H.
      pose proof (pow2_pos e E) as Pe. set (X := 2 ^ e) in *. clearbody X. nia.
    + apply Z.leb_gt in E.
      replace (Z.max e 0) with 0 in H by lia.
      replace (Z.max (- e) 0) with (- e) in H by lia. change (2 ^ 0) with 1 in H.
      assert (Hpow : 2 ^ (- e) = 2 * 2 ^ (- e - 1))
        by (rewrite <- Z.pow_succ_r by lia; f_equal; lia).
      rewrite Hpow in *. clear Hpow.
      pose proof (pow2_pos (- e - 1) ltac:(lia)) as Ph.
      set (h := 2 ^ (- e - 1)) in *. clearbody h.
      split.
      * apply Z.div_pos; lia.
      * assert (Hlt : (Zpos m + h) / (2 * h) < 101)
          by (apply Z.div_lt_upper_bound; lia).
        lia.
Qed.

Ltac dimension := cbn; tauto.

(** The running total of [calculateScore] stays below the sum of the
    shares: at most 100 in the end. *)
Lemma total_below (checks : gmap string CheckResult) :
  scoresInRange checks ->
  Total 100 (fold_left (addWeighted checks) weights (num_of_Z 0)).
Proof.
  intros Hrange.
  unfold weights. cbn [fold_left].
  assert (H0 : Total 0 (num_of_Z 0)) by constructor.
  pose proof (addWeighted_below checks 0 20 _ "cookieBanner" w_0_2
                Hrange ltac:(dimension) share_cookieBanner
                ltac:(lia) ltac:(vm_compute; reflexivity) H0) as H1.
  pose proof (addWeighted_below checks 20 20 _ "privacyPolicy" w_0_2
                Hrange ltac:(dimension) share_cookieBanner
                ltac:(lia) ltac:(vm_compute; reflexivity) H1) as H2.
  pose proof (addWeighted_below checks 40 15 _ "cookiePolicy" w_0_15
                Hrange ltac:(dimension) share_cookiePolicy
                ltac:(lia) ltac:(vm_compute; reflexivity) H2) as H3.
  pose proof (addWeighted_below checks 55 10 _ "contactInfo" w_0_1
                Hrange ltac:(dimension) share_contactInfo
                ltac:(lia) ltac:(vm_compute; reflexivity) H3) as H4.
  pose proof (addWeighted_below checks 65 10 _ "cookies" w_0_1
                Hrange ltac:(dimension) share_contactInfo
                ltac:(lia) ltac:(vm_compute; reflexivity) H4) as H5.
  pose proof (addWeighted_below checks 75 25 _ "preConsentViolations" w_0_25
                Hrange ltac:(dimension) share_preConsent
                ltac:(lia) ltac:(vm_compute; reflexivity) H5) as H6.
  exact H6.
Qed.

Lemma calculateScore_range (checks : gmap string CheckResult) :
  scoresInRange checks ->
  exists n, 0 <= n <= 100 /\ calculateScore checks = num_of_Z n.
Proof.
  intros Hrange. unfold calculateScore.
  destruct (Math_round_total _ (total_below checks Hrange)) as (n & Hn & Hround & _).
  exists n. split; [exact Hn | exact Hround].
Qed.

Lemma scored_inRange (checks : gmap string CheckResult) :
  (forall key check, checks !! key = Some check ->
                     exists k, 0 <= k <= 100 /\ check = scored k) ->
  scoresInRange checks.
Proof.
  intros H key check x _ Hc Hs.
  destruct (H key check Hc) as (k & Hk & ->).
  apply (inj Some) in Hs. subst x.
  assert (Hall : forallb (fun n => is_double (num_of_Z (Z.of_nat n))
                                   && JsNumber.leb (num_of_Z 0) (num_of_Z (Z.of_nat n))
                                   && JsNumber.leb (num_of_Z (Z.of_nat n)) (num_of_Z 100))
                         (seq 0 101) = true)
    by (vm_compute; reflexivity).
  rewrite forallb_forall in Hall.
  specialize (Hall (Z.to_nat k)).
  rewrite Z2Nat.id in Hall by lia.
  assert (Hin : In (Z.to_nat k) (seq 0 101)) by (apply in_seq; lia).
  apply Hall in Hin. apply andb_true_iff in Hin as [Hin H3].
  apply andb_true_iff in Hin as [H1 H2].
  split; [exact H1|]. split; [exact H2 | exact H3].
Qed.

Ltac scored_checks :=
  apply scored_inRange; intros key check Hc;
  repeat (apply lookup_insert_Some in Hc as [[_ <-]|[_ Hc]];
          [eexists; split; [|reflexivity]; lia|]);
  rewrite lookup_empty in Hc; discriminate Hc.

Lemma exampleChecks_inRange : scoresInRange exampleChecks.
Proof. unfold exampleChecks. scored_checks. Qed.

Lemma halfwayChecks_inRange : scoresInRange halfwayChecks.
Proof. unfold halfwayChecks. scored_checks. Qed.

Lemma weights_decimal :
  w_0_2 = SFdiv prec emax (num_of_Z 20) (num_of_Z 100)
  /\ w_0_15 = SFdiv prec emax (num_of_Z 15) (num_of_Z 100)
  /\ w_0_1 = SFdiv prec emax (num_of_Z 10) (num_of_Z 100)
  /\ w_0_25 = SFdiv prec emax (num_of_Z 25) (num_of_Z 100).
Proof. repeat split; vm_compute; reflexivity. Qed.

(** C3, as the code has it.  [calculateScore] adds, in binary64 and in the
    order of the weights, score times weight over the dimensions that are
    present with a numeric score (a missing or non-numeric score adds
    nothing), the weights being the doubles nearest to 0.20, 0.20, 0.15,
    0.10, 0.10 and 0.25, and returns the integer nearest to that binary64
    sum, a tie going up.  When every present score of the six dimensions is
    a double in [0,100], whatever the other keys of the map hold, the result
    is an integer n in [0,100] with n - 1/2 <= sum < n + 1/2.  The example
    map gives exactly 75, and a banner score of 99 alone gives 20.  The sum
    is the binary64 one, not the exact one: for the scores 100, 75, 37, 13,
    34 and 49 the exact sum is 57.5, the binary64 sum is below 57.5, and the
    result is 57. *)
Theorem calculateScore_weighted_sum :
  (forall checks, calculateScore checks = Math_round (weightedSum checks))
  /\ weights = [ ("cookieBanner", SFdiv prec emax (num_of_Z 20) (num_of_Z 100));
                 ("privacyPolicy", SFdiv prec emax (num_of_Z 20) (num_of_Z 100));
                 ("cookiePolicy", SFdiv prec emax (num_of_Z 15) (num_of_Z 100));
                 ("contactInfo", SFdiv prec emax (num_of_Z 10) (num_of_Z 100));
                 ("cookies", SFdiv prec emax (num_of_Z 10) (num_of_Z 100));
                 ("preConsentViolations", SFdiv prec emax (num_of_Z 25) (num_of_Z 100)) ]
  /\ (forall checks,
        scoresInRange checks ->
        exists n, 0 <= n <= 100
                  /\ calculateScore checks = num_of_Z n
                  /\ nearest (valueOf (weightedSum checks)) n)
  /\ calculateScore exampleChecks = num_of_Z 75
  /\ calculateScore (<["cookieBanner" := scored 99]> ∅) = num_of_Z 20
  /\ (forall ssl, calculateScore (<["ssl" := ssl]> exampleChecks) = num_of_Z 75)
  /\ (calculateScore halfwayChecks = num_of_Z 57
      /\ (valueOf (weightedSum halfwayChecks) < 115 # 2)%Q
      /\ (exactSum halfwayChecks == 115 # 2)%Q
      /\ exactScore halfwayChecks = 58).
Proof.
  assert (Hsum : forall checks,
             fold_left (addWeighted checks) weights (num_of_Z 0) = weightedSum checks).
  { intros checks. unfold weightedSum. apply addWeighted_fold. }
  split; [|split; [|split; [|split; [|split; [|split]]]]].
  - intros checks. unfold calculateScore. rewrite Hsum. reflexivity.
  - vm_compute. reflexivity.
  - intros checks Hrange.
    destruct (Math_round_total _ (total_below checks Hrange)) as (n & Hn & Hround & Hnear).
    exists n. split; [exact Hn|]. split; [exact Hround|].
    rewrite <- Hsum. exact Hnear.
  - vm_compute. reflexivity.
  - vm_compute. reflexivity.
  - intros ssl. unfold calculateScore, weights. cbn [fold_left]. unfold addWeighted.
    rewrite !lookup_insert_ne by discriminate. vm_compute. reflexivity.
  - split; [vm_compute; reflexivity|].
    split; [vm_compute; reflexivity|].
    split; vm_compute; reflexivity.
Qed.

Lemma calculateScore_weighted_sum_witness :
  scoresInRange exampleChecks
  /\ exists n, 0 <= n <= 100 /\ calculateScore exampleChecks = num_of_Z n.
Proof.
  split; [exact exampleChecks_inRange|].
  destruct calculateScore_weighted_sum as (_ & _ & H & _).
  destruct (H exampleChecks exampleChecks_inRange) as (n & Hn & Hscore & _).
  exists n. split; [exact Hn | exact Hscore].
Defined.

(** C3, as stated, fails when the sum is the exact one: for the scores 100,
    75, 37, 13, 34 and 49 the exact weighted sum is 57.5, which rounds to
    58, and [calculateScore] returns 57. *)
Lemma calculateScore_not_exact :
  ~ (forall checks,
       scoresInRange checks ->
       calculateScore checks = num_of_Z (exactScore checks)).
Proof.
  intros H. specialize (H halfwayChecks halfwayChecks_inRange).
  vm_compute in H. discriminate H.
Qed.

(* ===================================================================== *)
(** * The policy checks *)
(* ===================================================================== *)


Lemma policyAnchor_step (links : list string) (kind : string)
  (acc : bool * list PolicyLink) (el : Element) :
  policyAnchor links kind acc el
  = if anchorMatches links el
    then (true, push (snd acc) (recordedLink kind el))
    else acc.
Proof. reflexivity. Qed.

Lemma policyAnchor_fold (links : list string) (kind : string) (anchors : list Element) :
  forall acc,
    fold_left (policyAnchor links kind) anchors acc
    = (fst acc || existsb (anchorMatches links) anchors,
       (snd acc ++ map (recordedLink kind) (List.filter (anchorMatches links) anchors))%list).
Proof.
  induction anchors as [|el anchors IH]; intros [found0 recorded]; cbn [fold_left].
  - cbn. rewrite orb_false_r, app_nil_r. reflexivity.
  - rewrite IH, policyAnchor_step. cbn [existsb List.filter].
    destruct (anchorMatches links el); cbn [fst snd map].
    + unfold push. rewrite <- app_assoc. destruct found0; reflexivity.
    + reflexivity.
Qed.

(** X1. The two policy checks scan the anchors of the page: found holds
    exactly when some anchor has a configured link text in its lowercased
    href or text; every such anchor is recorded once, in document order; the
    score is the full score when found and 0 otherwise; a query that throws
    gives found = false and score 0.  The case of the href and of the text
    does not matter, and the recorded text is trimmed of all white space,
    the no-break space included: an anchor with href /PRIVACY and the text
    Zásady between two no-break spaces is recorded with the text Zásady. *)
Theorem checkPolicy_anchors (links : list string) (kind : string) (full : Z)
  (dom : Dom) :
  (forall anchors,
      select dom "a" = inr anchors ->
      found (checkPolicy links kind full dom) = Some (existsb (anchorMatches links) anchors)
      /\ evidence (checkPolicy links kind full dom)
         = PolicyLinks (map (recordedLink kind) (List.filter (anchorMatches links) anchors))
      /\ score (checkPolicy links kind full dom)
         = Some (num_of_Z (if existsb (anchorMatches links) anchors then full else 0))
      /\ (found (checkPolicy links kind full dom) = Some true <->
          exists el link before after,
            In el anchors /\ In link links
            /\ (JsString.codeUnits (JsString.toLowerCase (default "" (el_href el)))
                = (before ++ JsString.codeUnits link ++ after)%list
                \/ JsString.codeUnits (JsString.toLowerCase (el_text el))
                   = (before ++ JsString.codeUnits link ++ after)%list)))
  /\ (forall e,
        select dom "a" = inl e ->
        found (checkPolicy links kind full dom) = Some false
        /\ score (checkPolicy links kind full dom) = Some (num_of_Z 0)
        /\ evidence (checkPolicy links kind full dom) = PolicyLinks [])
  /\ (forall el,
        select dom "a" = inr [el] ->
        el_href el = Some "/PRIVACY" ->
        el_text el = nbsp +:+ "Zásady" +:+ nbsp ->
        found (checkPrivacyPolicy dom) = Some true
        /\ evidence (checkPrivacyPolicy dom)
           = PolicyLinks [ {| pl_href := "/PRIVACY"; pl_text := "Zásady";
                              pl_type := "privacy-policy" |} ])
  /\ (forall el,
        select dom "a" = inr [el] ->
        el_href el = None ->
        el_text el = "Ochrana-Osobnych-Udajov" ->
        found (checkPrivacyPolicy dom) = Some true).
Proof.
  split; [|split; [|split]].
  - intros anchors Ha. unfold checkPolicy. rewrite Ha, policyAnchor_fold.
    cbn [fst snd app orb found evidence score].
    split; [reflexivity|]. split; [reflexivity|]. split; [reflexivity|].
    split.
    + intros H. apply (inj Some) in H.
      apply existsb_exists in H as (el & Hel & Hm).
      apply existsb_exists in Hm as (link & Hlink & Hinc).
      apply orb_true_iff in Hinc.
      exists el, link.
      destruct Hinc as [Hinc|Hinc]; apply includes_spec in Hinc as (before & after & Heq);
        exists before, after; (split; [exact Hel|]); (split; [exact Hlink|]);
        [left | right]; exact Heq.
    + intros (el & link & before & after & Hel & Hlink & Heq). f_equal.
      apply existsb_exists. exists el. split; [exact Hel|].
      apply existsb_exists. exists link. split; [exact Hlink|].
      apply orb_true_iff.
      destruct Heq as [Heq|Heq]; [left | right]; apply includes_spec;
        exists before, after; exact Heq.
  - intros e He. unfold checkPolicy. rewrite He. repeat split.
  - intros el Ha Hhref Htext.
    assert (Hm : anchorMatches GDPR_CHECKS.privacyPolicy.links el = true)
      by (unfold anchorMatches; rewrite Hhref, Htext; vm_compute; reflexivity).
    unfold checkPrivacyPolicy, checkPolicy.
    rewrite Ha, policyAnchor_fold. cbn [fst snd app orb found evidence].
    cbn [existsb List.filter map]. rewrite Hm. cbn [orb map].
    split; [reflexivity|]. unfold recordedLink. rewrite Hhref, Htext.
    vm_compute. reflexivity.
  - intros el Ha Hhref Htext.
    assert (Hm : anchorMatches GDPR_CHECKS.privacyPolicy.links el = true)
      by (unfold anchorMatches; rewrite Hhref, Htext; vm_compute; reflexivity).
    unfold checkPrivacyPolicy, checkPolicy.
    rewrite Ha, policyAnchor_fold. cbn [fst snd app orb found].
    cbn [existsb]. rewrite Hm. reflexivity.
Qed.

Lemma checkPolicy_anchors_witness :
  found (checkPrivacyPolicy shopPage) = Some true
  /\ score (checkPrivacyPolicy shopPage) = Some (num_of_Z 100)
  /\ found (checkCookiePolicy shopPage) = Some false
  /\ score (checkCookiePolicy shopPage) = Some (num_of_Z 0).
Proof.
  destruct (checkPolicy_anchors GDPR_CHECKS.privacyPolicy.links "privacy-policy" 100 shopPage)
    as [Hp _].
  destruct (checkPolicy_anchors GDPR_CHECKS.cookiePolicy.links "cookie-policy" 80 shopPage)
    as [Hc _].
  destruct (Hp _ eq_refl) as (Hpf & _ & Hps & _).
  destruct (Hc _ eq_refl) as (Hcf & _ & Hcs & _).
  split; [exact Hpf|]. split; [exact Hps|]. split; [exact Hcf | exact Hcs].
Defined.

Lemma anchorMatches_cookie (el : Element) :
  anchorMatches GDPR_CHECKS.cookiePolicy.links el = mentionsCookie el.
Proof.
  unfold anchorMatches, mentionsCookie.
  set (href := JsString.toLowerCase (default "" (el_href el))).
  set (text := JsString.toLowerCase (el_text el)).
  destruct (JsString.includes href "cookie" || JsString.includes text "cookie") eqn:E.
  - cbn [existsb GDPR_CHECKS.cookiePolicy.links]. rewrite E. reflexivity.
  - apply orb_false_iff in E as [Eh Et].
    apply not_true_iff_false. intros H.
    apply existsb_exists in H as (link & Hlink & Hinc).
    assert (Hsub : JsString.includes link "cookie" = true).
    { cbn in Hlink.
      destruct Hlink as [<-|[<-|[<-|[<-|[<-|[]]]]]]; vm_compute; reflexivity. }
    apply orb_true_iff in Hinc as [Hinc|Hinc].
    + rewrite (includes_trans _ _ _ Hinc Hsub) in Eh. discriminate Eh.
    + rewrite (includes_trans _ _ _ Hinc Hsub) in Et. discriminate Et.
Qed.

(** X2. Of the five link texts of the cookie policy check only "cookie"
    decides: the check finds a policy exactly when some anchor has "cookie"
    in its lowercased href or text, and records exactly those anchors.  The
    case does not matter: an anchor that reads Všetko o COOKIES, or whose
    href is /Cookie-Info, is found and recorded, its text trimmed of the
    no-break spaces around it. *)
Theorem checkCookiePolicy_cookie (dom : Dom) (anchors : list Element) :
  select dom "a" = inr anchors ->
  found (checkCookiePolicy dom) = Some (existsb mentionsCookie anchors)
  /\ evidence (checkCookiePolicy dom)
     = PolicyLinks (map (recordedLink "cookie-policy") (List.filter mentionsCookie anchors))
  /\ score (checkCookiePolicy dom)
     = Some (num_of_Z (if existsb mentionsCookie anchors then 80 else 0))
  /\ (forall el,
        In el anchors ->
        el_text el = nbsp +:+ "Všetko o COOKIES" +:+ nbsp
        \/ el_href el = Some "/Cookie-Info" ->
        found (checkCookiePolicy dom) = Some true)
  /\ (forall el,
        anchors = [el] ->
        el_text el = nbsp +:+ "Všetko o COOKIES" +:+ nbsp ->
        el_href el = None ->
        evidence (checkCookiePolicy dom)
        = PolicyLinks [ {| pl_href := ""; pl_text := "Všetko o COOKIES";
                           pl_type := "cookie-policy" |} ]).
Proof.
  intros Ha.
  assert (Hmixed : forall el,
             el_text el = nbsp +:+ "Všetko o COOKIES" +:+ nbsp
             \/ el_href el = Some "/Cookie-Info" ->
             mentionsCookie el = true).
  { intros el [Ht|Hh]; unfold mentionsCookie; apply orb_true_iff.
    - right. rewrite Ht. vm_compute. reflexivity.
    - left. rewrite Hh. vm_compute. reflexivity. } unfold checkCookiePolicy, checkPolicy. rewrite Ha, policyAnchor_fold.
  cbn [fst snd app orb found evidence score].
  assert (Hex : existsb (anchorMatches GDPR_CHECKS.cookiePolicy.links) anchors
                = existsb mentionsCookie anchors).
  { clear Ha. induction anchors as [|el l IH]; [reflexivity|].
    cbn [existsb]. rewrite IH, anchorMatches_cookie. reflexivity. }
  assert (Hfi : List.filter (anchorMatches GDPR_CHECKS.cookiePolicy.links) anchors
                = List.filter mentionsCookie anchors).
  { clear Ha Hex. induction anchors as [|el l IH]; [reflexivity|].
    cbn [List.filter]. rewrite IH, anchorMatches_cookie. reflexivity. }
  rewrite Hex, Hfi.
  split; [reflexivity|]. split; [reflexivity|]. split; [reflexivity|].
  split.
  - intros el Hel Hcase. f_equal. apply existsb_exists.
    exists el. split; [exact Hel | apply Hmixed, Hcase].
  - intros el -> Htext Hhref. cbn [List.filter].
    rewrite (Hmixed el (or_introl Htext)). cbn [map]. unfold recordedLink.
    rewrite Htext, Hhref. vm_compute. reflexivity.
Qed.

Lemma checkCookiePolicy_cookie_witness :
  found (checkCookiePolicy shopPage) = Some false.
Proof.
  destruct (checkCookiePolicy_cookie shopPage _ eq_refl) as (H & _). exact H.
Defined.

(* ===================================================================== *)
(** * The contact check *)
(* ===================================================================== *)

(** The loop over the anchors of one scheme, when every anchor has an
    [href]. *)
Lemma contactAnchors_ok (kind scheme : string) (els : list Element) :
  forallb hasHref els = true ->
  forall acc,
    forEach_try (contactAnchor kind scheme) els acc
    = ((fst acc || nonEmpty els, (snd acc ++ map (contactOf kind scheme) els)%list), None).
Proof.
  induction els as [|el els IH]; intros Hh [found0 contacts]; cbn [forEach_try].
  - cbn. rewrite orb_false_r, app_nil_r. reflexivity.
  - cbn [forallb] in Hh. apply andb_true_iff in Hh as [Hel Hels].
    unfold contactAnchor at 1. unfold hasHref in Hel.
    destruct (el_href el) as [href|] eqn:E; [|discriminate Hel].
    rewrite (IH Hels). cbn [fst snd nonEmpty map]. unfold push, contactOf.
    rewrite E, <- app_assoc, orb_true_r. cbn. destruct (nonEmpty els); reflexivity.
Qed.

(** The loop over the section selectors, when no query throws. *)
Lemma contactSections_ok (dom : Dom) (selectors : list string) :
  (forall selector, In selector selectors -> exists els, select dom selector = inr els) ->
  forall acc,
    forEach_try (fun step acc => step acc)
      (map (fun selector =>
              contactQuery dom selector
                (fun els acc =>
                   ((if 0 <? Z.of_nat (List.length els) then (true, snd acc) else acc), None)))
           selectors) acc
    = ((fst acc || existsb (selectsSome dom) selectors, snd acc), None).
Proof.
  induction selectors as [|selector selectors IH]; intros Hsel [found0 contacts].
  - cbn. rewrite orb_false_r. reflexivity.
  - cbn [map forEach_try].
    destruct (Hsel selector (or_introl eq_refl)) as [els Hels].
    unfold contactQuery at 1. rewrite Hels.
    rewrite IH by (intros s Hs; apply Hsel; right; exact Hs).
    assert (Hs : selectsSome dom selector = nonEmpty els).
    { unfold selectsSome. rewrite Hels. destruct els; reflexivity. }
    cbn [existsb]. rewrite Hs.
    destruct els as [|el els]; cbn [List.length fst snd nonEmpty].
    + cbn. reflexivity.
    + replace (0 <? Z.of_nat (S (List.length els))) with true
        by (symmetry; apply Z.ltb_lt; lia).
      cbn. rewrite orb_true_r. reflexivity.
Qed.

(** X3. When no query throws and every matched anchor has an href, the
    contact check finds contact information exactly when a mailto anchor, a
    tel anchor or an element of one of the five section selectors exists; it
    records one contact for each mailto anchor and then one for each tel
    anchor, in document order, and nothing for the sections; the score is 80
    when found and 0 otherwise.  The recorded value of an anchor whose href
    starts with the scheme has the code units of the rest of the href, and
    the recorded text is trimmed of all white space, also of the white
    space outside ASCII (the no-break space, U+FEFF, the line and paragraph
    separators and the other space separators). *)
Theorem checkContactInfo_contacts (dom : Dom) (mails tels : list Element) :
  select dom mailtoSelector = inr mails ->
  select dom telSelector = inr tels ->
  forallb hasHref (mails ++ tels) = true ->
  (forall selector, In selector GDPR_CHECKS.contactInfo.selectors ->
                    exists els, select dom selector = inr els) ->
  let found1 := nonEmpty mails || nonEmpty tels
                || existsb (selectsSome dom) GDPR_CHECKS.contactInfo.selectors in
  found (checkContactInfo dom) = Some found1
  /\ score (checkContactInfo dom) = Some (num_of_Z (if found1 then 80 else 0))
  /\ evidence (checkContactInfo dom)
     = Contacts (map (contactOf "email" "mailto:") mails
                 ++ map (contactOf "phone" "tel:") tels)%list
  /\ (forall el address,
        el_href el = Some ("mailto:" +:+ address) ->
        JsString.codeUnits (ct_value (contactOf "email" "mailto:" el))
        = JsString.codeUnits address)
  /\ (forall el number,
        el_href el = Some ("tel:" +:+ number) ->
        JsString.codeUnits (ct_value (contactOf "phone" "tel:" el))
        = JsString.codeUnits number)
  /\ (forall el,
        el_href el = Some "mailto:úrad@obec.sk" ->
        el_text el = unicodeSpaces +:+ " Napíšte nám" +:+ unicodeSpaces ->
        contactOf "email" "mailto:" el
        = {| ct_type := "email"; ct_value := "úrad@obec.sk";
             ct_text := "Napíšte nám" |}).
Proof.
  intros Hm Ht Hh Hsel found1.
  rewrite forallb_app in Hh. apply andb_true_iff in Hh as [Hhm Hht].
  assert (Hrun :
    checkContactInfo dom
    = {| found := Some found1;
         score := Some (num_of_Z (if found1 then 80 else 0));
         error := None;
         evidence := Contacts (map (contactOf "email" "mailto:") mails
                               ++ map (contactOf "phone" "tel:") tels)%list |}).
  { unfold checkContactInfo. cbn [forEach_try].
    fold mailtoSelector. fold telSelector.
    unfold contactQuery at 1. rewrite Hm, (contactAnchors_ok _ _ _ Hhm).
    unfold contactQuery at 1. rewrite Ht, (contactAnchors_ok _ _ _ Hht).
    rewrite (contactSections_ok dom _ Hsel).
    cbn [fst snd app orb]. reflexivity. }
  rewrite Hrun. cbn [found score evidence].
  split; [reflexivity|]. split; [reflexivity|]. split; [reflexivity|].
  split; [|split].
  - intros el v Hel. unfold contactOf. cbn [ct_value]. rewrite Hel.
    cbn [default]. apply removeFirst_scheme. reflexivity.
  - intros el v Hel. unfold contactOf. cbn [ct_value]. rewrite Hel.
    cbn [default]. apply removeFirst_scheme. reflexivity.
  - intros el Hhref Htext. unfold contactOf. rewrite Hhref, Htext.
    vm_compute. reflexivity.
Qed.

Lemma checkContactInfo_contacts_witness :
  found (checkContactInfo shopPage) = Some true
  /\ score (checkContactInfo shopPage) = Some (num_of_Z 80)
  /\ evidence (checkContactInfo shopPage)
     = Contacts [ {| ct_type := "email"; ct_value := "info@shop.example";
                     ct_text := "Contact" |} ].
Proof.
  destruct (checkContactInfo_contacts shopPage
              [ {| el_text := "Contact"; el_href := Some "mailto:info@shop.example" |} ] [])
    as (Hf & Hs & He & _).
  - reflexivity.
  - reflexivity.
  - reflexivity.
  - intros selector _. unfold shopPage; cbn [select].
    repeat match goal with |- context [if ?b then _ else _] => destruct b end;
      eexists; reflexivity.
  - split; [exact Hf|]. split; [exact Hs | exact He].
Defined.

(** X4. A query that throws after a contact was found leaves the result
    with found = true and score 0: here the tel query throws after the mailto
    anchors were recorded, each with its text trimmed of all white space,
    the no-break space included. *)
Theorem checkContactInfo_found_without_score (dom : Dom) (mail : Element)
  (mails : list Element) (e : exn) :
  select dom mailtoSelector = inr (mail :: mails) ->
  forallb hasHref (mail :: mails) = true ->
  select dom telSelector = inl e ->
  found (checkContactInfo dom) = Some true
  /\ score (checkContactInfo dom) = Some (num_of_Z 0)
  /\ evidence (checkContactInfo dom)
     = Contacts (map (contactOf "email" "mailto:") (mail :: mails))
  /\ (el_text mail = nbsp +:+ "Write to us " +:+ nbsp ->
      ct_text (contactOf "email" "mailto:" mail) = "Write to us").
Proof.
  intros Hm Hh Ht.
  assert (Hrun :
    checkContactInfo dom
    = {| found := Some true; score := Some (num_of_Z 0); error := None;
         evidence := Contacts (map (contactOf "email" "mailto:") (mail :: mails)) |}).
  { unfold checkContactInfo. cbn [forEach_try].
    fold mailtoSelector. fold telSelector.
    unfold contactQuery at 1. rewrite Hm, (contactAnchors_ok _ _ _ Hh).
    unfold contactQuery at 1. rewrite Ht.
    cbn [fst snd app orb nonEmpty]. reflexivity. }
  rewrite Hrun. cbn [found score evidence].
  split; [reflexivity|]. split; [reflexivity|]. split; [reflexivity|].
  intros Htext. unfold contactOf. cbn [ct_text]. rewrite Htext.
  vm_compute. reflexivity.
Qed.

Lemma checkContactInfo_found_without_score_witness :
  found (checkContactInfo mailOnlyPage) = Some true
  /\ score (checkContactInfo mailOnlyPage) = Some (num_of_Z 0)
  /\ evidence (checkContactInfo mailOnlyPage)
     = Contacts [ {| ct_type := "email"; ct_value := "dpo@shop.example";
                     ct_text := "Write to us" |} ].
Proof.
  destruct (checkContactInfo_found_without_score mailOnlyPage
              {| el_text := nbsp +:+ "Write to us " +:+ nbsp;
                 el_href := Some "mailto:dpo@shop.example" |}
              [] "Unmatched selector") as (Hf & Hs & He & _).
  - reflexivity.
  - reflexivity.
  - reflexivity.
  - split; [exact Hf|]. split; [exact Hs|].
    rewrite He. vm_compute. reflexivity.
Defined.

(* ===================================================================== *)
(** * The recommendations *)
(* ===================================================================== *)

Lemma violationRecommendation_critical (violations : list Violation) :
  forall pushed,
    Forall (fun r => priority r = "CRITICAL") pushed ->
    Forall (fun r => priority r = "CRITICAL")
           (fst (forEach_try violationRecommendation violations pushed)).
Proof.
  induction violations as [|v violations IH]; intros pushed Hp; cbn [forEach_try];
    [exact Hp|].
  assert (Hstep : Forall (fun r => priority r = "CRITICAL")
                         (fst (violationRecommendation v pushed))).
  { unfold violationRecommendation, push.
    destruct (String.eqb (v_type v) "pre-consent-cookies"),
             (String.eqb (v_type v) "tracking-requests"),
             (details_length (v_details v));
      cbn [fst]; repeat (apply Forall_app; split); try exact Hp;
      repeat constructor. }
  destruct (violationRecommendation v pushed) as [pushed' [e|]]; cbn [fst] in Hstep |- *.
  - exact Hstep.
  - apply IH, Hstep.
Qed.

(** Whatever the first block has pushed is CRITICAL, also when it threw. *)
Lemma criticalBlock_critical (checks : gmap string CheckResult) :
  Forall (fun r => priority r = "CRITICAL") (fst (criticalBlock checks)).
Proof.
  unfold criticalBlock.
  destruct (foundIn checks "preConsentViolations"); [|constructor].
  destruct (evidence <$> checks !! "preConsentViolations") as [[]|];
    try (cbn [fst]; constructor).
  apply violationRecommendation_critical. constructor.
Qed.

Lemma criticalRecommendations_block (checks : gmap string CheckResult)
  (critical : list Recommendation) :
  criticalRecommendations checks = inr critical ->
  criticalBlock checks = (critical, None).
Proof.
  unfold criticalRecommendations.
  destruct (criticalBlock checks) as [pushed [e|]]; intros H; [discriminate H|].
  apply (inj inr) in H. subst pushed. reflexivity.
Qed.

Lemma criticalRecommendations_critical (checks : gmap string CheckResult)
  (critical : list Recommendation) :
  criticalRecommendations checks = inr critical ->
  Forall (fun r => priority r = "CRITICAL") critical.
Proof.
  intros H. pose proof (criticalBlock_critical checks) as Hc.
  rewrite (criticalRecommendations_block _ _ H) in Hc. exact Hc.
Qed.

Lemma sorted_after_critical (critical rest : list Recommendation) :
  Forall (fun r => priority r = "CRITICAL") critical ->
  StronglySorted le (map (fun r => rank (priority r)) rest) ->
  StronglySorted le (map (fun r => rank (priority r)) (critical ++ rest)).
Proof.
  intros Hc Hr. induction Hc as [|r critical Hr0 Hc IH]; cbn [app map]; [exact Hr|].
  constructor; [exact IH|].
  rewrite Hr0. apply List.Forall_forall. intros n _. cbn. lia.
Qed.

(** The recommendations when the violations can be read: the CRITICAL ones,
    then those of the five conditions, which are HIGH or MEDIUM and in that
    order. *)
Lemma generateRecommendations_parts (checks : gmap string CheckResult)
  (critical : list Recommendation) :
  criticalRecommendations checks = inr critical ->
  exists rest,
    generateRecommendations checks = (critical ++ rest)%list
    /\ StronglySorted le (map (fun r => rank (priority r)) rest)
    /\ Forall (fun r => In (priority r) ["HIGH"; "MEDIUM"]) rest.
Proof.
  intros Hcrit. unfold generateRecommendations.
  rewrite (criticalRecommendations_block _ _ Hcrit).
  eexists. split; [reflexivity|].
  destruct (foundIn checks "cookieBanner"), (foundIn checks "privacyPolicy"),
           (foundIn checks "cookiePolicy"), (foundIn checks "contactInfo"),
           (match cookieCount checks with Some count => 10 <? count | None => false end);
    cbn; (split; [repeat constructor; lia
                 | repeat (apply List.Forall_cons; [cbn; auto|]); apply List.Forall_nil]).
Qed.

Lemma generateRecommendations_priorities (checks : gmap string CheckResult)
  (critical : list Recommendation) :
  criticalRecommendations checks = inr critical ->
  forall r, In r (generateRecommendations checks) ->
            In (priority r) ["CRITICAL"; "HIGH"; "MEDIUM"].
Proof.
  intros Hcrit r Hr.
  pose proof (criticalRecommendations_critical _ _ Hcrit) as Hc.
  destruct (generateRecommendations_parts _ _ Hcrit) as (rest & Heq & _ & Hprio).
  rewrite Heq in Hr. apply in_app_iff in Hr as [Hr|Hr].
  - rewrite List.Forall_forall in Hc. rewrite (Hc r Hr). left. reflexivity.
  - rewrite List.Forall_forall in Hprio. specialize (Hprio r Hr).
    cbn in Hprio |- *. tauto.
Qed.

(** X5. The recommendations come in the order of their priority: every
    CRITICAL one before every HIGH one, and those before every MEDIUM one.
    The only other priority is ERROR: a recommendation of priority ERROR is
    the last of its list, and what comes before it is what the loop over
    the violations had pushed when it threw, all of it CRITICAL.  So an
    ERROR recommendation need not stand alone: for a violation of tracking
    requests followed by one of cookies without details the list is the
    CRITICAL recommendation for tracking and then the ERROR one. *)
Theorem generateRecommendations_ordered (checks : gmap string CheckResult) :
  StronglySorted le (map (fun r => rank (priority r)) (generateRecommendations checks))
  /\ (forall r, In r (generateRecommendations checks) ->
                In (priority r) ["CRITICAL"; "HIGH"; "MEDIUM"; "ERROR"])
  /\ (forall r, In r (generateRecommendations checks) ->
                priority r = "ERROR" ->
                r = generationError
                /\ generateRecommendations checks
                   = (fst (criticalBlock checks) ++ [generationError])%list
                /\ Forall (fun r' => priority r' = "CRITICAL") (fst (criticalBlock checks)))
  /\ (snd (criticalBlock checks) <> None ->
      generateRecommendations checks
      = (fst (criticalBlock checks) ++ [generationError])%list)
  /\ generateRecommendations (checksWith true true true true 0 trackingThenBroken)
     = [criticalTracking; generationError].
Proof.
  pose proof (criticalBlock_critical checks) as Hpushed.
  split; [|split; [|split; [|split]]].
  - unfold generateRecommendations.
    destruct (criticalBlock checks) as [pushed [e|]] eqn:Hb.
    + unfold push. apply sorted_after_critical; [exact Hpushed | repeat constructor].
    + assert (Hcrit : criticalRecommendations checks = inr pushed)
        by (unfold criticalRecommendations; rewrite Hb; reflexivity).
      destruct (generateRecommendations_parts _ _ Hcrit) as (rest & Heq & Hsorted & _).
      unfold generateRecommendations in Heq. rewrite Hb in Heq. rewrite Heq.
      apply sorted_after_critical; assumption.
  - destruct (criticalBlock checks) as [pushed [e|]] eqn:Hb.
    + unfold generateRecommendations. rewrite Hb. unfold push.
      intros r Hr. apply in_app_iff in Hr as [Hr|[<-|[]]].
      * cbn [fst] in Hpushed. rewrite List.Forall_forall in Hpushed.
        rewrite (Hpushed r Hr). left. reflexivity.
      * cbn. tauto.
    + assert (Hcrit : criticalRecommendations checks = inr pushed)
        by (unfold criticalRecommendations; rewrite Hb; reflexivity).
      intros r Hr. pose proof (generateRecommendations_priorities _ _ Hcrit r Hr) as H.
      cbn in H |- *. tauto.
  - destruct (criticalBlock checks) as [pushed [e|]] eqn:Hb.
    + unfold generateRecommendations. rewrite Hb. unfold push. cbn [fst] in Hpushed |- *.
      intros r Hr He. apply in_app_iff in Hr as [Hr|[<-|[]]].
      * rewrite List.Forall_forall in Hpushed. rewrite (Hpushed r Hr) in He.
        discriminate He.
      * split; [reflexivity|]. split; [reflexivity | exact Hpushed].
    + assert (Hcrit : criticalRecommendations checks = inr pushed)
        by (unfold criticalRecommendations; rewrite Hb; reflexivity).
      intros r Hr He. pose proof (generateRecommendations_priorities _ _ Hcrit r Hr) as H.
      rewrite He in H. cbn in H. destruct H as [H|[H|[H|[]]]]; discriminate H.
  - unfold generateRecommendations.
    destruct (criticalBlock checks) as [pushed [e|]]; cbn [fst snd].
    + intros _. reflexivity.
    + intros H. contradiction H. reflexivity.
  - vm_compute. reflexivity.
Qed.

Lemma generateRecommendations_ordered_witness :
  generateRecommendations
    (<["preConsentViolations" :=
         {| found := Some true; score := None; error := None;
            evidence := NoEvidence |}]> ∅)
  = [generationError].
Proof.
  destruct (generateRecommendations_ordered
              (<["preConsentViolations" :=
                   {| found := Some true; score := None; error := None;
                      evidence := NoEvidence |}]> ∅))
    as (_ & _ & _ & H & _).
  rewrite H; [reflexivity | discriminate].
Defined.

Lemma in_unless (b : bool) (a r : Recommendation) :
  In r (if b then [] else [a]) <-> b = false /\ a = r.
Proof. destruct b; cbn; intuition discriminate. Qed.

Lemma in_when (b : bool) (a r : Recommendation) :
  In r (if b then [a] else []) <-> b = true /\ a = r.
Proof. destruct b; cbn; intuition discriminate. Qed.

(** X6. When the violations can be read, each of the five fixed
    recommendations is given exactly when its condition holds: the banner,
    the privacy policy, the cookie policy and the contact information were
    not found, and the cookie count is above 10.  Every other recommendation
    is CRITICAL. *)
Theorem generateRecommendations_conditions (checks : gmap string CheckResult)
  (critical : list Recommendation) :
  criticalRecommendations checks = inr critical ->
  let given := generateRecommendations checks in
  (In addBanner given <-> foundIn checks "cookieBanner" = false)
  /\ (In addPrivacyPolicy given <-> foundIn checks "privacyPolicy" = false)
  /\ (In addCookiePolicy given <-> foundIn checks "cookiePolicy" = false)
  /\ (In addContact given <-> foundIn checks "contactInfo" = false)
  /\ (In reduceCookies given <->
      exists count, cookieCount checks = Some count /\ 10 < count)
  /\ (forall r, In r given ->
        priority r = "CRITICAL"
        \/ In r [addBanner; addPrivacyPolicy; addCookiePolicy; addContact; reduceCookies]).
Proof.
  intros Hcrit given. subst given. unfold generateRecommendations.
  rewrite (criticalRecommendations_block _ _ Hcrit).
  pose proof (criticalRecommendations_critical _ _ Hcrit) as Hc.
  rewrite List.Forall_forall in Hc.
  assert (Hcount : (exists count, cookieCount checks = Some count /\ 10 < count)
                   <-> match cookieCount checks with
                       | Some count => 10 <? count | None => false end = true).
  { destruct (cookieCount checks) as [count|].
    - rewrite Z.ltb_lt. split.
      + intros (c & Hceq & Hlt). apply (inj Some) in Hceq. subst c. exact Hlt.
      + intros Hlt. exists count. split; [reflexivity | exact Hlt].
    - split; [intros (c & Hceq & _); discriminate Hceq | discriminate]. }
  rewrite Hcount. clear Hcount.
  assert (Hmember : forall r,
    In r (critical
          ++ (if foundIn checks "cookieBanner" then [] else [addBanner])
          ++ (if foundIn checks "privacyPolicy" then [] else [addPrivacyPolicy])
          ++ (if foundIn checks "cookiePolicy" then [] else [addCookiePolicy])
          ++ (if foundIn checks "contactInfo" then [] else [addContact])
          ++ (if match cookieCount checks with
                 | Some count => 10 <? count | None => false end
              then [reduceCookies] else []))%list
    <-> In r critical
        \/ (foundIn checks "cookieBanner" = false /\ addBanner = r)
        \/ (foundIn checks "privacyPolicy" = false /\ addPrivacyPolicy = r)
        \/ (foundIn checks "cookiePolicy" = false /\ addCookiePolicy = r)
        \/ (foundIn checks "contactInfo" = false /\ addContact = r)
        \/ (match cookieCount checks with
            | Some count => 10 <? count | None => false end = true
            /\ reduceCookies = r)).
  { intros r. rewrite !in_app_iff, !in_unless, in_when. reflexivity. }
  fold addBanner addPrivacyPolicy addCookiePolicy addContact reduceCookies.
  assert (Hnot : forall r, priority r <> "CRITICAL" -> ~ In r critical).
  { intros r Hp Hr. apply Hp, Hc, Hr. }
  pose proof (Hnot addBanner ltac:(discriminate)) as N1.
  pose proof (Hnot addPrivacyPolicy ltac:(discriminate)) as N2.
  pose proof (Hnot addCookiePolicy ltac:(discriminate)) as N3.
  pose proof (Hnot addContact ltac:(discriminate)) as N4.
  pose proof (Hnot reduceCookies ltac:(discriminate)) as N5.
  split; [rewrite Hmember; intuition discriminate|].
  split; [rewrite Hmember; intuition discriminate|].
  split; [rewrite Hmember; intuition discriminate|].
  split; [rewrite Hmember; intuition discriminate|].
  split; [rewrite Hmember; intuition discriminate|].
  intros r Hr. apply Hmember in Hr.
  destruct Hr as [Hr|[[_ <-]|[[_ <-]|[[_ <-]|[[_ <-]|[_ <-]]]]]]; cbn; auto 10.
Qed.

Lemma generateRecommendations_conditions_witness :
  In addPrivacyPolicy
     (generateRecommendations (checksWith true false true true 12 []))
  /\ ~ In addBanner
       (generateRecommendations (checksWith true false true true 12 []))
  /\ In reduceCookies
       (generateRecommendations (checksWith true false true true 12 [])).
Proof.
  destruct (generateRecommendations_conditions
              (checksWith true false true true 12 []) [] eq_refl)
    as (Hb & Hp & _ & _ & Hr & _).
  split; [apply Hp; reflexivity|].
  split; [intros H; apply Hb in H; discriminate H|].
  apply Hr. exists 12. split; [reflexivity | lia].
Defined.

(* ===================================================================== *)
(** * The scores of a report *)
(* ===================================================================== *)

Lemma inRange_percent (k : Z) : 0 <= k <= 100 -> inRange (num_of_Z k).
Proof.
  intros Hk.
  assert (Hall : forallb (fun n => is_double (num_of_Z (Z.of_nat n))
                                   && JsNumber.leb (num_of_Z 0) (num_of_Z (Z.of_nat n))
                                   && JsNumber.leb (num_of_Z (Z.of_nat n)) (num_of_Z 100))
                         (seq 0 101) = true)
    by (vm_compute; reflexivity).
  rewrite forallb_forall in Hall.
  specialize (Hall (Z.to_nat k)).
  rewrite Z2Nat.id in Hall by lia.
  assert (Hin : In (Z.to_nat k) (seq 0 101)) by (apply in_seq; lia).
  apply Hall in Hin. apply andb_true_iff in Hin as [Hin H3].
  apply andb_true_iff in Hin as [H1 H2].
  split; [exact H1|]. split; [exact H2 | exact H3].
Qed.

Lemma percentScore_of (check : CheckResult) (k : Z) :
  0 <= k <= 100 -> score check = Some (num_of_Z k) -> percentScore check.
Proof.
  intros Hk Hs x Hx. rewrite Hs in Hx. apply (inj Some) in Hx. subst x.
  exists k. split; [exact Hk | reflexivity].
Qed.

Lemma percentScore_checkCookieBanner (dom : Dom) : percentScore (checkCookieBanner dom).
Proof.
  unfold checkCookieBanner.
  destruct (fold_left _ _ _) as [found0 elements].
  destruct (select dom "body") as [e|body].
  - apply (percentScore_of _ 0); [lia | reflexivity].
  - cbn [score].
    destruct (found0 || _);
      [apply (percentScore_of _ 100) | apply (percentScore_of _ 0)];
      (lia || reflexivity).
Qed.

Lemma percentScore_checkPolicy (links : list string) (kind : string) (full : Z)
  (dom : Dom) :
  0 <= full <= 100 -> percentScore (checkPolicy links kind full dom).
Proof.
  intros Hfull. unfold checkPolicy.
  destruct (select dom "a") as [e|anchors].
  - apply (percentScore_of _ 0); [lia | reflexivity].
  - destruct (fold_left _ _ _) as [[] recorded];
      [apply (percentScore_of _ full) | apply (percentScore_of _ 0)];
      (lia || reflexivity).
Qed.

Lemma percentScore_checkContactInfo (dom : Dom) : percentScore (checkContactInfo dom).
Proof.
  unfold checkContactInfo.
  destruct (forEach_try _ _ _) as [[[] contacts] [e|]];
    [ apply (percentScore_of _ 0) | apply (percentScore_of _ 80)
    | apply (percentScore_of _ 0) | apply (percentScore_of _ 0) ];
    (lia || reflexivity).
Qed.

Lemma percentScore_checkCookies (pageCookies : Try (list Cookie)) :
  percentScore (checkCookies pageCookies).
Proof.
  destruct pageCookies as [e|cookies]; cbn [checkCookies].
  - apply (percentScore_of _ 50); [lia | reflexivity].
  - unfold cookieTier.
    destruct (_ =? 0);
      [apply (percentScore_of _ 100); [lia | vm_compute; reflexivity]|].
    destruct (_ <=? 3);
      [apply (percentScore_of _ 80); [lia | vm_compute; reflexivity]|].
    destruct (_ <=? 10);
      [apply (percentScore_of _ 60); [lia | vm_compute; reflexivity]|].
    apply (percentScore_of _ 30); [lia | vm_compute; reflexivity].
Qed.

Lemma violationScore_percent (cookies requests : Z) :
  0 <= cookies -> 0 <= requests -> 0 <= violationScore cookies requests <= 100.
Proof.
  intros Hc Hr. unfold violationScore.
  destruct ((0 <? cookies) || (0 <? requests)); lia.
Qed.

Lemma percentScore_checkPreConsentViolations cookies requests html t0 t1 :
  percentScore (checkPreConsentViolations cookies requests html t0 t1).
Proof.
  unfold checkPreConsentViolations.
  destruct (filter_try isProblematic cookies) as [e|problematic].
  - apply (percentScore_of _ 50); [lia | reflexivity].
  - destruct (forEach_try scanRequest requests _) as [scan [e|]].
    + apply (percentScore_of _ 50); [lia | reflexivity].
    + eapply percentScore_of; [|reflexivity].
      apply violationScore_percent; lia.
Qed.

Lemma buildResults_percent address retryCount a html preConsentCookies valid details :
  forall key check,
    checks (buildResults address retryCount a html preConsentCookies
                         (sslResult valid details)) !! key = Some check ->
    percentScore check.
Proof.
  intros key check. unfold buildResults, guarded. cbn [checks mret Try_ret].
  rewrite !lookup_insert_Some, lookup_empty.
  intros H.
  repeat (destruct H as [[_ <-]|[_ H]]);
    [ apply percentScore_checkPreConsentViolations
    | apply percentScore_checkCookies
    | intros x Hx; discriminate Hx
    | apply percentScore_checkContactInfo
    | apply percentScore_checkPolicy; lia
    | apply percentScore_checkPolicy; lia
    | apply percentScore_checkCookieBanner
    | discriminate H ].
Qed.

(** The certificate check as the orchestrator runs it: the result is
    [sslCheck], and one connection is opened when the URL is an https one. *)
Lemma guardedSSL_run W a address σ :
  guardedSSL W a address σ
  = (inr (sslCheck W a address),
     if isHttps W address then addConnection (hostnameOf W address) σ else σ).
Proof.
  unfold guardedSSL, sslCheck, isHttps, hostnameOf, checkSSL.
  destruct (parseURL W address) as [err|parsed]; [reflexivity|].
  destruct (String.eqb (protocol parsed) "https:"); cbn [negb]; [|reflexivity].
  unfold mbind, Op_bind, connect, modify, mret, Op_ret.
  destruct (tls a); reflexivity.
Qed.

Lemma sslCheck_shape W a address :
  exists valid details, sslCheck W a address = sslResult valid details.
Proof.
  unfold sslCheck, checkSSL.
  destruct (parseURL W address) as [err|parsed]; [eexists _, _; reflexivity|].
  destruct (negb _); [eexists _, _; reflexivity|].
  unfold mbind, Op_bind, connect, modify, mret, Op_ret. cbn [fst].
  destruct (tls a) as [authorized cert|message]; [|eexists _, _; reflexivity].
  unfold onSecureConnect.
  destruct (valid_to cert); eexists _, _; reflexivity.
Qed.

(** A successful attempt, step by step. *)
Lemma attemptUrl_success W address retryCount σ results σ1 :
  attemptUrl W address retryCount σ = (inr results, σ1) ->
  let a := attempts W retryCount in
  exists html preConsentCookies,
    content a = inr html
    /\ cookiesBeforeConsent a = inr preConsentCookies
    /\ results = buildResults address retryCount a html preConsentCookies
                              (sslCheck W a address).
Proof.
  unfold attemptUrl.
  destruct (openPage W address retryCount σ) as [[e|page] σ0]; [discriminate|].
  unfold auditPage, mbind, Op_bind, lift, waitForDelay, modify, mret, Op_ret.
  destruct (configure (attempts W retryCount)); [discriminate|].
  destruct (navigate (attempts W retryCount) σ0) as [[e|[]] σa]; [discriminate|].
  destruct (content (attempts W retryCount)) as [e|html]; [discriminate|].
  destruct (cookiesBeforeConsent (attempts W retryCount)) as [e|cookies]; [discriminate|].
  rewrite guardedSSL_run.
  destruct (pageCleanup (Some page) _) as [[e|[]] σc]; [discriminate|].
  intros [= <- <-]. exists html, cookies. repeat split.
Qed.

Lemma buildResults_inRange address retryCount a html preConsentCookies W a' address' :
  scoresInRange (checks (buildResults address retryCount a html preConsentCookies
                                      (sslCheck W a' address'))).
Proof.
  intros key check x _ Hkey Hx.
  destruct (sslCheck_shape W a' address') as (valid & details & Hssl).
  rewrite Hssl in Hkey.
  destruct (buildResults_percent _ _ _ _ _ _ _ _ _ Hkey x Hx) as (k & Hk & ->).
  apply inRange_percent. exact Hk.
Qed.

Lemma buildResults_score address retryCount a html preConsentCookies ssl :
  report_score (buildResults address retryCount a html preConsentCookies ssl)
  = calculateScore (checks (buildResults address retryCount a html preConsentCookies ssl)).
Proof. reflexivity. Qed.

(** X7. The score of every report is the double of an integer from 0 to
    100, and so is every score in its checks: the report of a successful
    attempt rounds a weighted sum of such scores, and the error report
    carries 0. *)
Theorem checkUrl_score_percent W address retryCount σ report σ' :
  checkUrl W address retryCount σ = Some (report, σ') ->
  (exists n, 0 <= n <= 100 /\ report_score report = num_of_Z n)
  /\ (forall key check, checks report !! key = Some check -> percentScore check).
Proof.
  intros H. apply checkUrl_Run in H.
  induction H as [k σ results σ1 Ha | k σ page e σ1 report σ' Ha Hlt _ IH
                 | k σ page e σ1 Ha Hge].
  - destruct (attemptUrl_success _ _ _ _ _ _ Ha) as (html & cookies & _ & _ & ->).
    split.
    + rewrite buildResults_score. apply calculateScore_range, buildResults_inRange.
    + destruct (sslCheck_shape W (attempts W k) address) as (valid & details & ->).
      apply buildResults_percent.
  - exact IH.
  - split.
    + exists 0. split; [lia | reflexivity].
    + intros key check Hkey. cbn [errorReport checks] in Hkey.
      rewrite lookup_empty in Hkey. discriminate Hkey.
Qed.

Lemma checkUrl_score_percent_witness :
  exists report n,
    fst <$> checkUrl steadyWorld "https://shop.example/" 0 initial = Some report
    /\ 0 <= n <= 100 /\ report_score report = num_of_Z n.
Proof.
  destruct (checkUrl steadyWorld "https://shop.example/" 0 initial)
    as [[report σ']|] eqn:E; [|vm_compute in E; discriminate E].
  destruct (checkUrl_score_percent _ _ _ _ _ _ E) as [(n & Hn & Hs) _].
  exists report, n. split; [reflexivity|]. split; assumption.
Defined.

(* ===================================================================== *)
(** * The certificate check: when the certificate counts as valid *)
(* ===================================================================== *)

Lemma sslResult_inj valid details valid' details' :
  sslResult valid details = sslResult valid' details' ->
  valid = valid' /\ details = details'.
Proof. intros H. injection H as H1 H2. split; assumption. Qed.

Lemma onSecureConnect_valid (cert : Certificate) (now : Z) (details : string) :
  onSecureConnect cert now = sslResult true details <->
  exists expiry t,
    valid_to cert = Some expiry /\ cert_time expiry = Some t /\ now < t
    /\ details = "Platný do " +:+ cert_locale expiry.
Proof.
  unfold onSecureConnect. split.
  - destruct (valid_to cert) as [expiry|];
      [|intros H; apply sslResult_inj in H as [H _]; discriminate H].
    destruct (cert_time expiry) as [t|] eqn:Et;
      [|intros H; apply sslResult_inj in H as [H _]; discriminate H].
    destruct (now <? t) eqn:E;
      [|intros H; apply sslResult_inj in H as [H _]; discriminate H].
    intros H. apply sslResult_inj in H as [_ <-].
    exists expiry, t. apply Z.ltb_lt in E. repeat split; assumption.
  - intros (expiry & t & -> & -> & Hlt & ->).
    apply Z.ltb_lt in Hlt. rewrite Hlt. reflexivity.
Qed.

Ltac ssl_invalid H :=
  apply pair_equal_spec in H as [H _]; apply (inj inr) in H;
  apply sslResult_inj in H as [H _]; discriminate H.

(** X8. The certificate check reports a valid certificate exactly when the
    URL is an https one, the TLS connection is established, and the peer
    certificate carries an expiry date that lies after the current time;
    the details then name that date.  Whether the TLS stack authorised the
    certificate plays no part: two connections that differ only in that
    give the same result. *)
Theorem checkSSL_valid W a address σ :
  (forall details σ',
      checkSSL W a address σ = (inr (sslResult true details), σ') <->
      exists parsed authorized cert expiry t,
        parseURL W address = inr parsed
        /\ protocol parsed = "https:"
        /\ tls a = SecureConnect authorized cert
        /\ valid_to cert = Some expiry
        /\ cert_time expiry = Some t
        /\ now a < t
        /\ details = "Platný do " +:+ cert_locale expiry
        /\ σ' = addConnection (hostname parsed) σ)
  /\ (forall authorized authorized' cert,
        tls a = SecureConnect authorized cert ->
        checkSSL W (withTls (SecureConnect authorized' cert) a) address σ
        = checkSSL W a address σ).
Proof.
  split.
  - intros details σ'. unfold checkSSL.
    destruct (parseURL W address) as [err|parsed].
    { split.
      - intros H. ssl_invalid H.
      - intros (p & _ & _ & _ & _ & H & _). discriminate H. }
    destruct (String.eqb (protocol parsed) "https:") eqn:Ep; cbn [negb].
    + apply String.eqb_eq in Ep.
      unfold mbind, Op_bind, connect, modify, mret, Op_ret.
      destruct (tls a) as [authorized cert|message].
      * split.
        -- intros H. apply pair_equal_spec in H as [H <-]. apply (inj inr) in H.
           apply onSecureConnect_valid in H as (expiry & t & Hv & Ht & Hlt & Hd).
           exists parsed, authorized, cert, expiry, t. repeat split; assumption.
        -- intros (p & b & c & expiry & t & Hp & _ & Hc & Hv & Ht & Hlt & Hd & ->).
           apply (inj inr) in Hp. subst p.
           injection Hc as <- <-.
           f_equal. f_equal. apply onSecureConnect_valid.
           exists expiry, t. repeat split; assumption.
      * split.
        -- intros H. ssl_invalid H.
        -- intros (p & b & c & _ & _ & _ & _ & H & _). discriminate H.
    + apply String.eqb_neq in Ep. split.
      * intros H. ssl_invalid H.
      * intros (p & _ & _ & _ & _ & Hp & Hhttps & _).
        apply (inj inr) in Hp. subst p. contradiction.
  - intros authorized authorized' cert Htls. unfold checkSSL.
    destruct (parseURL W address) as [err|parsed]; [reflexivity|].
    destruct (negb _); [reflexivity|].
    unfold mbind, Op_bind, connect, modify, mret, Op_ret.
    rewrite Htls. reflexivity.
Qed.

Lemma checkSSL_valid_witness :
  checkSSL steadyWorld (withTls (SecureConnect false (expiresAt 2000000 "1/1/2030")) loads)
           "https://shop.example/" initial
  = checkSSL steadyWorld loads "https://shop.example/" initial
  /\ checkSSL steadyWorld loads "https://shop.example/" initial
     = (inr (sslResult true "Platný do 1/1/2030"), addConnection "shop.example" initial).
Proof.
  destruct (checkSSL_valid steadyWorld loads "https://shop.example/" initial) as [Hv Hi].
  split.
  - apply (Hi true false (expiresAt 2000000 "1/1/2030")). reflexivity.
  - apply Hv.
    exists {| protocol := "https:"; hostname := "shop.example" |}, true,
           (expiresAt 2000000 "1/1/2030"),
           {| cert_time := Some 2000000; cert_locale := "1/1/2030" |}, 2000000.
    repeat split.
Defined.

(* ===================================================================== *)
(** * The detected tracking services *)
(* ===================================================================== *)

Section ForEach.

Context {S A : Type}.

(** An invariant of the body is an invariant of the loop, also when the
    loop is left by a throw. *)
Lemma forEach_try_invariant (P : S -> Prop) (f : A -> S -> S * option exn)
  (l : list A) :
  (forall x s, In x l -> P s -> P (fst (f x s))) ->
  forall s, P s -> P (fst (forEach_try f l s)).
Proof.
  induction l as [|x l IH]; intros Hf s Hs; cbn [forEach_try]; [exact Hs|].
  pose proof (Hf x s (or_introl eq_refl) Hs) as Hx.
  destruct (f x s) as [s' [e|]]; cbn [fst] in Hx |- *; [exact Hx|].
  apply IH; [|exact Hx]. intros y t Hy. apply Hf. right. exact Hy.
Qed.

End ForEach.

Lemma named_in_services (n : string) (services : list TrackingService) :
  existsb (fun s => String.eqb (ts_name s) n) services = true
  <-> In n (map ts_name services).
Proof.
  split.
  - intros H. apply existsb_exists in H as (t & Ht & Heq).
    apply String.eqb_eq in Heq. apply List.in_map_iff. exists t. split; assumption.
  - intros H. apply List.in_map_iff in H as (t & Heq & Ht).
    apply existsb_exists. exists t. split; [exact Ht|]. apply String.eqb_eq. exact Heq.
Qed.

Lemma scanService_distinct (r : NetworkRequest) (entry : string * Service) (acc : Scan) :
  In entry TRACKING_SERVICES ->
  servicesDistinct acc -> servicesDistinct (fst (scanService r entry acc)).
Proof.
  intros Hentry [Hnodup Hknown]. unfold scanService.
  destruct (matchesService r (snd entry)) as [e|[]]; cbn [fst];
    [split; assumption | | split; assumption].
  unfold servicesDistinct. cbn [scan_services].
  destruct (existsb _ (scan_services acc)) eqn:E; [split; assumption|].
  split.
  - unfold push. rewrite map_app. cbn [map ts_name].
    apply NoDup_app. split; [exact Hnodup|]. split.
    + intros n Hn Hs. apply list_elem_of_singleton in Hs. subst n.
      apply list_elem_of_In, named_in_services in Hn. rewrite Hn in E. discriminate E.
    + apply NoDup_singleton.
  - intros t Ht. unfold push in Ht. apply in_app_iff in Ht as [Ht|[<-|[]]].
    + apply Hknown. exact Ht.
    + exists entry. split; [exact Hentry | reflexivity].
Qed.

Lemma scanRequest_distinct (r : NetworkRequest) (acc : Scan) :
  servicesDistinct acc -> servicesDistinct (fst (scanRequest r acc)).
Proof.
  unfold scanRequest. apply forEach_try_invariant.
  intros entry s Hentry. apply scanService_distinct. exact Hentry.
Qed.

Lemma scanRequests_distinct (requests : list NetworkRequest) (acc : Scan) :
  servicesDistinct acc -> servicesDistinct (fst (forEach_try scanRequest requests acc)).
Proof.
  apply forEach_try_invariant. intros r s _. apply scanRequest_distinct.
Qed.

(** The names after one service was tried without a throw. *)
Lemma scanService_names (r : NetworkRequest) (entry : string * Service)
  (acc acc' : Scan) :
  scanService r entry acc = (acc', None) ->
  forall n, In n (map ts_name (scan_services acc'))
            <-> In n (map ts_name (scan_services acc))
                \/ (hits r (snd entry) = true /\ service_name (snd entry) = n).
Proof.
  unfold scanService, hits.
  destruct (matchesService r (snd entry)) as [e|[]]; [discriminate| |].
  - intros H n. apply pair_equal_spec in H as [<- _]. cbn [scan_services].
    destruct (existsb _ (scan_services acc)) eqn:E.
    + apply named_in_services in E. split; [tauto|].
      intros [H|[_ <-]]; assumption.
    + unfold push. rewrite map_app, in_app_iff. cbn. tauto.
  - intros H n. apply pair_equal_spec in H as [<- _]. split; [tauto|].
    intros [H|[H _]]; [exact H | discriminate H].
Qed.

Lemma scanServices_names (r : NetworkRequest) (entries : list (string * Service)) :
  forall acc acc',
    forEach_try (scanService r) entries acc = (acc', None) ->
    forall n, In n (map ts_name (scan_services acc'))
              <-> In n (map ts_name (scan_services acc))
                  \/ exists s, In s (map snd entries) /\ hits r s = true
                               /\ service_name s = n.
Proof.
  induction entries as [|entry entries IH]; intros acc acc'; cbn [forEach_try].
  - intros H n. apply pair_equal_spec in H as [<- _]. split; [tauto|].
    intros [H|(s & [] & _)]. exact H.
  - destruct (scanService r entry acc) as [acc1 [e|]] eqn:E1; [discriminate|].
    intros H n. rewrite (IH _ _ H n), (scanService_names _ _ _ _ E1 n).
    cbn [map]. split.
    + intros [[H0|(Hh & Hn)]|(s & Hs & Hh & Hn)].
      * left. exact H0.
      * right. exists (snd entry). split; [left; reflexivity|]. split; assumption.
      * right. exists s. split; [right; exact Hs|]. split; assumption.
    + intros [H0|(s & [<-|Hs] & Hh & Hn)].
      * left. left. exact H0.
      * left. right. split; assumption.
      * right. exists s. split; [exact Hs|]. split; assumption.
Qed.

Lemma scanRequests_names (requests : list NetworkRequest) :
  forall acc acc',
    forEach_try scanRequest requests acc = (acc', None) ->
    forall n, In n (map ts_name (scan_services acc'))
              <-> In n (map ts_name (scan_services acc))
                  \/ exists r s, In r requests /\ In s (map snd TRACKING_SERVICES)
                                 /\ hits r s = true /\ service_name s = n.
Proof.
  induction requests as [|r requests IH]; intros acc acc'; cbn [forEach_try].
  - intros H n. apply pair_equal_spec in H as [<- _]. split; [tauto|].
    intros [H|(r & s & [] & _)]. exact H.
  - destruct (scanRequest r acc) as [acc1 [e|]] eqn:E1; [discriminate|].
    intros H n. unfold scanRequest in E1.
    rewrite (IH _ _ H n), (scanServices_names _ _ _ _ E1 n). split.
    + intros [[H0|(s & Hs & Hh & Hn)]|(r' & s & Hr & Hs & Hh & Hn)].
      * left. exact H0.
      * right. exists r, s. split; [left; reflexivity|]. repeat split; assumption.
      * right. exists r', s. split; [right; exact Hr|]. repeat split; assumption.
    + intros [H0|(r' & s & [<-|Hr] & Hs & Hh & Hn)].
      * left. left. exact H0.
      * left. right. exists s. repeat split; assumption.
      * right. exists r', s. repeat split; assumption.
Qed.

(** X9. The list of detected tracking services names no service twice,
    whatever the number of requests that match it, and each entry carries the
    name and the category of a configured service; this holds also when the
    check is cut short by a throw.  When nothing throws, a service is listed
    exactly when some captured request matches one of its patterns. *)
Theorem trackingServices_distinct cookies requests html t0 t1 :
  let services :=
    trackingServicesOf (checkPreConsentViolations cookies requests html t0 t1) in
  NoDup (map ts_name services)
  /\ (forall t, In t services ->
                exists entry, In entry TRACKING_SERVICES /\ t = detected (snd entry))
  /\ (violationCheckThrows cookies requests = false ->
      forall n, In n (map ts_name services)
                <-> exists r s, In r requests /\ In s (map snd TRACKING_SERVICES)
                                /\ hits r s = true /\ service_name s = n).
Proof.
  intros services.
  assert (Hinit : servicesDistinct {| scan_requests := []; scan_services := [] |}).
  { split; [constructor | intros t []]. }
  pose proof (scanRequests_distinct requests _ Hinit) as Hd.
  assert (Hshape : services = []
                   \/ services
                      = scan_services
                          (fst (forEach_try scanRequest requests
                                  {| scan_requests := []; scan_services := [] |}))).
  { subst services. unfold checkPreConsentViolations, trackingServicesOf.
    destruct (filter_try isProblematic cookies); [left; reflexivity|].
    destruct (forEach_try scanRequest requests _) as [scan [e|]]; right; reflexivity. }
  split; [|split].
  - destruct Hshape as [->| ->]; [constructor | apply Hd].
  - destruct Hshape as [->| ->]; [intros t [] | apply Hd].
  - intros Hquiet n.
    destruct (checkPreConsentViolations_ok cookies requests html t0 t1 Hquiet)
      as (scan & Hscan & _ & Hresult).
    subst services. rewrite Hresult. unfold trackingServicesOf. cbn [evidence].
    rewrite (scanRequests_names _ _ _ Hscan n). cbn [scan_services map].
    split; [intros [[]|H]; exact H | intros H; right; exact H].
Qed.

Lemma trackingServices_distinct_witness :
  In "Facebook Pixel"
     (map ts_name (trackingServicesOf
                     (checkPreConsentViolations [] [pixelRequest; pixelRequest] "" 0 0)))
  /\ NoDup (map ts_name (trackingServicesOf
                           (checkPreConsentViolations [] [pixelRequest; pixelRequest] "" 0 0))).
Proof.
  destruct (trackingServices_distinct [] [pixelRequest; pixelRequest] "" 0 0)
    as (Hn & _ & Hiff).
  split; [|exact Hn].
  apply (Hiff eq_refl).
  exists pixelRequest,
    {| patterns := ["facebook.com/tr"; "connect.facebook.net"; "fbq"; "_fbp"; "_fbc"];
       service_name := "Facebook Pixel"; category := "marketing" |}.
  split; [left; reflexivity|]. split; [right; left; reflexivity|].
  split; reflexivity.
Defined.

(* ===================================================================== *)
(** * Violations and the CRITICAL recommendations *)
(* ===================================================================== *)

Lemma violations_cases cookies requests html t0 t1 :
  let result := checkPreConsentViolations cookies requests html t0 t1 in
  exists services,
    (evidence result = PreConsent (violationsOf result) (Z.of_nat (List.length cookies)) services)
    /\ found result = Some (nonEmpty (violationsOf result))
    /\ (violationsOf result = []
        \/ (exists kept, kept <> [] /\ violationsOf result = [cookieViolation kept])
        \/ (exists tracked, tracked <> [] /\ violationsOf result = [requestViolation tracked])
        \/ (exists kept tracked,
               kept <> [] /\ tracked <> []
               /\ violationsOf result = [cookieViolation kept; requestViolation tracked])).
Proof.
  cbn zeta. unfold checkPreConsentViolations, violationsOf.
  destruct (filter_try isProblematic cookies) as [e|kept].
  { eexists. cbn [evidence found]. split; [reflexivity|]. split; [reflexivity|].
    left. reflexivity. }
  destruct (forEach_try scanRequest requests _) as [scan [e|]].
  { eexists. cbn [evidence found]. split; [reflexivity|]. split; [reflexivity|].
    left. reflexivity. }
  eexists. cbn [evidence found]. split; [reflexivity|].
  destruct kept as [|c kept], (scan_requests scan) as [|t tracked];
    cbn [List.length app nonEmpty];
    repeat match goal with
           | |- context [0 <? Z.of_nat (S ?n)] =>
               replace (0 <? Z.of_nat (S n)) with true by (symmetry; apply Z.ltb_lt; lia)
           end;
    cbn [Z.of_nat Z.ltb Z.compare orb app nonEmpty]; (split; [reflexivity|]).
  - left. reflexivity.
  - right. right. left. exists (t :: tracked). split; [discriminate | reflexivity].
  - right. left. exists (c :: kept). split; [discriminate | reflexivity].
  - right. right. right. exists (c :: kept), (t :: tracked).
    split; [discriminate|]. split; [discriminate | reflexivity].
Qed.

(** The CRITICAL recommendation of a violation. *)
Lemma criticalRecommendations_violations cookies requests html t0 t1
  (checks : gmap string CheckResult) :
  checks !! "preConsentViolations"
    = Some (checkPreConsentViolations cookies requests html t0 t1) ->
  criticalRecommendations checks
  = inr (map criticalFor
             (violationsOf (checkPreConsentViolations cookies requests html t0 t1))).
Proof.
  intros Hlookup.
  destruct (violations_cases cookies requests html t0 t1)
    as (services & Hev & Hfound & Hcases).
  cbn zeta in Hev, Hfound, Hcases.
  unfold criticalRecommendations, criticalBlock, foundIn. rewrite Hlookup, Hfound.
  cbn [fmap option_fmap option_map default]. rewrite Hev.
  destruct Hcases as [->|[(k & _ & ->)|[(t & _ & ->)|(k & t & _ & _ & ->)]]];
    cbn [nonEmpty]; [reflexivity| | |];
    cbn [forEach_try map app]; unfold violationRecommendation, criticalFor, push;
    cbn [v_type v_details cookieViolation requestViolation details_length mret Try_ret];
    cbn [String.eqb Ascii.eqb Bool.eqb app]; unfold criticalCookies;
    rewrite ?List.length_map; reflexivity.
Qed.

(** X10. The violation check always reports the number of cookies it was
    given, at most two violations, each of severity HIGH, and found = true
    exactly when there is a violation.  The recommendation engine then gives
    exactly one CRITICAL recommendation for each violation, in the same
    order and before every other recommendation; the one for cookies names
    the number of cookies of the violation. *)
Theorem violations_recommended cookies requests html t0 t1
  (checks : gmap string CheckResult) :
  let result := checkPreConsentViolations cookies requests html t0 t1 in
  totalCookiesOf result = Some (Z.of_nat (List.length cookies))
  /\ found result = Some (nonEmpty (violationsOf result))
  /\ (List.length (violationsOf result) <= 2)%nat
  /\ Forall (fun v => v_severity v = "HIGH") (violationsOf result)
  /\ (checks !! "preConsentViolations" = Some result ->
      criticalRecommendations checks = inr (map criticalFor (violationsOf result))
      /\ exists rest,
           generateRecommendations checks
           = (map criticalFor (violationsOf result) ++ rest)%list
           /\ Forall (fun r => priority r <> "CRITICAL") rest).
Proof.
  intros result.
  destruct (violations_cases cookies requests html t0 t1)
    as (services & Hev & Hfound & Hcases).
  fold result in Hev, Hfound, Hcases.
  split; [unfold totalCookiesOf; rewrite Hev; reflexivity|].
  split; [exact Hfound|].
  split.
  { destruct Hcases as [->|[(k & _ & ->)|[(t & _ & ->)|(k & t & _ & _ & ->)]]]; cbn; lia. }
  split.
  { destruct Hcases as [->|[(k & _ & ->)|[(t & _ & ->)|(k & t & _ & _ & ->)]]];
      repeat constructor. }
  intros Hlookup.
  pose proof (criticalRecommendations_violations _ _ _ _ _ _ Hlookup) as Hcrit.
  fold result in Hcrit.
  split; [exact Hcrit|].
  destruct (generateRecommendations_parts _ _ Hcrit) as (rest & Heq & _ & Hprio).
  exists rest. split; [exact Heq|].
  rewrite List.Forall_forall in Hprio |- *.
  intros r Hr Hc. specialize (Hprio r Hr). rewrite Hc in Hprio.
  cbn in Hprio. destruct Hprio as [H|[H|[]]]; discriminate H.
Qed.

Lemma violations_recommended_witness :
  criticalRecommendations
    (<["preConsentViolations" :=
         checkPreConsentViolations
           [namedCookie "_ga"; namedCookie "_fbp"] [pixelRequest] "" 0 0]> ∅)
  = inr [criticalCookies 2; criticalTracking].
Proof.
  destruct (violations_recommended
              [namedCookie "_ga"; namedCookie "_fbp"] [pixelRequest] "" 0 0
              (<["preConsentViolations" :=
                   checkPreConsentViolations
                     [namedCookie "_ga"; namedCookie "_fbp"] [pixelRequest] "" 0 0]> ∅))
    as (_ & _ & _ & _ & H).
  destruct (H (lookup_insert_eq _ _ _)) as [Hc _].
  exact Hc.
Defined.

(* ===================================================================== *)
(** * What an audit leaves in the session *)
(* ===================================================================== *)

Lemma adds_nothing host σ σ' :
  pagesCreated σ' = pagesCreated σ -> openPages σ' = openPages σ ->
  waits σ' = waits σ -> connections σ' = connections σ ->
  adds host σ σ' 0 0 0.
Proof.
  intros Hp Ho Hw Hc. unfold adds. cbn [repeat set_seq].
  rewrite Hp, Ho, Hw, Hc, Nat.add_0_r, !app_nil_r.
  split; [reflexivity|]. split; [|split; reflexivity].
  apply set_eq. intros x. set_unfold. tauto.
Qed.

Lemma adds_trans host σ1 σ2 σ3 p w c p' w' c' :
  adds host σ1 σ2 p w c -> adds host σ2 σ3 p' w' c' ->
  adds host σ1 σ3 (p + p') (w + w') (c + c').
Proof.
  intros (Hp & Ho & Hw & Hc) (Hp' & Ho' & Hw' & Hc'). unfold adds.
  rewrite Hp', Ho', Hw', Hc', Hp, Ho, Hw, Hc, !repeat_app, !app_assoc.
  split; [lia|]. split; [|split; reflexivity].
  apply set_eq. intros x. set_unfold. intuition lia.
Qed.

(** [initBrowser]: with a browser at hand nothing is launched; otherwise
    the launch decides. *)
Lemma initBrowser_cases a σ :
  (exists σb,
      initBrowser a σ = (inr tt, σb)
      /\ browser σb = true
      /\ pagesCreated σb = pagesCreated σ /\ openPages σb = openPages σ
      /\ waits σb = waits σ /\ connections σb = connections σ
      /\ (browser σ = true -> σb = σ))
  \/ (exists e,
         initBrowser a σ = (inl ("Browser initialization failed: " +:+ e), σ)
         /\ browser σ = false /\ launch a = inl e).
Proof.
  unfold initBrowser. destruct (browser σ) eqn:Hb.
  - left. exists σ. repeat split. exact Hb.
  - destruct (launch a) as [e|[]].
    + right. exists e. repeat split.
    + left. exists (setBrowser σ). repeat split. discriminate.
Qed.

Ltac session_leaf Hw Hc :=
  try reflexivity; try assumption; try lia; try discriminate;
  try (cbn; unfold push; rewrite ?app_nil_r;
       first [rewrite Hw; reflexivity | rewrite Hc; reflexivity | exact Hw | exact Hc]);
  try (intros ? ?; discriminate);
  try (intros ? _; split; [reflexivity | first [reflexivity | discriminate]]).

(** One attempt. *)
Lemma attemptUrl_adds W address retryCount σ r σ1 :
  attemptUrl W address retryCount σ = (r, σ1) ->
  exists p w c,
    adds (hostnameOf W address) σ σ1 p w c
    /\ (c <= w <= p)%nat /\ (p <= 1)%nat
    /\ (isHttps W address = false -> c = 0%nat)
    /\ (browser σ = true \/ p = 1%nat -> browser σ1 = true)
    /\ (forall results, r = inr results ->
          w = 1%nat /\ (isHttps W address = true -> c = 1%nat)).
Proof.
  unfold attemptUrl, openPage, mbind, Op_bind, modify, lift, gets, raise, mret, Op_ret.
  cbv beta iota zeta.
  set (a := attempts W retryCount).
  set (σ0 := logAttempt (retryCount + 1) σ).
  assert (early : forall (e : option nat * exn) σe,
             pagesCreated σe = pagesCreated σ -> openPages σe = openPages σ ->
             waits σe = waits σ -> connections σe = connections σ ->
             (browser σ = true -> browser σe = true) ->
             (inl e : option nat * exn + Report, σe) = (r, σ1) ->
             exists p w c,
               adds (hostnameOf W address) σ σ1 p w c
               /\ (c <= w <= p)%nat /\ (p <= 1)%nat
               /\ (isHttps W address = false -> c = 0%nat)
               /\ (browser σ = true \/ p = 1%nat -> browser σ1 = true)
               /\ (forall results, r = inr results ->
                     w = 1%nat /\ (isHttps W address = true -> c = 1%nat))).
  { intros e σe Hp Ho Hw Hc Hb H. apply pair_equal_spec in H as [<- <-].
    exists 0%nat, 0%nat, 0%nat.
    split; [apply adds_nothing; assumption|].
    split; [lia|]. split; [lia|]. split; [reflexivity|].
    split; [intros [H|H]; [apply Hb, H | discriminate H]|].
    intros results H. discriminate H. }
  destruct (parseURL W address) as [e|urlObj] eqn:Hparse;
    [apply early; reflexivity || (intros H; exact H)|].
  destruct (existsb _ _) eqn:Hproto;
    [|apply early; reflexivity || (intros H; exact H)].
  destruct (initBrowser_cases a σ0)
    as [(σb & -> & Hb & Hp & Ho & Hw & Hc & _) | (e & -> & Hb & _)];
    [|apply early; try reflexivity; intros H; change (browser σ0) with (browser σ) in Hb;
      rewrite Hb in H; discriminate H].
  change (pagesCreated σ0) with (pagesCreated σ) in Hp.
  change (openPages σ0) with (openPages σ) in Ho.
  change (waits σ0) with (waits σ) in Hw.
  change (connections σ0) with (connections σ) in Hc.
  destruct (newPage a) as [e|[]];
    [apply early; try assumption; intros _; exact Hb|].
  set (page := pagesCreated σb).
  set (σp := addPage σb).
  assert (late : forall (x : option nat * exn + Report) σe w c,
             pagesCreated σe = pagesCreated σp -> openPages σe = openPages σp ->
             browser σe = true ->
             waits σe = (waits σ ++ repeat 3000 w)%list ->
             connections σe = (connections σ ++ repeat (hostnameOf W address) c)%list ->
             (c <= w <= 1)%nat ->
             (isHttps W address = false -> c = 0%nat) ->
             (forall results, x = inr results ->
                w = 1%nat /\ (isHttps W address = true -> c = 1%nat)) ->
             (x, σe) = (r, σ1) ->
             exists p w c,
               adds (hostnameOf W address) σ σ1 p w c
               /\ (c <= w <= p)%nat /\ (p <= 1)%nat
               /\ (isHttps W address = false -> c = 0%nat)
               /\ (browser σ = true \/ p = 1%nat -> browser σ1 = true)
               /\ (forall results, r = inr results ->
                     w = 1%nat /\ (isHttps W address = true -> c = 1%nat))).
  { intros x σe w c Hp' Ho' Hb' Hw' Hc' Hle Hhttps Hok H.
    apply pair_equal_spec in H as [<- <-].
    exists 1%nat, w, c.
    split.
    { unfold adds. rewrite Hp', Ho', Hw', Hc'. subst σp. cbn [pagesCreated openPages addPage].
      rewrite Hp, Ho. repeat split; [lia|].
      apply set_eq. intros y. set_unfold. intuition lia. }
    split; [lia|]. split; [lia|]. split; [exact Hhttps|].
    split; [intros _; exact Hb' | exact Hok]. }
  unfold auditPage, mbind, Op_bind, lift, waitForDelay, modify, mret, Op_ret.
  fold a.
  destruct (configure a) as [e|[]];
    [apply (late _ _ 0%nat 0%nat); session_leaf Hw Hc|].
  assert (Hnav : navigate a σp = (inr tt, σp) \/ exists e, navigate a σp = (inl e, σp)).
  { unfold navigate. destruct (goto a) as [m| |status text];
      [right; eexists; reflexivity | right; eexists; reflexivity|].
    destruct (400 <=? status); [right; eexists; reflexivity | left; reflexivity]. }
  destruct Hnav as [-> | (e & ->)];
    [|apply (late _ _ 0%nat 0%nat); session_leaf Hw Hc].
  set (σw := addWait 3000 σp).
  destruct (content a) as [e|html];
    [apply (late _ _ 1%nat 0%nat); session_leaf Hw Hc|].
  destruct (cookiesBeforeConsent a) as [e|cookies];
    [apply (late _ _ 1%nat 0%nat); session_leaf Hw Hc|].
  rewrite guardedSSL_run.
  set (σs := if isHttps W address then addConnection (hostnameOf W address) σw else σw).
  pose proof (pageCleanup_noop (Some page) σs) as Hclean.
  destruct (pageCleanup (Some page) σs) as [[e|[]] σc]; cbn [snd] in Hclean; subst σc;
    subst σs; destruct (isHttps W address) eqn:Hs;
    [ apply (late _ _ 1%nat 1%nat) | apply (late _ _ 1%nat 0%nat)
    | apply (late _ _ 1%nat 1%nat) | apply (late _ _ 1%nat 0%nat) ];
    session_leaf Hw Hc.
Qed.

Lemma adds_after_delay host ms σ σ' p w c :
  adds host (addDelay ms σ) σ' p w c -> adds host σ σ' p w c.
Proof. intros H. exact H. Qed.

(** A report without an error is the [results] object of its last attempt. *)
Lemma Run_success W address k σ report σ' :
  Run W address k σ report σ' ->
  report_error report = None ->
  let a := attempts W (retryCount (debug report)) in
  exists html preConsentCookies,
    content a = inr html
    /\ cookiesBeforeConsent a = inr preConsentCookies
    /\ report = buildResults address (retryCount (debug report)) a html preConsentCookies
                             (sslCheck W a address).
Proof.
  induction 1 as [k σ results σ1 Ha | k σ page e σ1 report σ' Ha Hlt _ IH
                 | k σ page e σ1 Ha Hge]; intros Herr.
  - destruct (attemptUrl_success _ _ _ _ _ _ Ha) as (html & cookies & Hc & Hk & ->).
    exists html, cookies. cbn [debug buildResults retryCount]. repeat split; assumption.
  - apply IH. exact Herr.
  - discriminate Herr.
Qed.

Lemma Run_adds W address k σ report σ' :
  Run W address k σ report σ' ->
  exists p w c,
    adds (hostnameOf W address) σ σ' p w c
    /\ (c <= w <= p)%nat
    /\ (p <= retryCount (debug report) - k + 1)%nat
    /\ (isHttps W address = false -> c = 0%nat)
    /\ (browser σ = true \/ (1 <= p)%nat -> browser σ' = true)
    /\ (report_error report = None ->
        (1 <= w)%nat /\ (isHttps W address = true -> (1 <= c)%nat)).
Proof.
  induction 1 as [k σ results σ1 Ha | k σ page e σ1 report σ' Ha Hlt Hrest IH
                 | k σ page e σ1 Ha Hge].
  - destruct (attemptUrl_adds _ _ _ _ _ _ Ha)
      as (p & w & c & Hadds & Hcw & Hp & Hhttp & Hb & Hok).
    destruct (Hok results eq_refl) as [-> Hc].
    exists p, 1%nat, c. split; [exact Hadds|]. split; [exact Hcw|]. split; [lia|].
    split; [exact Hhttp|]. split; [intros [H|H]; apply Hb; [left; exact H | right; lia]|].
    intros _. split; [lia|]. intros H. rewrite (Hc H). lia.
  - destruct (attemptUrl_adds _ _ _ _ _ _ Ha)
      as (p1 & w1 & c1 & Hadds1 & Hcw1 & Hp1 & Hhttp1 & Hb1 & _).
    destruct IH as (p2 & w2 & c2 & Hadds2 & Hcw2 & Hp2 & Hhttp2 & Hb2 & Hok2).
    destruct (Run_facts _ _ _ _ _ _ Hrest) as (Hle & _).
    exists (p1 + p2)%nat, (w1 + w2)%nat, (c1 + c2)%nat.
    split; [eapply adds_trans; [exact Hadds1 | apply adds_after_delay in Hadds2; exact Hadds2]|].
    split; [lia|]. split; [cbn zeta in Hle; lia|].
    split; [intros H; rewrite (Hhttp1 H), (Hhttp2 H); reflexivity|].
    split.
    + intros [H|H].
      * apply Hb2. left. cbn [browser addDelay]. apply Hb1. left. exact H.
      * destruct p1 as [|p1].
        -- apply Hb2. right. lia.
        -- apply Hb2. left. cbn [browser addDelay]. apply Hb1. right. lia.
    + intros H. destruct (Hok2 H) as [Hw Hc]. split; [lia|]. intros Hs. specialize (Hc Hs). lia.
  - destruct (attemptUrl_adds _ _ _ _ _ _ Ha)
      as (p & w & c & Hadds & Hcw & Hp & Hhttp & Hb & _).
    exists p, w, c. split; [exact Hadds|]. split; [exact Hcw|].
    split; [cbn [errorReport debug retryCount]; lia|].
    split; [exact Hhttp|]. split; [intros [H|H]; apply Hb; [left; exact H | right; lia]|].
    intros H. discriminate H.
Qed.

(** X11. No audit closes a page: the pages open after [checkUrl] are those
    open before together with every page the audit created, at most one for
    each attempt, so at most three and, for a report without error, at least
    one.  In a session whose open pages are
    numbered below the page counter the number of open pages grows by the
    number of pages created. *)
Theorem checkUrl_pages_accumulate W address σ report σ' :
  checkUrl W address 0 σ = Some (report, σ') ->
  exists created : nat,
    pagesCreated σ' = (pagesCreated σ + created)%nat
    /\ openPages σ' = openPages σ ∪ set_seq (pagesCreated σ) created
    /\ (created <= retryCount (debug report) + 1)%nat
    /\ (created <= 3)%nat
    /\ (report_error report = None -> (1 <= created)%nat)
    /\ (pagesNumbered σ ->
        pagesNumbered σ' /\ size (openPages σ') = (size (openPages σ) + created)%nat).
Proof.
  intros H. apply checkUrl_Run in H.
  destruct (Run_adds _ _ _ _ _ _ H)
    as (p & w & c & (Hp & Ho & _ & _) & Hcw & Hbound & _ & _ & Hok).
  destruct (Run_facts _ _ _ _ _ _ H) as (_ & Hmax & _).
  cbn zeta in Hmax. unfold maxRetries in Hmax.
  exists p. split; [exact Hp|]. split; [exact Ho|].
  split; [lia|]. split; [lia|].
  split; [intros Hnone; destruct (Hok Hnone); lia|].
  intros Hnum. split.
  - intros page Hpage. rewrite Ho in Hpage. rewrite Hp.
    apply elem_of_union in Hpage as [Hpage|Hpage].
    + specialize (Hnum page Hpage). lia.
    + apply elem_of_set_seq in Hpage. lia.
  - rewrite Ho, size_union, size_set_seq; [reflexivity|].
    intros page Hpage Hnew. apply elem_of_set_seq in Hnew.
    specialize (Hnum page Hpage). lia.
Qed.

Lemma checkUrl_pages_accumulate_witness :
  exists report σ' created,
    checkUrl deadWorld "https://shop.example/" 0 initial = Some (report, σ')
    /\ openPages σ' = openPages initial ∪ set_seq (pagesCreated initial) created
    /\ size (openPages σ') = (size (openPages initial) + created)%nat.
Proof.
  destruct (checkUrl_total deadWorld "https://shop.example/" 0 initial)
    as (report & σ' & H).
  destruct (checkUrl_pages_accumulate _ _ _ _ _ H)
    as (created & _ & Ho & _ & _ & _ & Hnum).
  exists report, σ', created. split; [exact H|]. split; [exact Ho|].
  apply Hnum. intros page Hpage. cbn in Hpage. set_solver.
Defined.

(** X12. The browser handle is kept: an audit that starts with a browser
    ends with it, an audit that created a page or returned a report without
    error ends with one, and [initBrowser] with a browser at hand returns
    without launching, whatever the launch would have done. *)
Theorem checkUrl_keeps_browser W address σ report σ' :
  checkUrl W address 0 σ = Some (report, σ') ->
  (browser σ = true -> browser σ' = true)
  /\ (report_error report = None -> browser σ' = true)
  /\ (pagesCreated σ' <> pagesCreated σ -> browser σ' = true)
  /\ (forall a, browser σ' = true -> initBrowser a σ' = (inr tt, σ')).
Proof.
  intros H. apply checkUrl_Run in H.
  destruct (Run_adds _ _ _ _ _ _ H)
    as (p & w & c & (Hp & _) & Hcw & _ & _ & Hb & Hok).
  split; [intros Hσ; apply Hb; left; exact Hσ|].
  split; [intros Hnone; apply Hb; right; destruct (Hok Hnone); lia|].
  split; [intros Hneq; apply Hb; right; lia|].
  intros a Hσ'. unfold initBrowser. rewrite Hσ'. reflexivity.
Qed.

Lemma checkUrl_keeps_browser_witness :
  exists report σ',
    checkUrl steadyWorld "https://shop.example/" 0 initial = Some (report, σ')
    /\ browser σ' = true
    /\ initBrowser refused σ' = (inr tt, σ').
Proof.
  destruct (checkUrl_total steadyWorld "https://shop.example/" 0 initial)
    as (report & σ' & H).
  destruct (checkUrl_keeps_browser _ _ _ _ _ H) as (_ & _ & Hpage & Hinit).
  assert (Hb : browser σ' = true).
  { apply Hpage. vm_compute in H. apply (inj Some) in H.
    apply pair_equal_spec in H as [_ <-]. discriminate. }
  exists report, σ'. split; [exact H|]. split; [exact Hb | apply Hinit, Hb].
Defined.

(** X13. TLS connections are opened by the certificate check alone: an
    audit of a URL that is not an https one opens none; an audit of an https
    URL opens at most one for each attempt, each to the host of the URL, and
    at least one when the report has no error.  The ssl entry of such a
    report is the result of the certificate check of the last attempt. *)
Theorem checkUrl_connections W address σ report σ' :
  checkUrl W address 0 σ = Some (report, σ') ->
  exists opened : nat,
    connections σ' = (connections σ ++ repeat (hostnameOf W address) opened)%list
    /\ (opened <= retryCount (debug report) + 1)%nat
    /\ (isHttps W address = false -> opened = 0%nat)
    /\ (report_error report = None ->
        (isHttps W address = true -> (1 <= opened)%nat)
        /\ checks report !! "ssl"
           = Some (sslCheck W (attempts W (retryCount (debug report))) address)).
Proof.
  intros H. apply checkUrl_Run in H.
  destruct (Run_adds _ _ _ _ _ _ H)
    as (p & w & c & (_ & _ & _ & Hc) & Hcw & Hbound & Hhttp & _ & Hok).
  exists c. split; [exact Hc|]. split; [lia|]. split; [exact Hhttp|].
  intros Hnone. split; [apply (Hok Hnone)|].
  destruct (Run_success _ _ _ _ _ _ H Hnone) as (html & cookies & _ & _ & Hrep).
  rewrite Hrep at 1. reflexivity.
Qed.

Lemma checkUrl_connections_witness :
  exists report σ',
    checkUrl steadyWorld "http://shop.example/" 0 initial = Some (report, σ')
    /\ connections σ' = []
    /\ checks report !! "ssl"
       = Some (sslResult false "Stránka nepoužíva HTTPS protokol.").
Proof.
  destruct (checkUrl_total steadyWorld "http://shop.example/" 0 initial)
    as (report & σ' & H).
  destruct (checkUrl_connections _ _ _ _ _ H) as (opened & Hc & _ & Hhttp & Hok).
  exists report, σ'. split; [exact H|].
  rewrite (Hhttp eq_refl) in Hc. split; [exact Hc|].
  assert (Hnone : report_error report = None).
  { vm_compute in H. apply (inj Some) in H.
    apply pair_equal_spec in H as [<- _]. reflexivity. }
  destruct (Hok Hnone) as [_ Hssl]. rewrite Hssl.
  assert (Hn : retryCount (debug report) = 0%nat).
  { vm_compute in H. apply (inj Some) in H.
    apply pair_equal_spec in H as [<- _]. reflexivity. }
  rewrite Hn. reflexivity.
Defined.

(** X14. The only waits an audit records are settle waits of 3000 ms: at
    most one for each attempt, and at least one when the report has no
    error. *)
Theorem checkUrl_waits W address σ report σ' :
  checkUrl W address 0 σ = Some (report, σ') ->
  exists taken : nat,
    waits σ' = (waits σ ++ repeat 3000 taken)%list
    /\ (taken <= retryCount (debug report) + 1)%nat
    /\ (report_error report = None -> (1 <= taken)%nat).
Proof.
  intros H. apply checkUrl_Run in H.
  destruct (Run_adds _ _ _ _ _ _ H)
    as (p & w & c & (_ & _ & Hw & _) & Hcw & Hbound & _ & _ & Hok).
  exists w. split; [exact Hw|]. split; [lia|].
  intros Hnone. apply (Hok Hnone).
Qed.

Lemma checkUrl_waits_witness :
  exists report σ' taken,
    checkUrl deadWorld "https://shop.example/" 0 initial = Some (report, σ')
    /\ waits σ' = repeat 3000 taken.
Proof.
  destruct (checkUrl_total deadWorld "https://shop.example/" 0 initial)
    as (report & σ' & H).
  destruct (checkUrl_waits _ _ _ _ _ H) as (taken & Hw & _).
  exists report, σ', taken. split; [exact H | exact Hw].
Defined.

(* ===================================================================== *)
(** * The report as a whole *)
(* ===================================================================== *)

Lemma calculateScore_empty : calculateScore ∅ = num_of_Z 0.
Proof. reflexivity. Qed.

(** X15. Every report echoes the URL, and its score is the score of its
    checks.  In a report without error the recommendations are those of its
    checks and none has priority ERROR, and the third-party services are the
    tracking services of the violation check, which ran on the cookies read
    before the checks and on all captured requests.  A report with an error
    has the single ERROR recommendation with the message of the error, no
    third-party services, and the error in its debug data. *)
Theorem checkUrl_report_consistent W address σ report σ' :
  checkUrl W address 0 σ = Some (report, σ') ->
  report_url report = address
  /\ report_score report = calculateScore (checks report)
  /\ (report_error report = None ->
      recommendations report = generateRecommendations (checks report)
      /\ (forall r, In r (recommendations report) -> priority r <> "ERROR")
      /\ failed (debug report) = false
      /\ exists a html preConsentCookies,
           a = attempts W (retryCount (debug report))
           /\ content a = inr html
           /\ cookiesBeforeConsent a = inr preConsentCookies
           /\ checks report !! "preConsentViolations"
              = Some (checkPreConsentViolations preConsentCookies
                        (requestsAtLoad a ++ requestsLater a)%list html
                        (startTime a) (afterLoadTime a))
           /\ thirdPartyServices report
              = Some (trackingServicesOf
                        (checkPreConsentViolations preConsentCookies
                           (requestsAtLoad a ++ requestsLater a)%list html
                           (startTime a) (afterLoadTime a)))
           /\ checks report !! "cookies" = Some (checkCookies (cookiesForCount a)))
  /\ (forall e, report_error report = Some e ->
        recommendations report
        = [ {| priority := "ERROR"; message := "Chyba pri kontrole: " +:+ e |} ]
        /\ thirdPartyServices report = None
        /\ failed (debug report) = true
        /\ debug_error (debug report) = Some e).
Proof.
  intros H. apply checkUrl_Run in H.
  destruct (Run_facts _ _ _ _ _ _ H) as (_ & _ & _ & _ & _ & Hshape).
  destruct Hshape as [(Hnone & Hok & _) | (page & e & σ0 & σ1 & _ & _ & Hrep)].
  - destruct (Run_success _ _ _ _ _ _ H Hnone) as (html & cookies & Hc & Hk & Hrep).
    set (a := attempts W (retryCount (debug report))) in *.
    set (result := checkPreConsentViolations cookies
                     (requestsAtLoad a ++ requestsLater a)%list html
                     (startTime a) (afterLoadTime a)).
    assert (Hpcv : checks report !! "preConsentViolations" = Some result).
    { rewrite Hrep. apply lookup_insert_eq. }
    split; [rewrite Hrep; reflexivity|].
    split; [rewrite Hrep; reflexivity|].
    split.
    + intros _.
      assert (Hrecs : recommendations report = generateRecommendations (checks report))
        by (rewrite Hrep; reflexivity).
      split; [exact Hrecs|].
      split.
      { intros r Hr He. rewrite Hrecs in Hr.
        pose proof (criticalRecommendations_violations _ _ _ _ _ _ Hpcv) as Hcrit.
        pose proof (generateRecommendations_priorities _ _ Hcrit r Hr) as Hp.
        rewrite He in Hp. cbn in Hp.
        destruct Hp as [Hp|[Hp|[Hp|[]]]]; discriminate Hp. }
      split; [exact Hok|].
      exists a, html, cookies.
      split; [reflexivity|]. split; [exact Hc|]. split; [exact Hk|].
      split; [exact Hpcv|].
      split; [rewrite Hrep; reflexivity|].
      rewrite Hrep. cbn [checks buildResults].
      rewrite lookup_insert_ne by discriminate. apply lookup_insert_eq.
    + intros e He. rewrite Hnone in He. discriminate He.
  - rewrite Hrep.
    split; [reflexivity|]. split; [reflexivity|].
    split; [intros Hnone; discriminate Hnone|].
    intros e' He. cbn [report_error errorReport] in He. apply (inj Some) in He. subst e'.
    repeat split.
Qed.

Lemma checkUrl_report_consistent_witness :
  exists report σ',
    checkUrl steadyWorld "https://shop.example/" 0 initial = Some (report, σ')
    /\ report_url report = "https://shop.example/"
    /\ report_score report = calculateScore (checks report).
Proof.
  destruct (checkUrl_total steadyWorld "https://shop.example/" 0 initial)
    as (report & σ' & H).
  destruct (checkUrl_report_consistent _ _ _ _ _ H) as (Hu & Hs & _).
  exists report, σ'. split; [exact H|]. split; [exact Hu | exact Hs].
Defined.

(* ===================================================================== *)
(** * Shutdown *)
(* ===================================================================== *)

(** X16. [close()] never throws and always drops the browser handle; it
    does nothing without a browser, and a second call does nothing.  When
    [browser.close()] succeeds the pages the audits left open are gone; when
    it throws they stay open although the handle is dropped.  After
    [close()] the next [initBrowser] launches a browser again.  In a session
    in which pages are open only while a browser runs, [close()] after an
    audit leaves no page open, provided [browser.close()] succeeds. *)
Theorem close_releases (browserClose : Try unit) (σ : Session) :
  let σ' := snd (close browserClose σ) in
  fst (close browserClose σ) = inr tt
  /\ browser σ' = false
  /\ pagesCreated σ' = pagesCreated σ
  /\ (browser σ = false -> σ' = σ)
  /\ (browser σ = true -> browserClose = inr tt -> openPages σ' = ∅)
  /\ (browser σ = true -> forall e, browserClose = inl e -> openPages σ' = openPages σ)
  /\ (forall again, close again σ' = (inr tt, σ'))
  /\ (forall a, launch a = inr tt -> initBrowser a σ' = (inr tt, setBrowser σ'))
  /\ (forall W address σ0 report,
        pagesOwned σ0 ->
        checkUrl W address 0 σ0 = Some (report, σ) ->
        pagesOwned σ /\ (browserClose = inr tt -> openPages σ' = ∅)).
Proof.
  intros σ'. subst σ'. unfold close.
  destruct (browser σ) eqn:Hb.
  - destruct browserClose as [e|[]]; cbn [fst snd].
    + split; [reflexivity|]. split; [reflexivity|]. split; [reflexivity|].
      split; [discriminate|]. split; [intros _ H; discriminate H|].
      split; [intros _ e' _; reflexivity|].
      split; [intros again; reflexivity|].
      split; [intros a Ha; unfold initBrowser; cbn [browser unsetBrowser]; rewrite Ha;
              reflexivity|].
      intros W address σ0 report _ _. split; [intros H; rewrite Hb in H; discriminate H|].
      intros H. discriminate H.
    + split; [reflexivity|]. split; [reflexivity|]. split; [reflexivity|].
      split; [discriminate|]. split; [intros _ _; reflexivity|].
      split; [intros _ e' H; discriminate H|].
      split; [intros again; reflexivity|].
      split; [intros a Ha; unfold initBrowser; cbn [browser unsetBrowser]; rewrite Ha;
              reflexivity|].
      intros W address σ0 report _ _. split; [intros H; rewrite Hb in H; discriminate H|].
      intros _. reflexivity.
  - cbn [fst snd].
    split; [reflexivity|]. split; [exact Hb|]. split; [reflexivity|].
    split; [reflexivity|]. split; [discriminate|]. split; [discriminate|].
    split; [intros again; rewrite Hb; reflexivity|].
    split; [intros a Ha; unfold initBrowser; rewrite Hb, Ha; reflexivity|].
    intros W address σ0 report Howned H. apply checkUrl_Run in H.
    destruct (Run_adds _ _ _ _ _ _ H) as (p & w & c & (_ & Ho & _) & _ & _ & _ & Hkeep & _).
    assert (Hp : p = 0%nat).
    { destruct p as [|p]; [reflexivity|].
      rewrite Hkeep in Hb by (right; lia). discriminate Hb. }
    assert (Hb0 : browser σ0 = false).
    { destruct (browser σ0) eqn:E; [|reflexivity].
      rewrite Hkeep in Hb by (left; reflexivity). discriminate Hb. }
    subst p. rewrite (Howned Hb0) in Ho. cbn [set_seq] in Ho.
    assert (Hempty : openPages σ = ∅) by (rewrite Ho; apply (left_id_L ∅ (∪))).
    split; [intros _; exact Hempty | intros _; exact Hempty].
Qed.

Lemma close_releases_witness :
  exists report σ,
    checkUrl deadWorld "https://shop.example/" 0 initial = Some (report, σ)
    /\ size (openPages σ) = 3%nat
    /\ openPages (snd (close (inr tt) σ)) = ∅.
Proof.
  destruct (checkUrl_total deadWorld "https://shop.example/" 0 initial)
    as (report & σ & H).
  destruct (close_releases (inr tt) σ) as (_ & _ & _ & _ & _ & _ & _ & _ & Hafter).
  destruct (Hafter deadWorld "https://shop.example/" initial report
                   (fun _ => eq_refl) H) as [_ Hclosed].
  exists report, σ. split; [exact H|]. split; [|exact (Hclosed eq_refl)].
  vm_compute in H. apply (inj Some) in H. apply pair_equal_spec in H as [_ <-].
  reflexivity.
Defined.

(* ===================================================================== *)
(** * The HTTP boundary *)
(* ===================================================================== *)

Lemma urlAccepted_openPage W address k σ e σ1 :
  urlAccepted W address = true ->
  openPage W address k σ = (inl e, σ1) ->
  (browser σ = false
   /\ exists cause, launch (attempts W k) = inl cause
                    /\ e = "Browser initialization failed: " +:+ cause)
  \/ newPage (attempts W k) = inl e.
Proof.
  unfold urlAccepted, openPage, mbind, Op_bind, modify, lift, gets, raise, mret, Op_ret.
  cbv beta iota zeta.
  destruct (parseURL W address) as [err|urlObj]; [discriminate|].
  intros ->.
  destruct (initBrowser_cases (attempts W k) (logAttempt (k + 1) σ))
    as [(σb & -> & _) | (cause & -> & Hb & Hl)].
  - destruct (newPage (attempts W k)) as [err|[]]; [|discriminate].
    intros H. apply pair_equal_spec in H as [H _]. apply (inj inl) in H. subst err.
    right. reflexivity.
  - intros H. apply pair_equal_spec in H as [H _]. apply (inj inl) in H. subst e.
    left. split; [exact Hb|]. exists cause. split; [exact Hl | reflexivity].
Qed.

(** X17. The handler of POST /api/check always responds, with status 400
    or 200.  It responds 400 and leaves the session untouched when the URL is
    missing or empty (MISSING_URL) or does not parse as an http or https URL
    (INVALID_URL); otherwise it responds 200 with the report of [checkUrl],
    also when that report carries an error.  For a URL it admits, the URL
    validation inside [checkUrl] never fails: an attempt stops before its
    page exists only when the browser cannot be launched or the page cannot
    be created. *)
Theorem apiCheck_responses W (bodyUrl : option string) (σ : Session) :
  exists response σ',
    apiCheck W bodyUrl σ = Some (response, σ')
    /\ (default "" bodyUrl = "" ->
        response = {| res_status := 400;
                      res_body := RequestError "URL je povinná" "MISSING_URL" |}
        /\ σ' = σ)
    /\ (default "" bodyUrl <> "" -> urlAccepted W (default "" bodyUrl) = false ->
        response = {| res_status := 400;
                      res_body := RequestError
                        "Neplatná URL. Použite formát: https://example.com"
                        "INVALID_URL" |}
        /\ σ' = σ)
    /\ (default "" bodyUrl <> "" -> urlAccepted W (default "" bodyUrl) = true ->
        exists report,
          checkUrl W (default "" bodyUrl) 0 σ = Some (report, σ')
          /\ response = {| res_status := 200; res_body := CheckData report |}
          /\ forall k σ0 e σ1,
               openPage W (default "" bodyUrl) k σ0 = (inl e, σ1) ->
               (browser σ0 = false
                /\ exists cause, launch (attempts W k) = inl cause
                                 /\ e = "Browser initialization failed: " +:+ cause)
               \/ newPage (attempts W k) = inl e).
Proof.
  unfold apiCheck. fold (urlAccepted W (default "" bodyUrl)).
  destruct (String.eqb (default "" bodyUrl) "") eqn:Eempty.
  - apply String.eqb_eq in Eempty.
    eexists _, _. split; [reflexivity|].
    split; [intros _; split; reflexivity|].
    split; intros Hne; contradiction.
  - apply String.eqb_neq in Eempty.
    destruct (urlAccepted W (default "" bodyUrl)) eqn:Evalid.
    + destruct (checkUrl_total W (default "" bodyUrl) 0 σ) as (report & σ' & Hrun).
      rewrite Hrun.
      eexists _, _. split; [reflexivity|].
      split; [intros H; contradiction|].
      split; [intros _ H; discriminate H|].
      intros _ _. exists report. split; [reflexivity|]. split; [reflexivity|].
      intros k σ0 e σ1. apply urlAccepted_openPage. exact Evalid.
    + eexists _, _. split; [reflexivity|].
      split; [intros H; contradiction|].
      split; [intros _ _; split; reflexivity|].
      intros _ H. discriminate H.
Qed.

Lemma apiCheck_responses_witness :
  (exists σ', apiCheck deadWorld (Some "ftp://shop.example/") initial
              = Some ({| res_status := 400;
                         res_body := RequestError
                           "Neplatná URL. Použite formát: https://example.com"
                           "INVALID_URL" |}, σ')
              /\ σ' = initial)
  /\ (exists report σ',
         apiCheck deadWorld (Some "https://shop.example/") initial
         = Some ({| res_status := 200; res_body := CheckData report |}, σ')
         /\ checkUrl deadWorld "https://shop.example/" 0 initial = Some (report, σ')).
Proof.
  split.
  - destruct (apiCheck_responses deadWorld (Some "ftp://shop.example/") initial)
      as (response & σ' & Hrun & _ & Hinvalid & _).
    destruct (Hinvalid ltac:(discriminate) eq_refl) as [-> ->].
    exists initial. split; [exact Hrun | reflexivity].
  - destruct (apiCheck_responses deadWorld (Some "https://shop.example/") initial)
      as (response & σ' & Hrun & _ & _ & Hvalid).
    destruct (Hvalid ltac:(discriminate) eq_refl) as (report & Hcheck & -> & _).
    exists report, σ'. split; [exact Hrun | exact Hcheck].
Defined.

(* ===================================================================== *)
(** * A server that answers with an error status *)
(* ===================================================================== *)

Lemma attemptUrl_http_error W address k σ status text :
  goto (attempts W k) = GotoResponse status text ->
  400 <= status ->
  exists page e σ1,
    attemptUrl W address k σ = (inl (page, e), σ1)
    /\ waits σ1 = waits σ
    /\ connections σ1 = connections σ
    /\ (reachesNavigation W address k ->
        e = "HTTP " +:+ pretty status +:+ ": " +:+ text).
Proof.
  intros Hgoto Hstatus.
  unfold attemptUrl, openPage, mbind, Op_bind, modify, lift, gets, raise, mret, Op_ret.
  cbv beta iota zeta.
  unfold reachesNavigation, urlAccepted.
  set (a := attempts W k) in *.
  destruct (parseURL W address) as [err|urlObj];
    [eexists _, _, _; split; [reflexivity|]; repeat split;
     intros (H & _); discriminate H|].
  destruct (existsb _ _);
    [|eexists _, _, _; split; [reflexivity|]; repeat split;
      intros (H & _); discriminate H].
  destruct (initBrowser_cases a (logAttempt (k + 1) σ))
    as [(σb & -> & _ & _ & _ & Hw & Hc & _) | (cause & -> & _ & Hl)];
    [|eexists _, _, _; split; [reflexivity|]; repeat split;
      intros (_ & H & _); rewrite H in Hl; discriminate Hl].
  destruct (newPage a) as [err|[]] eqn:Hnew;
    [eexists _, _, _; split; [reflexivity|]; split; [exact Hw|]; split; [exact Hc|];
     intros (_ & _ & H & _); discriminate H|].
  unfold auditPage, mbind, Op_bind, lift, waitForDelay, modify, mret, Op_ret.
  fold a.
  destruct (configure a) as [err|[]] eqn:Hconf;
    [eexists _, _, _; split; [reflexivity|]; split; [exact Hw|]; split; [exact Hc|];
     intros (_ & _ & _ & H); discriminate H|].
  unfold navigate. rewrite Hgoto.
  replace (400 <=? status) with true by (symmetry; apply Z.leb_le; exact Hstatus).
  unfold raise.
  eexists _, _, _. split; [reflexivity|]. split; [exact Hw|]. split; [exact Hc|].
  intros _. reflexivity.
Qed.

Lemma Run_http_error W address (status : nat -> Z) (text : nat -> string)
  k σ report σ' :
  (forall i, goto (attempts W i) = GotoResponse (status i) (text i) /\ 400 <= status i) ->
  Run W address k σ report σ' ->
  (k <= maxRetries)%nat ->
  failed (debug report) = true
  /\ retryCount (debug report) = maxRetries
  /\ waits σ' = waits σ
  /\ connections σ' = connections σ
  /\ (reachesNavigation W address maxRetries ->
      report_error report
      = Some ("HTTP " +:+ pretty (status maxRetries) +:+ ": " +:+ text maxRetries)).
Proof.
  intros Hall.
  induction 1 as [k σ results σ1 Ha | k σ page e σ1 report σ' Ha Hlt _ IH
                 | k σ page e σ1 Ha Hge]; intros Hk.
  - destruct (Hall k) as [Hg Hs].
    destruct (attemptUrl_http_error W address k σ _ _ Hg Hs) as (p & e & σ2 & Hf & _).
    rewrite Hf in Ha. discriminate Ha.
  - destruct (Hall k) as [Hg Hs].
    destruct (attemptUrl_http_error W address k σ _ _ Hg Hs)
      as (p & e' & σ2 & Hf & Hw & Hc & _).
    rewrite Hf in Ha. apply pair_equal_spec in Ha as [_ <-].
    destruct (IH ltac:(lia)) as (Hfail & Hn & Hw' & Hc' & Herr).
    cbn [waits connections addDelay] in Hw', Hc'.
    split; [exact Hfail|]. split; [exact Hn|].
    split; [rewrite Hw'; exact Hw|]. split; [rewrite Hc'; exact Hc | exact Herr].
  - destruct (Hall k) as [Hg Hs].
    destruct (attemptUrl_http_error W address k σ _ _ Hg Hs)
      as (p & e' & σ2 & Hf & Hw & Hc & Herr).
    rewrite Hf in Ha. apply pair_equal_spec in Ha as [Ha <-].
    apply (inj inl) in Ha. apply pair_equal_spec in Ha as [_ <-].
    assert (Hmax : k = maxRetries) by lia. subst k.
    split; [reflexivity|]. split; [reflexivity|].
    split; [exact Hw|]. split; [exact Hc|].
    intros Hreach. cbn [report_error errorReport]. rewrite (Herr Hreach). reflexivity.
Qed.

(** X18. When the server answers every navigation with a status of 400 or
    more, the audit fails after three attempts and two retry delays: the
    report has failed = true, retryCount 2 and score 0; no settle wait is
    taken and no TLS connection is opened.  When the third attempt gets as
    far as the navigation, the error of the report is HTTP, the status, a
    colon and the status text of that attempt. *)
Theorem checkUrl_http_error W address (status : nat -> Z) (text : nat -> string)
  σ report σ' :
  (forall k, goto (attempts W k) = GotoResponse (status k) (text k) /\ 400 <= status k) ->
  checkUrl W address 0 σ = Some (report, σ') ->
  failed (debug report) = true
  /\ retryCount (debug report) = 2%nat
  /\ report_score report = num_of_Z 0
  /\ delays σ' = (delays σ ++ [3000; 6000])%list
  /\ waits σ' = waits σ
  /\ connections σ' = connections σ
  /\ (reachesNavigation W address 2 ->
      report_error report
      = Some ("HTTP " +:+ pretty (status 2%nat) +:+ ": " +:+ text 2%nat)).
Proof.
  intros Hall H. apply checkUrl_Run in H.
  destruct (Run_http_error _ _ _ _ _ _ _ _ Hall H ltac:(unfold maxRetries; lia))
    as (Hfail & Hn & Hw & Hc & Herr).
  destruct (Run_facts _ _ _ _ _ _ H) as (_ & _ & Hd & _ & _ & Hshape).
  cbn zeta in Hd. rewrite Hn in Hd.
  split; [exact Hfail|]. split; [exact Hn|].
  split.
  { destruct Hshape as [(_ & Hok & _) | (page & e & σ0 & σ1 & _ & _ & ->)];
      [rewrite Hok in Hfail; discriminate Hfail | reflexivity]. }
  split; [exact Hd|]. split; [exact Hw|]. split; [exact Hc | exact Herr].
Qed.

Lemma checkUrl_http_error_witness :
  exists report σ',
    checkUrl unavailableWorld "https://shop.example/" 0 initial = Some (report, σ')
    /\ report_error report = Some "HTTP 503: Service Unavailable"
    /\ waits σ' = []
    /\ connections σ' = [].
Proof.
  destruct (checkUrl_total unavailableWorld "https://shop.example/" 0 initial)
    as (report & σ' & H).
  assert (Hall : forall k : nat,
             goto (attempts unavailableWorld k) = GotoResponse 503 "Service Unavailable"
             /\ 400 <= 503)
    by (intros k; split; [reflexivity | lia]).
  destruct (checkUrl_http_error unavailableWorld "https://shop.example/"
              (fun _ => 503) (fun _ => "Service Unavailable") initial report σ' Hall H)
    as (_ & _ & _ & _ & Hw & Hc & Herr).
  exists report, σ'. split; [exact H|].
  split; [apply Herr; repeat split | split; [exact Hw | exact Hc]].
Defined.

(* ===================================================================== *)
(** * The evidence of the banner check *)
(* ===================================================================== *)

Lemma fold_left_invariant {A B} (P : A -> Prop) (f : A -> B -> A) (l : list B) :
  (forall x acc, In x l -> P acc -> P (f acc x)) ->
  forall acc, P acc -> P (fold_left f l acc).
Proof.
  induction l as [|x l IH]; intros Hf acc Hacc; cbn [fold_left]; [exact Hacc|].
  apply IH.
  - intros y acc' Hy. apply Hf. right. exact Hy.
  - apply Hf; [left; reflexivity | exact Hacc].
Qed.

Lemma nonEmpty_push {A} (l : list A) (x : A) : nonEmpty (push l x) = true.
Proof. destruct l; reflexivity. Qed.

Lemma bannerSelectors_recorded (dom : Dom) (selectors : list string) :
  (forall selector, In selector selectors ->
                    In selector GDPR_CHECKS.cookieBanner.selectors) ->
  forall acc,
    fst acc = nonEmpty (snd acc) /\ Forall (bannerOrigin dom) (snd acc) ->
    fst (fold_left (bannerSelector dom) selectors acc)
    = nonEmpty (snd (fold_left (bannerSelector dom) selectors acc))
    /\ Forall (bannerOrigin dom) (snd (fold_left (bannerSelector dom) selectors acc)).
Proof.
  intros Hsub.
  apply (fold_left_invariant
           (fun acc => fst acc = nonEmpty (snd acc) /\ Forall (bannerOrigin dom) (snd acc))).
  intros selector acc Hsel Hacc. unfold bannerSelector.
  destruct (select dom selector) as [e|els] eqn:Hels; [exact Hacc|].
  destruct (0 <? Z.of_nat (List.length els)); [|exact Hacc].
  revert acc Hacc.
  apply (fold_left_invariant
           (fun acc => fst acc = nonEmpty (snd acc) /\ Forall (bannerOrigin dom) (snd acc))).
  intros el acc Hin Hacc.
  unfold bannerElement. fold (longText el).
  destruct (longText el) eqn:Hlong; [|exact Hacc].
  cbn [fst snd]. split; [symmetry; apply nonEmpty_push|].
  unfold push. apply Forall_app. split; [apply Hacc|].
  apply List.Forall_cons; [|apply List.Forall_nil].
  split; [apply Hsub, Hsel|].
  exists els, el. cbn [be_selector].
  split; [exact Hels|]. split; [exact Hin|].
  split; [exact Hlong | reflexivity].
Qed.

(** X19. Every element the banner check records comes from an element
    with more than 10 characters of lowercased text under one of the
    configured selectors; it carries that selector, at most the first 100
    characters of the lowercased text, and visible = true.  The selectors
    found something exactly when an element was recorded.  When the body
    cannot be read the score is 0 although found may be true.  Characters
    are UTF-16 code units, whatever the letters: the ten characters of
    Odmietnuť! and the six of ČČČČČČ are too few, the eleven of ODMIETNUŤ!!
    are recorded in lower case, and of 120 letters Č the first 100 are
    recorded, as č. *)
Theorem checkCookieBanner_elements (dom : Dom) :
  let result := checkCookieBanner dom in
  evidence result = BannerElements (bannerElementsOf result)
  /\ Forall (bannerOrigin dom) (bannerElementsOf result)
  /\ Forall (fun be => JsString.length (be_text be) <= 100 /\ be_visible be = true)
            (bannerElementsOf result)
  /\ (existsb (selectorMatches longText dom) GDPR_CHECKS.cookieBanner.selectors
      = nonEmpty (bannerElementsOf result))
  /\ (forall e, select dom "body" = inl e ->
        found result = Some (nonEmpty (bannerElementsOf result))
        /\ score result = Some (num_of_Z 0))
  /\ (forall selector acc href,
        bannerElement selector acc {| el_text := "Odmietnuť!"; el_href := href |} = acc
        /\ bannerElement selector acc {| el_text := "ČČČČČČ"; el_href := href |} = acc
        /\ bannerElement selector acc {| el_text := "ODMIETNUŤ!!"; el_href := href |}
           = (true, push (snd acc) {| be_selector := selector;
                                      be_text := "odmietnuť!!";
                                      be_visible := true |})
        /\ bannerElement selector acc {| el_text := repeated 120 "Č"; el_href := href |}
           = (true, push (snd acc) {| be_selector := selector;
                                      be_text := repeated 100 "č";
                                      be_visible := true |})).
Proof.
  assert (Hpins : forall selector acc href,
        bannerElement selector acc {| el_text := "Odmietnuť!"; el_href := href |} = acc
        /\ bannerElement selector acc {| el_text := "ČČČČČČ"; el_href := href |} = acc
        /\ bannerElement selector acc {| el_text := "ODMIETNUŤ!!"; el_href := href |}
           = (true, push (snd acc) {| be_selector := selector;
                                      be_text := "odmietnuť!!";
                                      be_visible := true |})
        /\ bannerElement selector acc {| el_text := repeated 120 "Č"; el_href := href |}
           = (true, push (snd acc) {| be_selector := selector;
                                      be_text := repeated 100 "č";
                                      be_visible := true |})).
  { intros selector acc href. unfold bannerElement. cbn [el_text].
    assert (H1 : JsString.length (JsString.toLowerCase "Odmietnuť!") = 10)
      by (vm_compute; reflexivity).
    assert (H2 : JsString.length (JsString.toLowerCase "ČČČČČČ") = 6)
      by (vm_compute; reflexivity).
    assert (H3 : JsString.length (JsString.toLowerCase "ODMIETNUŤ!!") = 11)
      by (vm_compute; reflexivity).
    assert (H4 : JsString.length (JsString.toLowerCase (repeated 120 "Č")) = 120)
      by (vm_compute; reflexivity).
    assert (H5 : JsString.substring0 100 (JsString.toLowerCase "ODMIETNUŤ!!")
                 = "odmietnuť!!") by (vm_compute; reflexivity).
    assert (H6 : JsString.substring0 100 (JsString.toLowerCase (repeated 120 "Č"))
                 = repeated 100 "č") by (vm_compute; reflexivity).
    rewrite H1, H2, H3, H4, H5, H6. repeat split. }
  intros result. subst result.
  pose proof (bannerSelectors_recorded dom GDPR_CHECKS.cookieBanner.selectors
                (fun _ H => H) (false, []) (conj eq_refl (List.Forall_nil _)))
    as [Hfound Horigin].
  pose proof (bannerSelector_found dom GDPR_CHECKS.cookieBanner.selectors (false, []))
    as Hsel.
  cbn [fst orb] in Hsel.
  unfold checkCookieBanner, bannerElementsOf.
  destruct (fold_left (bannerSelector dom) GDPR_CHECKS.cookieBanner.selectors (false, []))
    as [found0 elements].
  cbn [fst snd] in Hfound, Horigin, Hsel.
  assert (Hshort : Forall (fun be => JsString.length (be_text be) <= 100
                                     /\ be_visible be = true) elements).
  { rewrite List.Forall_forall in Horigin |- *. intros be Hbe.
    destruct (Horigin be Hbe) as (_ & els & el & _ & _ & _ & ->).
    split; [apply (substring0_length 100) | reflexivity]. }
  destruct (select dom "body") as [e|body]; cbn [evidence found score].
  - split; [reflexivity|]. split; [exact Horigin|]. split; [exact Hshort|].
    split; [rewrite <- Hsel; exact Hfound|].
    split; [|exact Hpins].
    intros e' _. rewrite Hfound. split; reflexivity.
  - split; [reflexivity|]. split; [exact Horigin|]. split; [exact Hshort|].
    split; [rewrite <- Hsel; exact Hfound|].
    split; [|exact Hpins].
    intros e' H. discriminate H.
Qed.

Lemma checkCookieBanner_elements_witness :
  found (checkCookieBanner mailOnlyPage) = Some false
  /\ score (checkCookieBanner mailOnlyPage) = Some (num_of_Z 0).
Proof.
  destruct (checkCookieBanner_elements mailOnlyPage) as (_ & _ & _ & _ & Hbody & _).
  apply (Hbody "Unmatched selector"). reflexivity.
Defined.

(* ===================================================================== *)
(** * What the score and the recommendations do not read *)
(* ===================================================================== *)

Lemma addWeighted_scoreOf (checks : gmap string CheckResult) (t : number)
  (key : string) (w : number) :
  addWeighted checks t (key, w)
  = match scoreOf checks key with
    | Some s => JsNumber.add t (JsNumber.mul s w)
    | None => t
    end.
Proof.
  unfold addWeighted, scoreOf. destruct (checks !! key) as [check|]; reflexivity.
Qed.

(** X20. The score reads only the scores of the six weighted dimensions:
    two maps of checks that agree on those six scores have the same score.
    In particular the certificate check changes neither the score nor the
    recommendations, and a dimension whose result has no numeric score
    counts like an absent one. *)
Theorem calculateScore_reads_six (checks checks' : gmap string CheckResult) :
  (forall key, In key (map fst weights) -> scoreOf checks key = scoreOf checks' key) ->
  calculateScore checks = calculateScore checks'
  /\ (forall ssl, calculateScore (<["ssl" := ssl]> checks) = calculateScore checks)
  /\ (forall ssl, generateRecommendations (<["ssl" := ssl]> checks)
                  = generateRecommendations checks)
  /\ (forall key check,
        checks !! key = Some check -> score check = None ->
        calculateScore (delete key checks) = calculateScore checks).
Proof.
  assert (Hsix : forall c1 c2 : gmap string CheckResult,
             (forall key, In key (map fst weights) -> scoreOf c1 key = scoreOf c2 key) ->
             calculateScore c1 = calculateScore c2).
  { intros c1 c2 Hagree. unfold calculateScore. f_equal.
    generalize (num_of_Z 0). revert Hagree.
    induction weights as [|[key w] l IH]; intros Hagree t; cbn [fold_left]; [reflexivity|].
    rewrite !addWeighted_scoreOf, (Hagree key (or_introl eq_refl)).
    apply IH. intros k Hk. apply Hagree. right. exact Hk. }
  intros Hagree. split; [apply Hsix, Hagree|].
  split.
  { intros ssl. apply Hsix. intros key Hkey. unfold scoreOf.
    rewrite lookup_insert_ne; [reflexivity|].
    intros <-. cbn in Hkey.
    repeat (destruct Hkey as [Hkey|Hkey]; [discriminate Hkey|]). exact Hkey. }
  split.
  { intros ssl.
    unfold generateRecommendations, criticalBlock, foundIn, cookieCount.
    rewrite !lookup_insert_ne by discriminate. reflexivity. }
  intros key check Hlookup Hnone. apply Hsix. intros k _. unfold scoreOf.
  destruct (decide (k = key)) as [->|Hne].
  - rewrite lookup_delete_eq, Hlookup. cbn. rewrite Hnone. reflexivity.
  - rewrite lookup_delete_ne by congruence. reflexivity.
Qed.

Lemma calculateScore_reads_six_witness :
  calculateScore (<["cookieBanner" :=
                      {| found := Some true; score := Some (num_of_Z 100);
                         error := None; evidence := BannerElements [] |}]> exampleChecks)
  = calculateScore exampleChecks.
Proof.
  assert (Hagree : forall key, In key (map fst weights) ->
            scoreOf (<["cookieBanner" :=
                         {| found := Some true; score := Some (num_of_Z 100);
                            error := None; evidence := BannerElements [] |}]> exampleChecks)
                    key
            = scoreOf exampleChecks key).
  { intros key Hkey. cbn [map fst weights] in Hkey.
    repeat (destruct Hkey as [<-|Hkey]; [vm_compute; reflexivity|]). destruct Hkey. }
  exact (proj1 (calculateScore_reads_six _ _ Hagree)).
Defined.

(* ===================================================================== *)
(** * The cookie summaries *)
(* ===================================================================== *)




(* ===================================================================== *)
(** * Entries of the rule tables that decide nothing *)
(* ===================================================================== *)

Lemma existsb_weaken {A} (f g : A -> bool) (l l' : list A) :
  (forall x, In x l -> f x = true -> exists y, In y l' /\ g y = true) ->
  existsb f l = true -> existsb g l' = true.
Proof.
  intros H Hex. apply existsb_exists in Hex as (x & Hx & Hf).
  destruct (H x Hx Hf) as (y & Hy & Hg).
  apply existsb_exists. exists y. split; assumption.
Qed.

Lemma existsb_same {A} (f g : A -> bool) (l l' : list A) :
  (forall x, In x l -> f x = true -> exists y, In y l' /\ g y = true) ->
  (forall y, In y l' -> g y = true -> exists x, In x l /\ f x = true) ->
  existsb f l = existsb g l'.
Proof.
  intros H1 H2.
  destruct (existsb f l) eqn:E1.
  - symmetry. exact (existsb_weaken f g l l' H1 E1).
  - destruct (existsb g l') eqn:E2; [|reflexivity].
    rewrite (existsb_weaken g f l' l H2 E2) in E1. discriminate E1.
Qed.

(** A list of needles decides as much as a longer list when every
    further needle contains one of the list. *)
Lemma includes_needed (s : string) (full needed : list string) :
  (forall p, In p needed -> In p full) ->
  (forall q, In q full -> exists p, In p needed /\ JsString.includes q p = true) ->
  existsb (JsString.includes s) full = existsb (JsString.includes s) needed.
Proof.
  intros Hsub Hcover. apply existsb_same.
  - intros q Hq Hinc. destruct (Hcover q Hq) as (p & Hp & Hpq).
    exists p. split; [exact Hp|]. exact (includes_trans _ _ _ Hinc Hpq).
  - intros p Hp Hinc. exists p. split; [apply Hsub, Hp | exact Hinc].
Qed.

Ltac table_covered :=
  let q := fresh "q" in
  let H := fresh "H" in
  intros q H; cbn in H;
  repeat (destruct H as [<-|H];
          [first [ eexists; split; [left; reflexivity | vm_compute; reflexivity]
                 | eexists; split; [right; left; reflexivity | vm_compute; reflexivity]
                 | eexists; split; [do 2 right; left; reflexivity | vm_compute; reflexivity]
                 | eexists; split; [do 3 right; left; reflexivity | vm_compute; reflexivity]
                 | eexists; split; [do 4 right; left; reflexivity | vm_compute; reflexivity]
                 | eexists; split; [do 5 right; left; reflexivity | vm_compute; reflexivity]
                 | eexists; split; [do 6 right; left; reflexivity | vm_compute; reflexivity]
                 | eexists; split; [do 7 right; left; reflexivity | vm_compute; reflexivity]
                 | eexists; split; [do 8 right; left; reflexivity | vm_compute; reflexivity]
                 | eexists; split; [do 9 right; left; reflexivity | vm_compute; reflexivity]
                 | eexists; split; [do 10 right; left; reflexivity | vm_compute; reflexivity]
                 | eexists; split; [do 11 right; left; reflexivity | vm_compute; reflexivity]
                 | eexists; split; [do 12 right; left; reflexivity | vm_compute; reflexivity] ]|]);
  destruct H.

Ltac table_sub :=
  let p := fresh "p" in
  let H := fresh "H" in
  intros p H; cbn in H |- *; tauto.

Lemma anchorMatches_needed (el : Element) :
  anchorMatches privacyLinksNeeded el = anchorMatches GDPR_CHECKS.privacyPolicy.links el.
Proof.
  unfold anchorMatches.
  destruct (existsb _ privacyLinksNeeded) eqn:E1.
  - symmetry. apply existsb_exists in E1 as (p & Hp & Hinc).
    apply existsb_exists. exists p. split; [|exact Hinc].
    clear Hinc. revert p Hp. table_sub.
  - destruct (existsb _ GDPR_CHECKS.privacyPolicy.links) eqn:E2; [|reflexivity].
    apply existsb_exists in E2 as (q & Hq & Hinc).
    assert (Hcover : exists p, In p privacyLinksNeeded /\ JsString.includes q p = true).
    { clear Hinc. revert q Hq. table_covered. }
    destruct Hcover as (p & Hp & Hpq).
    rewrite <- E1. apply existsb_exists. exists p. split; [exact Hp|].
    apply orb_true_iff in Hinc. apply orb_true_iff.
    destruct Hinc as [Hinc|Hinc]; [left | right]; exact (includes_trans _ _ _ Hinc Hpq).
Qed.

(** X22. Three entries of the rule tables decide nothing, because another
    entry of the same table is contained in them: the banner keyword
    [cookies policy] (it contains [cookie]), the privacy link text
    [privacy-policy] (it contains [privacy]) and the essential pattern
    [language] (it contains [lang]).  The banner check, the privacy policy
    check and the classification of cookies return the same under the table
    of the source and under the table without that entry. *)
Theorem rule_tables_needed :
  (forall dom,
      checkCookieBannerWith GDPR_CHECKS.cookieBanner.keywords dom = checkCookieBanner dom
      /\ checkCookieBannerWith bannerKeywordsNeeded dom = checkCookieBanner dom)
  /\ (forall dom,
        checkPolicy privacyLinksNeeded "privacy-policy" 100 dom = checkPrivacyPolicy dom)
  /\ (forall cookie,
        isEssentialWith essentialPatterns cookie = isEssential cookie
        /\ isEssentialWith essentialPatternsNeeded cookie = isEssential cookie)
  /\ (forall keyword,
        In keyword GDPR_CHECKS.cookieBanner.keywords
        <-> In keyword bannerKeywordsNeeded \/ keyword = "cookies policy")
  /\ (forall link,
        In link GDPR_CHECKS.privacyPolicy.links
        <-> In link privacyLinksNeeded \/ link = "privacy-policy")
  /\ (forall pattern,
        In pattern essentialPatterns
        <-> In pattern essentialPatternsNeeded \/ pattern = "language")
  /\ ~ In "cookies policy" bannerKeywordsNeeded
  /\ ~ In "privacy-policy" privacyLinksNeeded
  /\ ~ In "language" essentialPatternsNeeded.
Proof.
  split; [|split; [|split; [|split; [|split; [|split; [|split; [|split]]]]]]].
  - intros dom. split; [reflexivity|].
    unfold checkCookieBannerWith, checkCookieBanner.
    destruct (fold_left (bannerSelector dom) GDPR_CHECKS.cookieBanner.selectors (false, []))
      as [found0 elements].
    destruct (select dom "body") as [e|body]; [reflexivity|]. cbn zeta.
    assert (Hk : existsb (fun keyword => JsString.includes
                                           (JsString.toLowerCase (selection_text body))
                                           (JsString.toLowerCase keyword))
                         GDPR_CHECKS.cookieBanner.keywords
                 = existsb (fun keyword => JsString.includes
                                             (JsString.toLowerCase (selection_text body))
                                             (JsString.toLowerCase keyword))
                           bannerKeywordsNeeded).
    { change (existsb (JsString.includes (JsString.toLowerCase (selection_text body)))
                      (map JsString.toLowerCase GDPR_CHECKS.cookieBanner.keywords)
              = existsb (JsString.includes (JsString.toLowerCase (selection_text body)))
                        (map JsString.toLowerCase bannerKeywordsNeeded)).
      apply includes_needed; [table_sub | table_covered]. }
    rewrite Hk. reflexivity.
  - intros dom. unfold checkPrivacyPolicy, checkPolicy.
    destruct (select dom "a") as [e|anchors]; [reflexivity|].
    rewrite !policyAnchor_fold. cbn [fst snd orb app].
    assert (Hboth : existsb (anchorMatches privacyLinksNeeded) anchors
                    = existsb (anchorMatches GDPR_CHECKS.privacyPolicy.links) anchors
                    /\ List.filter (anchorMatches privacyLinksNeeded) anchors
                       = List.filter (anchorMatches GDPR_CHECKS.privacyPolicy.links) anchors).
    { induction anchors as [|el anchors [IH1 IH2]]; [split; reflexivity|].
      cbn [existsb List.filter]. rewrite IH1, IH2, anchorMatches_needed.
      split; reflexivity. }
    destruct Hboth as [-> ->]. reflexivity.
  - intros cookie. split; [reflexivity|].
    unfold isEssentialWith, isEssential.
    destruct (call_toLowerCase (js_or (name cookie) (JStr ""))) as [e|lowered];
      [reflexivity|].
    cbn [mbind mret Try_bind Try_ret]. unfold Try_bind. cbn [mret Try_ret]. f_equal.
    change (existsb (JsString.includes lowered)
                    (map JsString.toLowerCase essentialPatternsNeeded)
            = existsb (JsString.includes lowered)
                      (map JsString.toLowerCase essentialPatterns)).
    symmetry. apply includes_needed; [table_sub | table_covered].
  - intros keyword. cbn. intuition congruence.
  - intros link. cbn. intuition congruence.
  - intros pattern. cbn. intuition congruence.
  - cbn. intros H. repeat (destruct H as [H|H]; [discriminate H|]). exact H.
  - cbn. intros H. repeat (destruct H as [H|H]; [discriminate H|]). exact H.
  - cbn. intros H. repeat (destruct H as [H|H]; [discriminate H|]). exact H.
Qed.

Lemma rule_tables_needed_witness :
  isEssentialWith essentialPatternsNeeded (namedCookie "Language") = inr true
  /\ found (checkPolicy privacyLinksNeeded "privacy-policy" 100 shopPage) = Some true.
Proof.
  destruct rule_tables_needed as (_ & Hprivacy & Hessential & _).
  split.
  - rewrite (proj2 (Hessential _)). vm_compute. reflexivity.
  - rewrite Hprivacy. vm_compute. reflexivity.
Defined.

(* ===================================================================== *)
(** * The model on the examples of the specification *)
(* ===================================================================== *)

Example round_half_up :
  Math_round (SFdiv prec emax (num_of_Z 157) (num_of_Z 2)) = num_of_Z 79
  /\ Math_round (SFdiv prec emax (num_of_Z (-5)) (num_of_Z 2)) = num_of_Z (-2)
  /\ Math_round (SFdiv prec emax (num_of_Z (-2)) (num_of_Z 5)) = S754_zero true.
Proof. repeat split; vm_compute; reflexivity. Qed.

Example session_cookie_essential :
  isEssential (namedCookie "PHPSESSID") = inr true
  /\ isEssential (namedCookie "_ga") = inr false
  /\ nonEssential [namedCookie "session_id"; namedCookie "_ga"] = [namedCookie "_ga"].
Proof. repeat split; vm_compute; reflexivity. Qed.

Example analytics_request_deduplicated :
  let collect := {| url := JStr "https://www.google-analytics.com/collect";
                    type := JStr "xhr"; timestamp := 0 |} in
  evidence (checkPreConsentViolations [] [collect; collect] "" 0 0)
  = PreConsent [requestViolation
                  [ {| tr_service := "Google Analytics"; tr_category := "analytics";
                       tr_url := url collect; tr_type := type collect |};
                    {| tr_service := "Google Analytics"; tr_category := "analytics";
                       tr_url := url collect; tr_type := type collect |} ]]
               0
               [ {| ts_name := "Google Analytics"; ts_category := "analytics";
                    ts_detected := true |} ]
  /\ score (checkPreConsentViolations [] [collect; collect] "" 0 0)
     = Some (num_of_Z 80).
Proof. split; vm_compute; reflexivity. Qed.

Example shop_audit :
  exists report σ',
    checkUrl steadyWorld "https://shop.example/" 0 initial = Some (report, σ')
    /\ report_score report = num_of_Z 81
    /\ map priority (recommendations report) = ["MEDIUM"]
    /\ connections σ' = ["shop.example"]
    /\ waits σ' = [3000].
Proof. eexists _, _. repeat split; vm_compute; reflexivity. Qed.
